(** * pdfsplit: a shallow embedding of [src/pdfsplit/core.py]

    The development models the three functions of [core.py]
    ([split_pdf], [find_pdfs], [split_many]) over an explicit file-system
    state, with Python exceptions as an error result that keeps the state
    reached so far (there is no rollback in the source). *)

From Stdlib Require Import ZArith Ascii String List Bool Lia.
From stdpp Require Import base option list strings pretty gmap fin_maps.

Local Open Scope string_scope.
Local Open Scope list_scope.
Local Open Scope Z_scope.

(** ** Strings (the [str] methods used by the source) *)

Module Str.

(** [str.lower()] on the ASCII range. *)
Definition lower_ascii (c : ascii) : ascii :=
  let n := nat_of_ascii c in
  if (Nat.leb 65 n && Nat.leb n 90)%bool then ascii_of_nat (n + 32) else c.

Fixpoint lower (s : string) : string :=
  match s with
  | EmptyString => EmptyString
  | String c r => String (lower_ascii c) (lower r)
  end.

(** [s.endswith(suffix)] *)
Definition endswith (s suffix : string) : bool :=
  let n := String.length s in
  let k := String.length suffix in
  (Nat.leb k n && String.eqb (String.substring (n - k) k s) suffix)%bool.

(** [s.rfind(".")]: index of the last dot, if any. *)
Fixpoint rfind_dot_from (i : nat) (s : string) : option nat :=
  match s with
  | EmptyString => None
  | String c r =>
      match rfind_dot_from (S i) r with
      | Some j => Some j
      | None => if Ascii.eqb c "."%char then Some i else None
      end
  end.

Definition rfind_dot (s : string) : option nat := rfind_dot_from 0 s.

(** [s.split("/")] *)
Fixpoint split_slash_aux (cur : string) (s : string) : list string :=
  match s with
  | EmptyString => [String.rev cur]
  | String c r =>
      if Ascii.eqb c "/"%char
      then String.rev cur :: split_slash_aux EmptyString r
      else split_slash_aux (String c cur) r
  end.

Definition split_slash (s : string) : list string := split_slash_aux EmptyString s.

Fixpoint join_slash (l : list string) : string :=
  match l with
  | [] => ""
  | [x] => x
  | x :: r => x +:+ "/" +:+ join_slash r
  end.

End Str.

(** ** Paths ([pathlib.Path])

    A [Path] is identified with the list of its components from the
    root: relative paths are taken from the working directory [cwd] when
    they are built from a string.  Components [.] and empty components
    are dropped as [pathlib] does; [..] is kept as a component and is not
    interpreted. *)

Abbreviation path := (list string).

Module Path.

Definition components (s : string) : list string :=
  List.filter (fun c => negb (String.eqb c "" || String.eqb c ".")%bool)
              (Str.split_slash s).

Definition is_absolute (s : string) : bool :=
  match s with
  | String c _ => Ascii.eqb c "/"%char
  | EmptyString => false
  end.

(** [base / s]: an absolute right operand replaces the left one. *)
Definition join (base : path) (s : string) : path :=
  if is_absolute s then components s else base ++ components s.

(** [Path(s)] *)
Definition of_string (cwd : path) (s : string) : path := join cwd s.

(** [str(p)] *)
Definition to_string (p : path) : string := "/" +:+ Str.join_slash p.

(** [p.parent]; the parent of the root is the root. *)
Definition parent (p : path) : path := removelast p.

(** [p.name]; empty for the root. *)
Definition name (p : path) : string := List.last p "".

(** [p.suffix]: the part of the name from its last dot, when that dot is
    neither the first nor the last character of the name. *)
Definition suffix (p : path) : string :=
  let n := name p in
  match Str.rfind_dot n with
  | Some i =>
      if (Nat.ltb 0 i && Nat.ltb i (String.length n - 1))%bool
      then String.substring i (String.length n - i) n
      else ""
  | None => ""
  end.

(** [p.stem] *)
Definition stem (p : path) : string :=
  let n := name p in
  match Str.rfind_dot n with
  | Some i =>
      if (Nat.ltb 0 i && Nat.ltb i (String.length n - 1))%bool
      then String.substring 0 i n
      else n
  | None => n
  end.

End Path.

(** The arguments typed [str | Path] in the source. *)
Inductive pathlike :=
  | PStr (s : string)
  | PPath (p : path).

(** Python truthiness of a [str | Path]: only the empty string is false. *)
Definition truthy (x : pathlike) : bool :=
  match x with
  | PStr s => negb (String.eqb s "")
  | PPath _ => true
  end.

Definition mkPath (cwd : path) (x : pathlike) : path :=
  match x with
  | PStr s => Path.of_string cwd s
  | PPath p => p
  end.

(** ** Python exceptions and the result of a call *)

(** Why a call into PyMuPDF failed.  The class and the text of the
    exception are the library's and change with its version; the model
    keeps the reason and the path concerned. *)
Inductive fitz_failure :=
  | NoSuchFile      (* [fitz.open]: nothing at the path *)
  | NotAFile        (* [fitz.open]: the path leads to a directory *)
  | CannotOpen      (* [fitz.open]: a file MuPDF cannot read *)
  | CannotSave.     (* [save]: the old entry cannot be removed or the
                       new file cannot be created *)

Inductive exn :=
  | ValueError (msg : string)
  | FileExistsError (msg : string)
  | FileNotFoundError (msg : string)
  | NotADirectoryError (msg : string)
  | OverflowError (msg : string)
  | ZeroDivisionError (msg : string)
  | KeyError (key : string)
  | FitzError (why : fitz_failure) (p : path).

Inductive result (A : Type) :=
  | Ok (a : A)
  | Raise (e : exn).
Arguments Ok {A} a.
Arguments Raise {A} e.

(** ** Documents: the view of PyMuPDF the source relies on

    A page is kept as an opaque identifier; a document has its pages in
    order, its metadata dictionary and the [is_encrypted] flag. *)

Definition page := nat.
Definition metadata := list (string * string).

Record document := Document {
  doc_pages : list page;
  doc_metadata : metadata;
  is_encrypted : bool
}.

Definition page_count (d : document) : Z := Z.of_nat (length (doc_pages d)).

(** [fitz.open()] with no argument: a new empty PDF. *)
Definition new_document : document := Document [] [] false.

(** Pages [from_page .. to_page] (0-based, inclusive) of a page list.
    The source calls [insert_pdf] with [0 <= from_page <= to_page <
    page_count]; outside that range the model copies what the bounds
    leave (nothing when [to_page < from_page]). *)
Definition page_range (from_page to_page : Z) (l : list page) : list page :=
  List.firstn (Z.to_nat (to_page - from_page + 1)) (List.skipn (Z.to_nat from_page) l).

(** [dst.insert_pdf(src, from_page=.., to_page=..)] *)
Definition insert_pdf (dst src : document) (from_page to_page : Z) : document :=
  Document (doc_pages dst ++ page_range from_page to_page (doc_pages src))
           (doc_metadata dst) (is_encrypted dst).

(** ** The file system

    A regular file holds a PDF or bytes that [fitz.open] refuses.  Files
    of the other formats MuPDF reads (text, images, e-books) are not
    part of the model: as a source they would pass [fitz.open] and stop
    the first chunk at [insert_pdf]. *)

Inductive content :=
  | Pdf (d : document)
  | Raw (bytes : string).

Inductive node :=
  | Dir
  | File (c : content)
  | Symlink (target : path).

(** Calls into PyMuPDF that the claims observe. *)
Inductive event :=
  | EvAuthenticate (pw : string)
  | EvSave (p : path) (d : document).

Record world := World {
  fs : gmap path node;
  calls : list event
}.

Module FS.

(** [lstat]: the entry at a path, the root being a directory. *)
Definition node_at (m : gmap path node) (p : path) : option node :=
  match p with
  | [] => Some Dir
  | _ => m !! p
  end.

(** The kernel gives up after 40 nested symbolic links (ELOOP). *)
Definition MAXSYMLINKS : nat := 40.

(** Follow the symbolic links at the end of a path.  Links in the middle
    of a path are not followed: entries are looked up under the path
    they were created with. *)
Fixpoint resolve_n (n : nat) (m : gmap path node) (p : path) : option path :=
  match node_at m p with
  | Some (Symlink t) =>
      match n with
      | O => None
      | S n' => resolve_n n' m t
      end
  | _ => Some p
  end.

Definition resolve (m : gmap path node) (p : path) : option path :=
  resolve_n MAXSYMLINKS m p.

(** [stat]: the entry a path leads to, through links. *)
Definition stat (m : gmap path node) (p : path) : option node :=
  match resolve m p with
  | Some q => node_at m q
  | None => None
  end.

(** [Path.exists()], [Path.is_file()], [Path.is_dir()] *)
Definition exists_ (m : gmap path node) (p : path) : bool :=
  match stat m p with Some _ => true | None => false end.

Definition is_file (m : gmap path node) (p : path) : bool :=
  match stat m p with Some (File _) => true | _ => false end.

Definition is_dir (m : gmap path node) (p : path) : bool :=
  match stat m p with Some Dir => true | _ => false end.

(** [Path.resolve()]: the canonical path.  On a chain of links that
    [stat] refuses, the path is left as it is; [find_pdfs] resolves only
    paths for which [is_file] holds. *)
Definition realpath (m : gmap path node) (p : path) : path :=
  match resolve m p with Some q => q | None => p end.

(** Whether a regular file lies on the way to a path, given reversed. *)
Fixpoint under_file (m : gmap path node) (rp : list string) : bool :=
  match rp with
  | [] => false
  | _ :: rparent =>
      match stat m (rev rp) with
      | Some (File _) => true
      | _ => under_file m rparent
      end
  end.

(** [os.mkdir(p)]: EEXIST on any entry at [p]; otherwise the parent
    must be a directory; ENOTDIR when a regular file is on the way,
    ENOENT when the parent is missing. *)
Definition os_mkdir (m : gmap path node) (p : path) : result (gmap path node) :=
  match node_at m p with
  | Some _ => Raise (FileExistsError (Path.to_string p))
  | None =>
      match stat m (Path.parent p) with
      | Some Dir => Ok (<[p := Dir]> m)
      | Some _ => Raise (NotADirectoryError (Path.to_string p))
      | None =>
          if under_file m (rev (Path.parent p))
          then Raise (NotADirectoryError (Path.to_string p))
          else Raise (FileNotFoundError (Path.to_string p))
      end
  end.

(** [Path.mkdir(parents=False, exist_ok=True)] *)
Definition mkdir_exist_ok (m : gmap path node) (p : path) : result (gmap path node) :=
  match os_mkdir m p with
  | Ok m' => Ok m'
  | Raise (FileNotFoundError msg) => Raise (FileNotFoundError msg)
  | Raise e => if is_dir m p then Ok m else Raise e
  end.

(** [Path.mkdir(parents=True, exist_ok=True)], by recursion on the
    reversed path: the tail of the reversed path is the parent. *)
Fixpoint mkdir_parents_rev (rp : list string) (m : gmap path node)
  : result (gmap path node) :=
  match os_mkdir m (rev rp) with
  | Ok m' => Ok m'
  | Raise (FileNotFoundError msg) =>
      match rp with
      | [] => Raise (FileNotFoundError msg)
      | _ :: rparent =>
          match mkdir_parents_rev rparent m with
          | Ok m1 => mkdir_exist_ok m1 (rev rp)
          | Raise e => Raise e
          end
      end
  | Raise e => if is_dir m (rev rp) then Ok m else Raise e
  end.

Definition mkdir_parents (m : gmap path node) (p : path) : result (gmap path node) :=
  mkdir_parents_rev (rev p) m.

(** Whether the directory [p] holds an entry. *)
Definition has_child (m : gmap path node) (p : path) : bool :=
  List.existsb (fun k => match k with
                         | [] => false
                         | _ => bool_decide (Path.parent k = p)
                         end)
               (List.map fst (map_to_list m)).

(** Where a file written at [p] lands.  MuPDF first removes what stands
    at [p] ([remove]: a regular file, a link itself and not its target,
    a directory without entries) and then creates a new file at [p]
    ([fopen] with [wb+x]), which takes a directory to hold it.  So the
    file lands at [p] itself, unless [p] is the root or a directory
    with entries, or [p] has no directory above it. *)
Definition write_target (m : gmap path node) (p : path) : option path :=
  match p with
  | [] => None
  | _ =>
      match node_at m p with
      | Some Dir =>
          if has_child m p then None
          else if is_dir m (Path.parent p) then Some p else None
      | _ => if is_dir m (Path.parent p) then Some p else None
      end
  end.

End FS.

(** ** What path operations observe of a file system *)

Module Kinds.
Import FS.

(** What the path operations look at: the kind of an entry. *)
Inductive kind :=
  | KNone
  | KDir
  | KFile
  | KLink (t : path).

Definition kind_of (o : option node) : kind :=
  match o with
  | None => KNone
  | Some Dir => KDir
  | Some (File _) => KFile
  | Some (Symlink t) => KLink t
  end.

Definition kind_at (m : gmap path node) (p : path) : kind := kind_of (node_at m p).

(** A regular file and a free name look the same to whoever follows
    links: both end the chain. *)
Definition shape (k : kind) : kind :=
  match k with
  | KFile => KNone
  | _ => k
  end.

Definition same_kinds (m m' : gmap path node) : Prop :=
  forall p, kind_at m p = kind_at m' p.

(** Same directories and links; regular files may differ. *)
Definition compat (m m' : gmap path node) : Prop :=
  forall p, shape (kind_at m p) = shape (kind_at m' p).

(** Only directories were added, on free names. *)
Definition extends (m m' : gmap path node) : Prop :=
  forall p, node_at m' p = node_at m p \/ (node_at m p = None /\ node_at m' p = Some Dir).

(** Whatever [exists()] sees in [m] is the same entry in [m']. *)
Definition keeps (m m' : gmap path node) : Prop :=
  forall x, exists_ m x = true -> node_at m' x = node_at m x.

(** Equal except perhaps for the content of the regular file at [r]. *)
Definition agree_off (r : path) (m m2 : gmap path node) : Prop :=
  forall x, node_at m2 x = node_at m x
            \/ (x = r /\ exists c c2, node_at m x = Some (File c)
                                     /\ node_at m2 x = Some (File c2)).

(** Two results of [mkdir] on such file systems. *)
Definition mkdir_related (r : path) (a b : result (gmap path node)) : Prop :=
  match a, b with
  | Ok m, Ok m2 => agree_off r m m2
  | Raise e, Raise e2 => e = e2
  | _, _ => False
  end.

(** A tree: whatever has an entry lies in a directory. *)
Definition tree (m : gmap path node) : Prop :=
  forall k, node_at m k <> None -> is_dir m (Path.parent k) = true.

Definition wf (m : gmap path node) : bool :=
  List.forallb (fun k => is_dir m (Path.parent k)) (List.map fst (map_to_list m)).

End Kinds.

(** ** The state-and-exception monad of the embedding *)

Definition M (A : Type) : Type := world -> world * result A.

Definition ret {A} (a : A) : M A := fun w => (w, Ok a).
Definition raise {A} (e : exn) : M A := fun w => (w, Raise e).
Definition bind {A B} (c : M A) (k : A -> M B) : M B :=
  fun w => match c w with
           | (w', Ok a) => k a w'
           | (w', Raise e) => (w', Raise e)
           end.
Definition lift {A} (r : result A) : M A := fun w => (w, r).

Notation "'let!' x ':=' c 'in' k" := (bind c (fun x => k))
  (at level 10, x name, c at level 100, k at level 200).
Notation "'run!' c 'in' k" := (bind c (fun _ => k))
  (at level 10, c at level 100, k at level 200).

(** ** Python numbers: [int / int] and [math.ceil]

    [a / b] on two [int]s is the binary64 number nearest to the exact
    quotient (ties to even), [OverflowError] when that is out of range;
    quotients too small for a subnormal become [0.0].  A finite binary64
    value is kept as [m * 2^e] with [e >= -1074]. *)

Module PyNum.

Record float := Float { mant : Z; expo : Z }.

(** Nearest integer to [n / d] for [d > 0], ties to even. *)
Definition round_half_even (n d : Z) : Z :=
  let q := n / d in
  let r := n mod d in
  if 2 * r <? d then q
  else if d <? 2 * r then q + 1
  else if Z.even q then q else q + 1.

(** [floor (log2 (a / b))] for [a, b > 0]. *)
Definition quotient_log2 (a b : Z) : Z :=
  let d := Z.log2 a - Z.log2 b in
  if b * 2 ^ Z.max 0 d <=? a * 2 ^ Z.max 0 (- d) then d else d - 1.

(** The correctly rounded quotient of two positive integers. *)
Definition round_quotient (a b : Z) : float :=
  let e := Z.max (quotient_log2 a b - 52) (-1074) in
  Float (round_half_even (a * 2 ^ Z.max 0 (- e)) (b * 2 ^ Z.max 0 e)) e.

(** Whether [m * 2^e] reaches [2^1024]. *)
Definition overflows (x : float) : bool :=
  if expo x <? 0 then false
  else 2 ^ 1024 <=? mant x * 2 ^ expo x.

(** [a / b] *)
Definition true_div (a b : Z) : result float :=
  if b =? 0 then Raise (ZeroDivisionError "division by zero")
  else if a =? 0 then Ok (Float 0 0)
  else
    let x := round_quotient (Z.abs a) (Z.abs b) in
    if overflows x
    then Raise (OverflowError "integer division result too large for a float")
    else Ok (Float (Z.sgn a * Z.sgn b * mant x) (expo x)).

(** [math.ceil(x)] *)
Definition ceil (x : float) : Z :=
  if expo x <? 0 then - ((- mant x) / 2 ^ (- expo x))
  else mant x * 2 ^ expo x.

Definition ceil_div (a b : Z) : result Z :=
  match true_div a b with
  | Ok x => Ok (ceil x)
  | Raise e => Raise e
  end.

End PyNum.

(** ** What the source leaves to its environment

    The working directory, the case rule of [Path.glob] (case-sensitive
    on POSIX), [str.format] on the five keyword arguments of the source,
    and the two PyMuPDF calls whose outcome depends on the document:
    [authenticate] and the validation done by [set_metadata]. *)

Class Env := {
  cwd : path;
  glob_case_sensitive : bool;
  str_format : string -> string -> Z -> Z -> Z -> Z -> result string;
  authenticate : document -> string -> bool;
  metadata_accepted : metadata -> bool
}.

(** The keyword arguments of [split_pdf] that [split_many] passes on. *)
Record options := Options {
  max_pages : Z;
  output_pattern : option string;
  password : option string;
  keep_metadata : bool;
  overwrite : bool
}.

Definition default_pattern : string := "{stem}_part_{i:02d}.pdf".

(** [range(n)] *)
Definition range (n : Z) : list Z := List.map Z.of_nat (List.seq 0 (Z.to_nat n)).

(** The [outputs] list of a [for] loop that appends one path per index. *)
Fixpoint for_chunks (body : Z -> M path) (idxs : list Z) (outputs : list path)
  : M (list path) :=
  match idxs with
  | [] => ret outputs
  | idx :: rest =>
      let! out_path := body idx in
      for_chunks body rest (outputs ++ [out_path])
  end.

Section Splitter.
Context `{Env}.

Definition _ensure_pdf_suffix (name : string) : string :=
  if Str.endswith (Str.lower name) ".pdf" then name else name +:+ ".pdf".

(** [output_dir.mkdir(parents=True, exist_ok=True)] *)
Definition mkdir (p : path) : M unit := fun w =>
  match FS.mkdir_parents (fs w) p with
  | Ok m => (World m (calls w), Ok tt)
  | Raise e => (w, Raise e)
  end.

(** [fitz.open(p)]: PyMuPDF looks at the path with [os.path.exists] and
    [os.path.isfile] before it hands the file to MuPDF. *)
Definition fitz_open (p : path) : M document := fun w =>
  match FS.stat (fs w) p with
  | Some (File (Pdf d)) => (w, Ok d)
  | Some (File (Raw _)) => (w, Raise (FitzError CannotOpen p))
  | Some _ => (w, Raise (FitzError NotAFile p))
  | None => (w, Raise (FitzError NoSuchFile p))
  end.

(** [src.authenticate(pw)] *)
Definition doc_authenticate (d : document) (pw : string) : M bool := fun w =>
  (World (fs w) (calls w ++ [EvAuthenticate pw]), Ok (authenticate d pw)).

(** [p.exists()] *)
Definition path_exists (p : path) : M bool := fun w =>
  (w, Ok (FS.exists_ (fs w) p)).

(** [d.set_metadata(md)]: raises on a dictionary it does not accept. *)
Definition set_metadata (d : document) (md : metadata) : result document :=
  if metadata_accepted md
  then Ok (Document (doc_pages d) md (is_encrypted d))
  else Raise (ValueError "bad dict key").

(** [d.save(p, garbage=4, deflate=True)]: a new regular file at [p] in
    place of what was there. *)
Definition save (d : document) (p : path) : M unit := fun w =>
  match FS.write_target (fs w) p with
  | Some q => (World (<[q := File (Pdf d)]> (fs w)) (calls w ++ [EvSave p d]), Ok tt)
  | None => (w, Raise (FitzError CannotSave p))
  end.

(** Lines 87-93: the new document of a chunk. *)
Definition build_part (src : document) (start0 end0 : Z) (keep_md : bool) : document :=
  let part_doc := insert_pdf new_document src start0 end0 in
  if keep_md then
    match set_metadata part_doc (doc_metadata src) with
    | Ok d => d
    | Raise _ => part_doc
    end
  else part_doc.

(** Lines 72-96: the body of the loop. *)
Definition write_chunk (src : document) (total : Z) (stem pattern : string)
    (output_dir : path) (opts : options) (idx : Z) : M path :=
  let start0 := idx * max_pages opts in
  let end0 := Z.min (start0 + max_pages opts) total - 1 in
  let start1 := start0 + 1 in
  let end1 := end0 + 1 in
  let! out_name := lift (str_format pattern stem (idx + 1) idx start1 end1) in
  let out_path := Path.join output_dir (_ensure_pdf_suffix out_name) in
  let! ex := path_exists out_path in
  if (ex && negb (overwrite opts))%bool then
    raise (FileExistsError ("Output exists: " +:+ Path.to_string out_path
                            +:+ ". Use overwrite=True to replace."))
  else
    let part_doc := build_part src start0 end0 (keep_metadata opts) in
    run! save part_doc out_path in
    ret out_path.

(** Lines 61-65. *)
Definition check_password (src : document) (pw : option string) : M unit :=
  if is_encrypted src then
    match pw with
    | None | Some EmptyString =>
        raise (ValueError "PDF is encrypted: please provide a password.")
    | Some pw =>
        let! ok := doc_authenticate src pw in
        if ok then ret tt else raise (ValueError "Wrong password for encrypted PDF.")
    end
  else ret tt.

(** [output_pattern or "{stem}_part_{i:02d}.pdf"] *)
Definition pattern_of (opts : options) : string :=
  match output_pattern opts with
  | None | Some EmptyString => default_pattern
  | Some p => p
  end.

Definition output_dir_of (input_pdf : path) (output_dir : option pathlike) : path :=
  match output_dir with
  | None => Path.parent input_pdf
  | Some d => mkPath cwd d
  end.

Definition split_pdf (input_pdf : pathlike) (output_dir : option pathlike)
    (opts : options) : M (list path) :=
  let input_pdf := mkPath cwd input_pdf in
  let output_dir := output_dir_of input_pdf output_dir in
  run! mkdir output_dir in
  if max_pages opts <=? 0 then raise (ValueError "max_pages must be > 0")
  else
    let pattern := pattern_of opts in
    let! src := fitz_open input_pdf in
    run! check_password src (password opts) in
    let total := page_count src in
    let! parts := lift (PyNum.ceil_div total (max_pages opts)) in
    let stem := Path.stem input_pdf in
    for_chunks (write_chunk src total stem pattern output_dir opts) (range parts) [].

End Splitter.

(** ** Discovery *)

Module Glob.

(** [fnmatch] on one path component: [*] matches any run of characters,
    [?] one character, anything else itself.  Bracket expressions and
    patterns of several components are outside this fragment. *)
Fixpoint fnmatch (pat : string) : string -> bool :=
  match pat with
  | EmptyString => fun name => String.eqb name ""
  | String c p =>
      if Ascii.eqb c "*"%char then
        fix star (name : string) : bool :=
          (fnmatch p name
           || match name with
              | EmptyString => false
              | String _ name' => star name'
              end)%bool
      else
        fun name =>
          match name with
          | EmptyString => false
          | String d name' =>
              ((Ascii.eqb c "?"%char || Ascii.eqb c d) && fnmatch p name')%bool
          end
  end.

Fixpoint has_char (c : ascii) (s : string) : bool :=
  match s with
  | EmptyString => false
  | String d r => (Ascii.eqb c d || has_char c r)%bool
  end.

Fixpoint has_two_stars (s : string) : bool :=
  match s with
  | String a (String b _ as r) =>
      ((Ascii.eqb a "*"%char && Ascii.eqb b "*"%char) || has_two_stars r)%bool
  | _ => false
  end.

(** The patterns of this fragment, on which [Path.glob] does what
    [fnmatch] on the names does: one component (no separator, not empty
    and not [.]), no bracket expression, no [**]. *)
Definition plain (pat : string) : bool :=
  (negb (String.eqb pat "") && negb (String.eqb pat ".")
   && negb (has_char "/"%char pat) && negb (has_char (ascii_of_nat 92) pat)
   && negb (has_char "["%char pat) && negb (has_two_stars pat))%bool.

Definition matches (case_sensitive : bool) (pat name : string) : bool :=
  if case_sensitive then fnmatch pat name
  else fnmatch (Str.lower pat) (Str.lower name).

(** Whether [p] is a proper prefix of [k]. *)
Fixpoint strictly_below (p k : path) : bool :=
  match p, k with
  | [], [] => false
  | [], _ :: _ => true
  | _ :: _, [] => false
  | a :: p', b :: k' => (String.eqb a b && strictly_below p' k')%bool
  end.

Definition child_of (p k : path) : bool :=
  (strictly_below p k && Nat.eqb (length k) (S (length p)))%bool.

End Glob.

Section Discoverer.
Context `{Env}.

(** [p.glob(pattern)]: the entries of the directory [p] whose name
    matches, in the enumeration order of the file system.  This is
    [Path.glob] for the patterns of [Glob.plain] and for directories
    that are not reached through a link: the entries below a link to a
    directory are not part of the file system of the model. *)
Definition glob (m : gmap path node) (p : path) (pattern : string) : list path :=
  List.filter
    (fun k => (Glob.child_of p k
               && Glob.matches glob_case_sensitive pattern (Path.name k))%bool)
    (List.map fst (map_to_list m)).

(** [p.rglob(pattern)]: the same below [p] at any depth. *)
Definition rglob (m : gmap path node) (p : path) (pattern : string) : list path :=
  List.filter
    (fun k => (Glob.strictly_below p k
               && Glob.matches glob_case_sensitive pattern (Path.name k))%bool)
    (List.map fst (map_to_list m)).

(** Lines 116-122: what one input path contributes to [found]. *)
Definition found_at (m : gmap path node) (recursive : bool) (pattern : string)
    (p : path) : list path :=
  if (FS.is_file m p && String.eqb (Str.lower (Path.suffix p)) ".pdf")%bool then [p]
  else if FS.is_dir m p then
    let globber := if recursive then rglob m else glob m in
    List.filter (FS.is_file m) (globber p pattern)
  else [].

(** Lines 124-129: first occurrence of each resolved path. *)
Fixpoint unique_resolved (m : gmap path node) (found : list path) (seen : gset path)
  : list path :=
  match found with
  | [] => []
  | f :: rest =>
      if decide (FS.realpath m f ∈ seen) then unique_resolved m rest seen
      else f :: unique_resolved m rest ({[FS.realpath m f]} ∪ seen)
  end.

Definition find_pdfs (m : gmap path node) (paths : list pathlike) (recursive : bool)
    (pattern : string) : list path :=
  let found := List.concat (List.map (fun p => found_at m recursive pattern (mkPath cwd p)) paths) in
  unique_resolved m found ∅.

End Discoverer.

(** ** Batch orchestration *)

Section Batch.
Context `{Env}.

(** [Path(output_dir) if output_dir else pdf.parent] *)
Definition out_dir_for (output_dir : option pathlike) (pdf : path) : path :=
  match output_dir with
  | Some d => if truthy d then mkPath cwd d else Path.parent pdf
  | None => Path.parent pdf
  end.

(** Lines 147-159: the loop over the discovered files. *)
Fixpoint split_each (output_dir : option pathlike) (opts : options)
    (pdfs : list path) (outputs : list path) : M (list path) :=
  match pdfs with
  | [] => ret outputs
  | pdf :: rest =>
      let out_dir := out_dir_for output_dir pdf in
      let! outs := split_pdf (PPath pdf) (Some (PPath out_dir)) opts in
      split_each output_dir opts rest (outputs ++ outs)
  end.

Definition split_many (inputs : list pathlike) (output_dir : option pathlike)
    (recursive : bool) (opts : options) : M (list path) :=
  fun w =>
    let pdfs := find_pdfs (fs w) inputs recursive "*.pdf" in
    split_each output_dir opts pdfs [] w.

End Batch.

(** ** A concrete environment

    Used to run the model on examples: a POSIX system, the part of
    [str.format] that handles the five fields with an optional
    [[0]width[d]] specification, documents whose password is
    ["secret"], and the metadata keys PyMuPDF accepts. *)

Module Example.

Definition digits_to_nat (s : string) : option nat :=
  let fix go (s : string) (acc : nat) : option nat :=
    match s with
    | EmptyString => Some acc
    | String c r =>
        let n := nat_of_ascii c in
        if (Nat.leb 48 n && Nat.leb n 57)%bool then go r (acc * 10 + (n - 48))%nat
        else None
    end in
  go s 0%nat.

Fixpoint pad_left (n : nat) (c : ascii) (s : string) : string :=
  match n with
  | O => s
  | S n' => String c (pad_left n' c s)
  end.

Definition drop_last_d (s : string) : string :=
  if Str.endswith s "d" then String.substring 0 (String.length s - 1) s else s.

(** An [int] under the specification [[0]width[d]]. *)
Definition format_int (spec : string) (z : Z) : result string :=
  let body := drop_last_d spec in
  let zero := match body with String c _ => Ascii.eqb c "0"%char | _ => false end in
  match digits_to_nat body with
  | None => Raise (ValueError "Invalid format specifier")
  | Some width =>
      let s := pretty z in
      Ok (pad_left (width - String.length s) (if zero then "0"%char else " "%char) s)
  end.

Definition format_str (spec : string) (s : string) : result string :=
  if (String.eqb spec "" || String.eqb spec "s")%bool then Ok s
  else Raise (ValueError "Invalid format specifier").

(** [name] and [spec] of a replacement field [name:spec]. *)
Fixpoint split_colon (acc : string) (s : string) : string * string :=
  match s with
  | EmptyString => (String.rev acc, "")
  | String c r =>
      if Ascii.eqb c ":"%char then (String.rev acc, r)
      else split_colon (String c acc) r
  end.

Definition format_field (field : string) (stem : string) (i i0 start end_ : Z)
  : result string :=
  let '(name, spec) := split_colon "" field in
  if String.eqb name "stem" then format_str spec stem
  else if String.eqb name "i" then format_int spec i
  else if String.eqb name "i0" then format_int spec i0
  else if String.eqb name "start" then format_int spec start
  else if String.eqb name "end" then format_int spec end_
  else Raise (KeyError name).

(** The scanner: [field] holds the reversed text of the replacement
    field being read, if any. *)
Fixpoint format_go (s : string) (field : option string) (out : string)
    (stem : string) (i i0 start end_ : Z) : result string :=
  match s with
  | EmptyString =>
      match field with
      | None => Ok (String.rev out)
      | Some _ => Raise (ValueError "expected '}' before end of string")
      end
  | String c r =>
      match field with
      | Some acc =>
          if Ascii.eqb c "}"%char then
            match format_field (String.rev acc) stem i i0 start end_ with
            | Ok t => format_go r None (String.rev t +:+ out) stem i i0 start end_
            | Raise e => Raise e
            end
          else if Ascii.eqb c "{"%char then
            Raise (ValueError "unexpected '{' in field name")
          else format_go r (Some (String c acc)) out stem i i0 start end_
      | None =>
          if Ascii.eqb c "{"%char then
            match r with
            | String d r' =>
                if Ascii.eqb d "{"%char
                then format_go r' None (String "{"%char out) stem i i0 start end_
                else format_go r (Some "") out stem i i0 start end_
            | EmptyString => Raise (ValueError "Single '{' encountered in format string")
            end
          else if Ascii.eqb c "}"%char then
            match r with
            | String d r' =>
                if Ascii.eqb d "}"%char
                then format_go r' None (String "}"%char out) stem i i0 start end_
                else Raise (ValueError "Single '}' encountered in format string")
            | EmptyString => Raise (ValueError "Single '}' encountered in format string")
            end
          else format_go r None (String c out) stem i i0 start end_
      end
  end.

Definition py_format (pattern stem : string) (i i0 start end_ : Z) : result string :=
  format_go pattern None "" stem i i0 start end_.

Definition metadata_keys : list string :=
  ["author"; "producer"; "creator"; "title"; "format"; "encryption";
   "creationDate"; "modDate"; "subject"; "keywords"; "trapped"].

Definition keys_accepted (md : metadata) : bool :=
  List.forallb (fun kv => List.existsb (String.eqb (fst kv)) metadata_keys) md.

Definition posix : Env := {|
  cwd := ["work"];
  glob_case_sensitive := true;
  str_format := py_format;
  authenticate := fun _ pw => String.eqb pw "secret";
  metadata_accepted := keys_accepted
|}.

(** The same system with the case rule of Windows for [glob]. *)
Definition windows : Env := {|
  cwd := ["work"];
  glob_case_sensitive := false;
  str_format := py_format;
  authenticate := fun _ pw => String.eqb pw "secret";
  metadata_accepted := keys_accepted
|}.

Definition opts10 : options := Options 10 None None true false.

Definition pages (n : nat) : list page := List.seq 1 n.

Definition demo_md : metadata := [("title", "Demo")].

Definition demo (n : nat) : document := Document (pages n) demo_md false.

(** [tests/test_split.py]: a directory holding [demo.pdf] of 23 pages. *)
Definition tmp_fs : gmap path node :=
  <[["tmp"; "demo.pdf"] := File (Pdf (demo 23))]> (<[["tmp"] := Dir]> ∅).

Definition tmp_world : world := World tmp_fs [].

Definition demo_pdf : pathlike := PPath ["tmp"; "demo.pdf"].
Definition locked_pdf : pathlike := PPath ["tmp"; "locked.pdf"].
Definition odd_pdf : pathlike := PPath ["tmp"; "odd.pdf"].
Definition part_01 : path := ["tmp"; "demo_part_01.pdf"].
Definition part_02 : path := ["tmp"; "demo_part_02.pdf"].
Definition part_03 : path := ["tmp"; "demo_part_03.pdf"].

(** [tmp_fs] with the directories [/out/a/b]. *)
Definition out_fs : gmap path node :=
  <[["out"; "a"; "b"] := Dir]>
  (<[["out"; "a"] := Dir]> (<[["out"] := Dir]> tmp_fs)).

(** An environment whose [authenticate] accepts every password. *)
Definition lenient : Env := {|
  cwd := ["work"];
  glob_case_sensitive := true;
  str_format := py_format;
  authenticate := fun _ _ => true;
  metadata_accepted := keys_accepted
|}.

(** An encrypted document of 5 pages next to [demo.pdf]. *)
Definition locked : document := Document (pages 5) demo_md true.

Definition locked_fs : gmap path node :=
  <[["tmp"; "locked.pdf"] := File (Pdf locked)]> tmp_fs.

Definition locked_world : world := World locked_fs [].

(** [demo.pdf] with the second output of a split already there. *)
Definition taken_fs : gmap path node :=
  <[["tmp"; "demo_part_02.pdf"] := File (Raw "old")]> tmp_fs.

Definition taken_world : world := World taken_fs [].

Definition part1 : document := Document (List.seq 1 10) demo_md false.

(** A document whose metadata [set_metadata] refuses. *)
Definition odd : document := Document (pages 3) [("colour", "red")] false.

Definition odd_fs : gmap path node :=
  <[["tmp"; "odd.pdf"] := File (Pdf odd)]> (<[["tmp"] := Dir]> ∅).

Definition odd_world : world := World odd_fs [].

(** The state after splitting [demo.pdf] in chunks of 10 pages. *)
Definition split_world : world :=
  fst (@split_pdf posix demo_pdf None opts10 tmp_world).

(** A chunk size no page count reaches: [10**400]. *)
Definition huge : Z := 10 ^ 400.

(** The directory of the discovery example: [a.pdf], [b.PDF], [c.txt]
    and a link [a2.pdf] to [a.pdf]. *)
Definition docs_fs : gmap path node :=
  <[["docs"; "a2.pdf"] := Symlink ["docs"; "a.pdf"]]>
  (<[["docs"; "c.txt"] := File (Raw "text")]>
  (<[["docs"; "b.PDF"] := File (Pdf (demo 2))]>
  (<[["docs"; "a.pdf"] := File (Pdf (demo 3))]>
  (<[["docs"] := Dir]> ∅)))).

End Example.


(** ** Views of a run used by the statements *)

(** The documents saved during a run, in order, and the passwords tried. *)
Definition saves (evs : list event) : list (path * document) :=
  List.flat_map (fun ev => match ev with
                           | EvSave p d => [(p, d)]
                           | EvAuthenticate _ => []
                           end) evs.

Definition auth_attempts (evs : list event) : list string :=
  List.flat_map (fun ev => match ev with
                           | EvAuthenticate pw => [pw]
                           | EvSave _ _ => []
                           end) evs.

(** Files written one after the other. *)
Definition apply_writes (ws : list (path * document)) (m : gmap path node)
  : gmap path node :=
  List.fold_left (fun m qd => <[fst qd := File (Pdf (snd qd))]> m) ws m.

(** The last document written at [x], if any. *)
Fixpoint last_write (x : path) (ws : list (path * document)) : option document :=
  match ws with
  | [] => None
  | (q, d) :: rest =>
      match last_write x rest with
      | Some d' => Some d'
      | None => if decide (x = q) then Some d else None
      end
  end.

Section SplitterView.
Context `{Env}.

(** Lines 48-68 of [split_pdf]: everything before the loop, giving the
    opened document and the number of parts. *)
Definition prepare (input_pdf : pathlike) (output_dir : option pathlike)
    (opts : options) : M (document * Z) :=
  let input_pdf := mkPath cwd input_pdf in
  let output_dir := output_dir_of input_pdf output_dir in
  run! mkdir output_dir in
  if max_pages opts <=? 0 then raise (ValueError "max_pages must be > 0")
  else
    let! src := fitz_open input_pdf in
    run! check_password src (password opts) in
    let! parts := lift (PyNum.ceil_div (page_count src) (max_pages opts)) in
    ret (src, parts).

(** The loop body [split_pdf] runs for a given source document. *)
Definition chunk_body (input_pdf : pathlike) (output_dir : option pathlike)
    (opts : options) (src : document) : Z -> M path :=
  write_chunk src (page_count src) (Path.stem (mkPath cwd input_pdf))
    (pattern_of opts) (output_dir_of (mkPath cwd input_pdf) output_dir) opts.

(** The output path of chunk [idx], when the pattern renders. *)
Definition chunk_path (input_pdf : pathlike) (output_dir : option pathlike)
    (opts : options) (total : Z) (idx : Z) : result path :=
  let start0 := idx * max_pages opts in
  let end0 := Z.min (start0 + max_pages opts) total - 1 in
  match str_format (pattern_of opts) (Path.stem (mkPath cwd input_pdf))
          (idx + 1) idx (start0 + 1) (end0 + 1) with
  | Ok out_name =>
      Ok (Path.join (output_dir_of (mkPath cwd input_pdf) output_dir)
            (_ensure_pdf_suffix out_name))
  | Raise e => Raise e
  end.

(** The document of chunk [idx]. *)
Definition chunk_doc (opts : options) (src : document) (idx : Z) : document :=
  let start0 := idx * max_pages opts in
  let end0 := Z.min (start0 + max_pages opts) (page_count src) - 1 in
  build_part src start0 end0 (keep_metadata opts).

(** What chunk [idx] does on a file system [m] when nothing stops it:
    its path, where the file lands (the path itself), and its
    document. *)
Definition chunk_plan (input_pdf : pathlike) (output_dir : option pathlike)
    (opts : options) (src : document) (m : gmap path node) (idx : Z)
  : option (path * path * document) :=
  match chunk_path input_pdf output_dir opts (page_count src) idx with
  | Ok p =>
      match FS.write_target m p with
      | Some q => Some (p, q, chunk_doc opts src idx)
      | None => None
      end
  | Raise _ => None
  end.

(** The chunks one after the other, each on the file system the
    previous ones have left. *)
Fixpoint plan (input_pdf : pathlike) (output_dir : option pathlike)
    (opts : options) (src : document) (m : gmap path node) (idxs : list Z)
  : option (list (path * path * document)) :=
  match idxs with
  | [] => Some []
  | idx :: rest =>
      match chunk_plan input_pdf output_dir opts src m idx with
      | Some (p, q, d) =>
          match plan input_pdf output_dir opts src (<[q := File (Pdf d)]> m) rest with
          | Some l => Some ((p, q, d) :: l)
          | None => None
          end
      | None => None
      end
  end.

End SplitterView.

Definition step_path (s : path * path * document) : path := fst (fst s).
Definition step_write (s : path * path * document) : path * document :=
  (snd (fst s), snd s).
Definition step_event (s : path * path * document) : event :=
  EvSave (fst (fst s)) (snd s).

(** ** Batch orchestration as the specification words it

    Each discovered file is split on the state the previous one left;
    the first failure ends the batch with that failure and that state;
    otherwise the outputs are concatenated in discovery order. *)

Inductive batch_run `{Env} (output_dir : option pathlike) (opts : options)
  : list path -> world -> world -> result (list path) -> Prop :=
  | batch_done w :
      batch_run output_dir opts [] w w (Ok [])
  | batch_abort pdf rest w w' e :
      split_pdf (PPath pdf) (Some (PPath (out_dir_for output_dir pdf))) opts w
        = (w', Raise e) ->
      batch_run output_dir opts (pdf :: rest) w w' (Raise e)
  | batch_next pdf rest w w1 outs w2 r :
      split_pdf (PPath pdf) (Some (PPath (out_dir_for output_dir pdf))) opts w
        = (w1, Ok outs) ->
      batch_run output_dir opts rest w1 w2 r ->
      batch_run output_dir opts (pdf :: rest) w w2
        (match r with
         | Ok outs' => Ok (outs ++ outs')
         | Raise e => Raise e
         end).


(** ** The command line ([cli.py])

    A command ends with an exit status and the paths it has echoed on
    standard output, one per line, or with an exception nobody catches.  A parameter
    that [typer] refuses ([min=1], [exists=True], a missing argument)
    ends the command with status 2 before its body runs; what goes to
    standard error (usage messages, the progress bar) is not kept.
    Access rights are not part of the file system of this model, so
    [readable=True] asks nothing more than [exists=True]. *)

Inductive outcome :=
  | Exit (code : Z) (stdout : list path)
  | Crash (e : exn).

Module Cli.
Section Commands.
Context `{Env}.

(** [split] (lines 13-38) *)
Definition split (input_pdf : string) (max_pages : Z) (out : option string)
    (pattern password : option string) (overwrite no_metadata : bool)
  : world -> world * outcome :=
  fun w =>
    let input_pdf := Path.of_string cwd input_pdf in
    if (negb (FS.exists_ (fs w) input_pdf) || (max_pages <? 1))%bool then (w, Exit 2 [])
    else
      match split_pdf (PPath input_pdf)
              (option_map (fun o => PPath (Path.of_string cwd o)) out)
              (Options max_pages pattern password (negb no_metadata) overwrite) w with
      | (w', Ok outputs) => (w', Exit 0 outputs)
      | (w', Raise e) => (w', Crash e)
      end.

(** Lines 60-72 of [batch]: the loop over the discovered files, with
    [out or pdf.parent] as output directory. *)
Fixpoint batch_loop (out : option path) (opts : options) (pdfs : list path)
    (produced : list path) : M (list path) :=
  match pdfs with
  | [] => ret produced
  | pdf :: rest =>
      let output_dir := match out with
                        | Some o => o
                        | None => Path.parent pdf
                        end in
      let! outs := split_pdf (PPath pdf) (Some (PPath output_dir)) opts in
      batch_loop out opts rest (produced ++ outs)
  end.

(** [batch] (lines 41-74) *)
Definition batch (paths : list string) (recursive : bool) (glob : string)
    (max_pages : Z) (out : option string) (pattern : option string)
    (overwrite : bool) (password : option string) (no_metadata : bool)
  : world -> world * outcome :=
  fun w =>
    match paths with
    | [] => (w, Exit 2 [])
    | _ =>
        if max_pages <? 1 then (w, Exit 2 [])
        else
          let pdfs := find_pdfs (fs w)
                        (List.map (fun s => PPath (Path.of_string cwd s)) paths)
                        recursive glob in
          match pdfs with
          | [] => (w, Exit 0 [])
          | _ =>
              match batch_loop (option_map (Path.of_string cwd) out)
                      (Options max_pages pattern password (negb no_metadata) overwrite)
                      pdfs [] w with
              | (w', Ok produced) => (w', Exit 0 produced)
              | (w', Raise e) => (w', Crash e)
              end
          end
    end.

End Commands.
End Cli.

(** A name without a separator: a single path component. *)
Definition slash_free (t : string) : Prop :=
  forall c, In c (list_ascii_of_string t) -> c <> "/"%char.

(** ** More sample worlds *)

Module Sample.
Import Example.

(** The three chunks of [demo.pdf] split by 10 pages. *)
Definition demo_steps : list (path * path * document) :=
  [(part_01, part_01, Document (List.seq 1 10) demo_md false);
   (part_02, part_02, Document (List.seq 11 10) demo_md false);
   (part_03, part_03, Document (List.seq 21 3) demo_md false)].

(** A directory holding a PDF without pages. *)
Definition blank_fs : gmap path node :=
  <[["tmp"; "blank.pdf"] := File (Pdf (demo 0))]> (<[["tmp"] := Dir]> ∅).

Definition blank_pdf : pathlike := PPath ["tmp"; "blank.pdf"].

(** A file that is not a PDF. *)
Definition notes_fs : gmap path node :=
  <[["tmp"; "notes.pdf"] := File (Raw "plain text")]> (<[["tmp"] := Dir]> ∅).

Definition notes_pdf : pathlike := PPath ["tmp"; "notes.pdf"].

(** The chunks of [odd.pdf] split by 2 pages: its metadata are refused,
    so the chunks carry none. *)
Definition odd_steps : list (path * path * document) :=
  [(["tmp"; "odd_part_01.pdf"], ["tmp"; "odd_part_01.pdf"], Document [1; 2]%nat [] false);
   (["tmp"; "odd_part_02.pdf"], ["tmp"; "odd_part_02.pdf"], Document [3]%nat [] false)].

(** An output directory over which the call saves its one chunk: the
    pattern renders the path of the directory itself. *)
Definition clash : path := ["tmp"; "out.pdf"].

Definition clash_dir : pathlike := PStr "/tmp/out.pdf".

Definition clash_opts : options := Options 30 (Some "/tmp/out.pdf") None true true.

Definition clash_world : world :=
  World (<[clash := File (Pdf (demo 23))]> (<[clash := Dir]> tmp_fs))
        [EvSave clash (demo 23)].

(** An output directory below a regular file. *)
Definition blocked_dir : pathlike := PStr "/tmp/demo.pdf/a/b".

(** A link that leads nowhere, at the path of the first chunk of
    [demo.pdf]. *)
Definition dangling_fs : gmap path node :=
  <[part_01 := Symlink ["tmp"; "gone.pdf"]]> tmp_fs.

End Sample.

(** * Facts about the file system *)

Module FSFacts.
Import FS Kinds.

Lemma compat_refl m : compat m m.
Proof. intros p. reflexivity. Qed.

Lemma compat_sym m m' : compat m m' -> compat m' m.
Proof. intros Hc p. symmetry. apply Hc. Qed.

Lemma compat_trans m1 m2 m3 : compat m1 m2 -> compat m2 m3 -> compat m1 m3.
Proof. intros H12 H23 p. rewrite H12. apply H23. Qed.

Lemma same_kinds_compat m m' : same_kinds m m' -> compat m m'.
Proof. intros Hk p. rewrite Hk. reflexivity. Qed.

Lemma resolve_n_unfold n m p :
  resolve_n n m p =
  match node_at m p with
  | Some (Symlink t) => match n with O => None | S n' => resolve_n n' m t end
  | _ => Some p
  end.
Proof. destruct n; reflexivity. Qed.

Lemma resolve_n_compat n m m' p :
  compat m m' -> resolve_n n m p = resolve_n n m' p.
Proof.
  intros Hc. revert p. induction n as [|n IH]; intros p;
    rewrite (resolve_n_unfold _ m), (resolve_n_unfold _ m');
    specialize (Hc p); unfold kind_at in Hc;
    destruct (node_at m p) as [[| |t]|], (node_at m' p) as [[| |t']|];
    simpl in Hc; try discriminate; try reflexivity;
    injection Hc as ->; auto.
Qed.

Lemma resolve_compat m m' p : compat m m' -> resolve m p = resolve m' p.
Proof. apply resolve_n_compat. Qed.

(** The end of a chain of links is not a link. *)
Lemma resolve_n_not_link n m p q :
  resolve_n n m p = Some q -> forall t, node_at m q <> Some (Symlink t).
Proof.
  revert p. induction n as [|n IH]; intros p; rewrite resolve_n_unfold;
    destruct (node_at m p) as [[| |t]|] eqn:E; intros Hq;
    try discriminate; try (injection Hq as <-; rewrite E; discriminate).
  eauto.
Qed.

Lemma stat_shape m m' p :
  compat m m' -> shape (kind_of (stat m p)) = shape (kind_of (stat m' p)).
Proof.
  intros Hc. unfold stat. rewrite <- (resolve_compat m m' p Hc).
  destruct (resolve m p) as [q|]; [apply Hc | reflexivity].
Qed.

Lemma is_dir_compat m m' p : compat m m' -> is_dir m p = is_dir m' p.
Proof.
  intros Hc. unfold is_dir. pose proof (stat_shape m m' p Hc) as Hs.
  destruct (stat m p) as [[| |]|], (stat m' p) as [[| |]|];
    simpl in Hs; try discriminate; reflexivity.
Qed.

Lemma stat_same_kinds m m' p :
  same_kinds m m' -> kind_of (stat m p) = kind_of (stat m' p).
Proof.
  intros Hk. unfold stat.
  rewrite <- (resolve_compat m m' p (same_kinds_compat _ _ Hk)).
  destruct (resolve m p) as [q|]; [apply Hk | reflexivity].
Qed.

Lemma exists_same_kinds m m' p : same_kinds m m' -> exists_ m p = exists_ m' p.
Proof.
  intros Hk. unfold exists_. pose proof (stat_same_kinds m m' p Hk) as Hs.
  destruct (stat m p) as [[| |]|], (stat m' p) as [[| |]|];
    simpl in Hs; try discriminate; reflexivity.
Qed.

Lemma shape_none_not_root m q : shape (kind_at m q) = KNone -> q <> [].
Proof. intros Hs ->. discriminate. Qed.

Lemma node_at_insert m q n x :
  q <> [] ->
  node_at (<[q := n]> m) x = if decide (x = q) then Some n else node_at m x.
Proof.
  intros Hq. unfold node_at. destruct x as [|a x].
  - destruct (decide ([] = q)); [congruence | reflexivity].
  - destruct (decide (a :: x = q)) as [->|Hne].
    + apply lookup_insert_eq.
    + apply lookup_insert_ne. congruence.
Qed.

(** *** Saving a file *)

Lemma has_child_spec m p :
  has_child m p = true
  <-> exists k nd, m !! k = Some nd /\ k <> [] /\ Path.parent k = p.
Proof.
  unfold has_child. rewrite List.existsb_exists. split.
  - intros (k & Hin & Hk). apply List.in_map_iff in Hin as ([k' nd] & Hfst & Hin).
    cbn [fst] in Hfst. subst k'.
    apply list_elem_of_In, elem_of_map_to_list in Hin.
    destruct k as [|a k]; [discriminate|].
    apply bool_decide_eq_true in Hk. exists (a :: k), nd. auto.
  - intros (k & nd & Hk & Hne & Hp). exists k. split.
    + apply List.in_map_iff. exists (k, nd). split; [reflexivity|].
      apply list_elem_of_In, elem_of_map_to_list. exact Hk.
    + destruct k as [|a k]; [congruence|]. apply bool_decide_eq_true. exact Hp.
Qed.

Lemma has_child_same_kinds m m' p :
  same_kinds m m' -> has_child m p = has_child m' p.
Proof.
  intros Hk. apply Bool.eq_iff_eq_true. rewrite !has_child_spec.
  split; intros (k & nd & Hn & Hne & Hp); specialize (Hk k); unfold kind_at in Hk;
    destruct k as [|a k]; try congruence; cbn [node_at] in Hk; rewrite Hn in Hk.
  - destruct (m' !! (a :: k)) as [nd'|] eqn:E; [eauto 6|].
    destruct nd; discriminate.
  - destruct (m !! (a :: k)) as [nd'|] eqn:E; [eauto 6|].
    destruct nd; discriminate.
Qed.

Lemma write_target_same_kinds m m' p :
  same_kinds m m' -> write_target m p = write_target m' p.
Proof.
  intros Hk. unfold write_target. destruct p as [|a p]; [reflexivity|].
  rewrite <- (has_child_same_kinds m m' _ Hk).
  replace (is_dir m' (Path.parent (a :: p))) with (is_dir m (Path.parent (a :: p))).
  - specialize (Hk (a :: p)). unfold kind_at in Hk.
    destruct (node_at m (a :: p)) as [[| |]|], (node_at m' (a :: p)) as [[| |]|];
      simpl in Hk; try discriminate; reflexivity.
  - apply is_dir_compat, same_kinds_compat, Hk.
Qed.

(** A file lands at the path itself, below a directory. *)
Lemma write_target_Some m p q :
  write_target m p = Some q ->
  q = p /\ p <> [] /\ is_dir m (Path.parent p) = true.
Proof.
  unfold write_target. destruct p as [|a p]; [discriminate|].
  destruct (node_at m (a :: p)) as [[| |]|];
    try (destruct (has_child m (a :: p)); [discriminate|]);
    (destruct (is_dir m (Path.parent (a :: p))); [|discriminate]);
    intros [= <-]; auto.
Qed.

(** Over a regular file or a link, or on a free name, a directory above
    is all it takes. *)
Lemma write_target_not_dir m p :
  p <> [] -> node_at m p <> Some Dir -> is_dir m (Path.parent p) = true ->
  write_target m p = Some p.
Proof.
  intros Hne Hnd Hd. unfold write_target. destruct p as [|a p]; [congruence|].
  rewrite Hd. destruct (node_at m (a :: p)) as [[| |]|]; congruence.
Qed.

(** *** Creating directories *)

Lemma extends_refl m : extends m m.
Proof. intros p. left. reflexivity. Qed.

Lemma extends_trans m1 m2 m3 : extends m1 m2 -> extends m2 m3 -> extends m1 m3.
Proof.
  intros H12 H23 p. destruct (H12 p) as [E12|[N1 D2]], (H23 p) as [E23|[N2 D3]].
  - left. congruence.
  - right. split; congruence.
  - right. split; congruence.
  - congruence.
Qed.

Lemma node_at_none_not_root m p : node_at m p = None -> p <> [].
Proof. intros Hn ->. discriminate. Qed.

Lemma extends_insert_dir m p : node_at m p = None -> extends m (<[p := Dir]> m).
Proof.
  intros Hn x. rewrite node_at_insert by (eapply node_at_none_not_root; eassumption).
  destruct (decide (x = p)) as [->|]; auto.
Qed.

Lemma resolve_n_extends n m m' p q nd :
  extends m m' -> resolve_n n m p = Some q -> node_at m q = Some nd ->
  resolve_n n m' p = Some q /\ node_at m' q = Some nd.
Proof.
  intros He. revert p. induction n as [|n IH]; intros p;
    rewrite (resolve_n_unfold _ m), (resolve_n_unfold _ m');
    destruct (He p) as [E|[N D]]; rewrite ?E, ?N;
    destruct (node_at m p) as [[| |t]|] eqn:Ep; intros Hq Hnd;
    try discriminate; try (injection Hq as <-); try congruence;
    try (split; [reflexivity|congruence]); eauto.
Qed.

Lemma is_dir_extends m m' p : extends m m' -> is_dir m p = true -> is_dir m' p = true.
Proof.
  intros He. unfold is_dir, stat, resolve.
  destruct (resolve_n MAXSYMLINKS m p) as [q|] eqn:Hr; [|discriminate].
  destruct (node_at m q) as [nd|] eqn:Hq; [|discriminate].
  destruct (resolve_n_extends _ _ _ _ _ _ He Hr Hq) as [-> ->]. auto.
Qed.

Lemma is_dir_node m p : is_dir m p = true -> node_at m p <> None.
Proof.
  unfold is_dir, stat, resolve. rewrite resolve_n_unfold. intros Hd Hn.
  rewrite Hn in Hd. rewrite Hn in Hd. discriminate.
Qed.

Lemma is_dir_of_node m p : node_at m p = Some Dir -> is_dir m p = true.
Proof.
  intros Hn. unfold is_dir, stat, resolve. rewrite resolve_n_unfold, Hn, Hn.
  reflexivity.
Qed.

Lemma os_mkdir_Ok m p m' :
  os_mkdir m p = Ok m' ->
  node_at m p = None /\ is_dir m (Path.parent p) = true /\ m' = <[p := Dir]> m.
Proof.
  unfold os_mkdir, is_dir. destruct (node_at m p); [discriminate|].
  destruct (stat m (Path.parent p)) as [[| |]|]; try discriminate.
  - intros [= <-]. auto.
  - destruct (under_file m _); discriminate.
Qed.

Lemma os_mkdir_exists m p :
  node_at m p <> None -> os_mkdir m p = Raise (FileExistsError (Path.to_string p)).
Proof. unfold os_mkdir. destruct (node_at m p); [reflexivity|congruence]. Qed.

Lemma mkdir_exist_ok_Ok m p m' :
  mkdir_exist_ok m p = Ok m' -> extends m m' /\ is_dir m' p = true.
Proof.
  unfold mkdir_exist_ok. destruct (os_mkdir m p) as [m1|e] eqn:Hos.
  - intros [= <-]. apply os_mkdir_Ok in Hos as (Hn & _ & ->). split.
    + apply extends_insert_dir, Hn.
    + apply is_dir_of_node. rewrite node_at_insert
        by (eapply node_at_none_not_root; eassumption).
      rewrite decide_True; reflexivity.
  - destruct e; try discriminate;
      (destruct (is_dir m p) eqn:Hd; [|discriminate]);
      intros [= <-]; split; auto using extends_refl.
Qed.

Lemma mkdir_parents_rev_Ok rp m m' :
  mkdir_parents_rev rp m = Ok m' -> extends m m' /\ is_dir m' (rev rp) = true.
Proof.
  revert m'. induction rp as [|a rp IH]; intros m'.
  - intros Hm. simpl in Hm. split; [|reflexivity].
    destruct (os_mkdir m []) as [m1|e] eqn:Hos.
    + apply os_mkdir_Ok in Hos as (Hn & _). discriminate.
    + destruct e; try discriminate; injection Hm as <-; apply extends_refl.
  - intros Hm. cbn [mkdir_parents_rev] in Hm.
    destruct (os_mkdir m (rev (a :: rp))) as [m1|e] eqn:Hos.
    + injection Hm as <-. apply os_mkdir_Ok in Hos as (Hn & _ & ->). split.
      * apply extends_insert_dir, Hn.
      * apply is_dir_of_node. rewrite node_at_insert
          by (eapply node_at_none_not_root; eassumption).
        rewrite decide_True; reflexivity.
    + destruct e;
        try (destruct (is_dir m (rev (a :: rp))) eqn:Hd; [|discriminate];
             injection Hm as <-; split; auto using extends_refl).
      destruct (mkdir_parents_rev rp m) as [m1|e1] eqn:Hrec; [|discriminate].
      destruct (IH _ eq_refl) as [He1 _].
      apply mkdir_exist_ok_Ok in Hm as [He2 Hd]. split; [|exact Hd].
      eapply extends_trans; eassumption.
Qed.

Lemma mkdir_parents_Ok m p m' :
  mkdir_parents m p = Ok m' -> extends m m' /\ is_dir m' p = true.
Proof.
  unfold mkdir_parents. intros Hm. apply mkdir_parents_rev_Ok in Hm.
  rewrite rev_involutive in Hm. exact Hm.
Qed.

(** On an existing directory [mkdir] changes nothing. *)
Lemma mkdir_parents_is_dir m p : is_dir m p = true -> mkdir_parents m p = Ok m.
Proof.
  intros Hd. unfold mkdir_parents.
  rewrite <- (rev_involutive p) in Hd. revert Hd.
  generalize (rev p) as rp. intros rp Hd.
  pose proof (os_mkdir_exists _ _ (is_dir_node _ _ Hd)) as Hos.
  destruct rp; cbn [mkdir_parents_rev]; rewrite Hos, Hd; reflexivity.
Qed.

(** [mkdir] leaves every file and link as it is. *)
Lemma extends_lookup_file m m' p c :
  extends m m' -> (node_at m' p = Some (File c) <-> node_at m p = Some (File c)).
Proof.
  intros He. destruct (He p) as [E|[N D]].
  - rewrite E. reflexivity.
  - rewrite N, D. split; discriminate.
Qed.

(** Whatever [os.mkdir] preserves, [Path.mkdir] preserves. *)
Lemma mkdir_parents_rev_preserves (P : gmap path node -> Prop) :
  (forall m p m', P m -> os_mkdir m p = Ok m' -> P m') ->
  forall rp m m', P m -> mkdir_parents_rev rp m = Ok m' -> P m'.
Proof.
  intros Hstep.
  assert (Hone : forall m p m', P m -> mkdir_exist_ok m p = Ok m' -> P m').
  { intros m p m' HP. unfold mkdir_exist_ok.
    destruct (os_mkdir m p) as [m1|e] eqn:Hos.
    - intros [= <-]. eauto.
    - destruct e; try discriminate;
        (destruct (is_dir m p); [|discriminate]); intros [= <-]; exact HP. }
  induction rp as [|a rp IH]; intros m m' HP Hm.
  - cbn [mkdir_parents_rev] in Hm.
    destruct (os_mkdir m (rev [])) as [m1|e] eqn:Hos.
    + injection Hm as <-. eauto.
    + destruct e; try discriminate;
        (destruct (is_dir m (rev [])); [|discriminate]); injection Hm as <-; exact HP.
  - cbn [mkdir_parents_rev] in Hm.
    destruct (os_mkdir m (rev (a :: rp))) as [m1|e] eqn:Hos.
    + injection Hm as <-. eauto.
    + destruct e;
        try (destruct (is_dir m (rev (a :: rp))); [|discriminate];
             injection Hm as <-; exact HP).
      destruct (mkdir_parents_rev rp m) as [m1|e1] eqn:Hrec; [|discriminate].
      eapply Hone; [|exact Hm]. eapply IH; [exact HP|exact Hrec].
Qed.

Lemma wf_tree m : wf m = true -> tree m.
Proof.
  unfold wf. rewrite List.forallb_forall. intros Hall k Hk.
  destruct k as [|a k]; [reflexivity|].
  apply Hall. apply List.in_map_iff.
  destruct (node_at m (a :: k)) as [nd|] eqn:E; [|congruence].
  exists (a :: k, nd). split; [reflexivity|].
  apply list_elem_of_In, elem_of_map_to_list. exact E.
Qed.

Lemma os_mkdir_tree m p m' : tree m -> os_mkdir m p = Ok m' -> tree m'.
Proof.
  intros Ht Hos. apply os_mkdir_Ok in Hos as (Hn & Hd & ->).
  pose proof (extends_insert_dir _ _ Hn) as He.
  intros k Hk. rewrite node_at_insert in Hk
    by (eapply node_at_none_not_root; eassumption).
  eapply is_dir_extends; [exact He|].
  destruct (decide (k = p)) as [->|]; [exact Hd | apply Ht, Hk].
Qed.

Lemma mkdir_parents_tree m p m' : tree m -> mkdir_parents m p = Ok m' -> tree m'.
Proof.
  unfold mkdir_parents. intros Ht.
  apply (mkdir_parents_rev_preserves tree os_mkdir_tree); exact Ht.
Qed.

(** In a tree the ancestors of a directory are directories. *)
Lemma tree_prefix_dirs m p :
  tree m -> is_dir m p = true -> forall q, q `prefix_of` p -> is_dir m q = true.
Proof.
  intros Ht. induction p as [|a p IH] using rev_ind; intros Hd q Hq.
  - apply prefix_nil_inv in Hq as ->. reflexivity.
  - destruct Hq as [k Hk]. destruct k as [|b k _] using rev_ind.
    + rewrite app_nil_r in Hk. subst q. exact Hd.
    + rewrite app_assoc in Hk. apply app_inj_tail in Hk as [-> _].
      apply IH; [|eexists; reflexivity].
      pose proof (Ht _ (is_dir_node _ _ Hd)) as Hp. unfold Path.parent in Hp.
      rewrite removelast_last in Hp. exact Hp.
Qed.

(** *** Two file systems that differ in the content of one file *)

Lemma agree_off_same_kinds r m m2 : agree_off r m m2 -> same_kinds m m2.
Proof.
  intros Ha x. unfold kind_at. destruct (Ha x) as [->|(_ & c & c2 & -> & ->)]; reflexivity.
Qed.

Lemma agree_off_insert r m m2 q n :
  q <> [] -> agree_off r m m2 -> agree_off r (<[q := n]> m) (<[q := n]> m2).
Proof.
  intros Hq Ha x. rewrite !node_at_insert by exact Hq.
  destruct (decide (x = q)); [left; reflexivity | apply Ha].
Qed.

Lemma node_at_same_none m m2 p :
  same_kinds m m2 -> (node_at m p = None <-> node_at m2 p = None).
Proof.
  intros Hk. specialize (Hk p). unfold kind_at in Hk.
  destruct (node_at m p) as [[| |]|], (node_at m2 p) as [[| |]|];
    simpl in Hk; try discriminate; split; congruence.
Qed.

Lemma is_dir_same_kinds m m2 p : same_kinds m m2 -> is_dir m p = is_dir m2 p.
Proof. intros Hk. apply is_dir_compat, same_kinds_compat, Hk. Qed.

Lemma under_file_same_kinds m m2 rp :
  same_kinds m m2 -> under_file m rp = under_file m2 rp.
Proof.
  intros Hk. induction rp as [|a rp IH]; [reflexivity|].
  cbn [under_file]. pose proof (stat_same_kinds m m2 (rev (a :: rp)) Hk) as Hs.
  destruct (stat m (rev (a :: rp))) as [[| |]|], (stat m2 (rev (a :: rp))) as [[| |]|];
    simpl in Hs; try discriminate; auto.
Qed.

Lemma os_mkdir_agree r m m2 p :
  agree_off r m m2 -> mkdir_related r (os_mkdir m p) (os_mkdir m2 p).
Proof.
  intros Ha. pose proof (agree_off_same_kinds _ _ _ Ha) as Hk.
  unfold os_mkdir.
  pose proof (node_at_same_none _ _ p Hk) as Hn.
  pose proof (stat_same_kinds _ _ (Path.parent p) Hk) as Hs.
  destruct (node_at m p) as [nd|] eqn:E1, (node_at m2 p) as [nd2|] eqn:E2;
    try (exfalso; destruct Hn as [Hn1 Hn2]; (discriminate (Hn1 eq_refl) || discriminate (Hn2 eq_refl)));
    [reflexivity|].
  destruct (stat m (Path.parent p)) as [[| |]|], (stat m2 (Path.parent p)) as [[| |]|];
    simpl in Hs; try discriminate; try reflexivity.
  - simpl. apply agree_off_insert; [|exact Ha].
    eapply node_at_none_not_root; eassumption.
  - rewrite <- (under_file_same_kinds m m2 _ Hk).
    destruct (under_file m _); reflexivity.
Qed.

Lemma mkdir_exist_ok_agree r m m2 p :
  agree_off r m m2 -> mkdir_related r (mkdir_exist_ok m p) (mkdir_exist_ok m2 p).
Proof.
  intros Ha. pose proof (os_mkdir_agree r m m2 p Ha) as Hos.
  unfold mkdir_exist_ok.
  rewrite <- (is_dir_same_kinds m m2 p (agree_off_same_kinds _ _ _ Ha)).
  destruct (os_mkdir m p) as [a|e], (os_mkdir m2 p) as [b|e2];
    simpl in Hos; try contradiction; [exact Hos|].
  subst e2. destruct e; try reflexivity; destruct (is_dir m p); simpl; auto.
Qed.

Lemma mkdir_parents_rev_agree r rp m m2 :
  agree_off r m m2 -> mkdir_related r (mkdir_parents_rev rp m) (mkdir_parents_rev rp m2).
Proof.
  intros Ha. pose proof (agree_off_same_kinds _ _ _ Ha) as Hk.
  induction rp as [|a rp IH]; cbn [mkdir_parents_rev].
  - pose proof (os_mkdir_agree r m m2 (rev []) Ha) as Hos.
    rewrite <- (is_dir_same_kinds m m2 (rev []) Hk).
    destruct (os_mkdir m (rev [])) as [x|e], (os_mkdir m2 (rev [])) as [y|e2];
      simpl in Hos; try contradiction; [exact Hos|].
    subst e2. destruct e; try reflexivity; destruct (is_dir m (rev [])); simpl; auto.
  - pose proof (os_mkdir_agree r m m2 (rev (a :: rp)) Ha) as Hos.
    rewrite <- (is_dir_same_kinds m m2 (rev (a :: rp)) Hk).
    destruct (os_mkdir m (rev (a :: rp))) as [x|e],
             (os_mkdir m2 (rev (a :: rp))) as [y|e2];
      simpl in Hos; try contradiction; [exact Hos|].
    subst e2.
    destruct e; try reflexivity;
      try (destruct (is_dir m (rev (a :: rp))); simpl; auto; fail).
    destruct (mkdir_parents_rev rp m) as [x|e], (mkdir_parents_rev rp m2) as [y|e2];
      simpl in IH; try contradiction.
    + apply mkdir_exist_ok_agree, IH.
    + exact IH.
Qed.

Lemma mkdir_parents_agree r m m2 p :
  agree_off r m m2 -> mkdir_related r (mkdir_parents m p) (mkdir_parents m2 p).
Proof. apply mkdir_parents_rev_agree. Qed.

Lemma extends_node m m' p nd :
  extends m m' -> node_at m p = Some nd -> node_at m' p = Some nd.
Proof. intros He Hn. destruct (He p) as [E|[N _]]; congruence. Qed.

Lemma stat_extends m m' p q nd :
  extends m m' -> resolve m p = Some q -> node_at m q = Some nd ->
  stat m' p = Some nd.
Proof.
  intros He Hr Hn. unfold stat, resolve in *.
  destruct (resolve_n_extends _ _ _ _ _ _ He Hr Hn) as [-> ->]. reflexivity.
Qed.

(** A regular file seen after [mkdir] was there before. *)
Lemma resolve_n_extends_back n m m' p q c :
  extends m m' -> resolve_n n m' p = Some q -> node_at m' q = Some (File c) ->
  resolve_n n m p = Some q /\ node_at m q = Some (File c).
Proof.
  intros He. revert p. induction n as [|n IH]; intros p;
    rewrite (resolve_n_unfold _ m), (resolve_n_unfold _ m');
    destruct (He p) as [E|[N D]]; rewrite ?E, ?N, ?D;
    destruct (node_at m p) as [[| |t]|] eqn:Ep; intros Hq Hnd;
    try discriminate; try (injection Hq as <-); try congruence;
    try (split; [reflexivity|congruence]); eauto.
Qed.

Lemma stat_extends_file_back m m' p c :
  extends m m' -> stat m' p = Some (File c) -> stat m p = Some (File c).
Proof.
  intros He. unfold stat, resolve.
  destruct (resolve_n MAXSYMLINKS m' p) as [q|] eqn:Hr; [|discriminate].
  intros Hn. destruct (resolve_n_extends_back _ _ _ _ _ _ He Hr Hn) as [-> ->].
  reflexivity.
Qed.

(** *** What a call leaves as it was *)

Lemma same_kinds_refl m : same_kinds m m.
Proof. intros p. reflexivity. Qed.

Lemma same_kinds_sym m m' : same_kinds m m' -> same_kinds m' m.
Proof. intros Hk p. symmetry. apply Hk. Qed.

Lemma same_kinds_trans m1 m2 m3 :
  same_kinds m1 m2 -> same_kinds m2 m3 -> same_kinds m1 m3.
Proof. intros H12 H23 p. rewrite H12. apply H23. Qed.

(** Writing over a regular file changes no kind. *)
Lemma same_kinds_insert_file m q c c' :
  q <> [] -> node_at m q = Some (File c) -> same_kinds m (<[q := File c']> m).
Proof.
  intros Hq Hn p. unfold kind_at. rewrite node_at_insert by exact Hq.
  destruct (decide (p = q)) as [->|]; [rewrite Hn|]; reflexivity.
Qed.

(** More fuel follows the same links to the same end. *)
Lemma resolve_n_mono n m p q :
  resolve_n n m p = Some q -> forall k, (n <= k)%nat -> resolve_n k m p = Some q.
Proof.
  revert p. induction n as [|n IH]; intros p Hr k Hk;
    rewrite resolve_n_unfold in Hr; rewrite resolve_n_unfold;
    destruct (node_at m p) as [[| |t]|]; try exact Hr; try discriminate.
  destruct k as [|k]; [lia|]. apply IH; [exact Hr|lia].
Qed.

Lemma exists_of_resolve n m p q nd :
  (n <= MAXSYMLINKS)%nat -> resolve_n n m p = Some q -> node_at m q = Some nd ->
  exists_ m p = true.
Proof.
  intros Hn Hr Hq. unfold exists_, stat, resolve.
  rewrite (resolve_n_mono _ _ _ _ Hr _ Hn), Hq. reflexivity.
Qed.

Lemma exists_node m p : exists_ m p = true -> node_at m p <> None.
Proof.
  unfold exists_, stat, resolve. rewrite resolve_n_unfold. intros He Hn.
  rewrite Hn in He. rewrite Hn in He. discriminate.
Qed.

Lemma exists_of_file m p c : node_at m p = Some (File c) -> exists_ m p = true.
Proof.
  intros Hn. unfold exists_, stat, resolve. rewrite resolve_n_unfold, Hn, Hn.
  reflexivity.
Qed.

Lemma not_exists_of_none m p : node_at m p = None -> exists_ m p = false.
Proof.
  intros Hn. unfold exists_, stat, resolve. rewrite resolve_n_unfold, Hn, Hn.
  reflexivity.
Qed.

Lemma keeps_resolve m m' :
  keeps m m' ->
  forall n p q nd,
  (n <= MAXSYMLINKS)%nat -> resolve_n n m p = Some q -> node_at m q = Some nd ->
  resolve_n n m' p = Some q /\ node_at m' q = Some nd.
Proof.
  intros Hk. induction n as [|n IH]; intros p q nd Hn Hr Hq;
    pose proof (Hk p (exists_of_resolve _ _ _ _ _ Hn Hr Hq)) as Hp;
    rewrite resolve_n_unfold in Hr; rewrite resolve_n_unfold, Hp;
    destruct (node_at m p) as [[| |t]|] eqn:Ep;
    try discriminate;
    try (injection Hr as <-; split; [reflexivity|congruence]).
  apply IH; [lia|exact Hr|exact Hq].
Qed.

Lemma keeps_stat m m' x :
  keeps m m' -> exists_ m x = true -> stat m' x = stat m x.
Proof.
  intros Hk He. unfold exists_, stat, resolve in *.
  destruct (resolve_n MAXSYMLINKS m x) as [q|] eqn:Hr; [|discriminate].
  destruct (node_at m q) as [nd|] eqn:Hq; [|discriminate].
  destruct (keeps_resolve _ _ Hk _ _ _ _ (le_n _) Hr Hq) as [-> ->]. reflexivity.
Qed.

Lemma keeps_is_dir m m' x : keeps m m' -> is_dir m x = true -> is_dir m' x = true.
Proof.
  intros Hk Hd. unfold is_dir. rewrite (keeps_stat _ _ _ Hk); [exact Hd|].
  unfold is_dir in Hd. unfold exists_. destruct (stat m x); [reflexivity|discriminate].
Qed.

Lemma keeps_refl m : keeps m m.
Proof. intros x _. reflexivity. Qed.

Lemma keeps_trans m1 m2 m3 : keeps m1 m2 -> keeps m2 m3 -> keeps m1 m3.
Proof.
  intros H12 H23 x He. rewrite <- (H12 x He). apply H23.
  unfold exists_. rewrite (keeps_stat _ _ _ H12 He). exact He.
Qed.

(** A file saved where [exists()] saw nothing. *)
Lemma keeps_insert m q n :
  q <> [] -> exists_ m q = false -> keeps m (<[q := n]> m).
Proof.
  intros Hq Hfree x He. rewrite node_at_insert by exact Hq.
  destruct (decide (x = q)) as [->|]; [congruence|reflexivity].
Qed.

Lemma extends_keeps m m' : extends m m' -> keeps m m'.
Proof.
  intros Hext x He. apply exists_node in He.
  destruct (Hext x) as [E|[N _]]; congruence.
Qed.

End FSFacts.

(** * Facts about [int / int] and [math.ceil] *)

Module PyNumFacts.
Import PyNum.

Lemma round_half_even_bounds n d :
  0 < d -> n / d <= round_half_even n d <= n / d + 1.
Proof.
  intros Hd. unfold round_half_even.
  destruct (2 * (n mod d) <? d); [lia|].
  destruct (d <? 2 * (n mod d)); [lia|].
  destruct (Z.even (n / d)); lia.
Qed.

Lemma round_half_even_exact n d :
  0 < d -> n mod d = 0 -> round_half_even n d = n / d.
Proof.
  intros Hd Hr. unfold round_half_even. rewrite Hr.
  destruct (Z.ltb_spec (2 * 0) d); [reflexivity|lia].
Qed.

(** [quotient_log2 a b] is at most the binary logarithm of [a / b]. *)
Lemma quotient_log2_lower a b :
  0 < a -> 0 < b ->
  b * 2 ^ Z.max 0 (quotient_log2 a b) <= a * 2 ^ Z.max 0 (- quotient_log2 a b).
Proof.
  intros Ha Hb. unfold quotient_log2.
  destruct (Z.log2_spec a Ha) as [Ha1 Ha2].
  destruct (Z.log2_spec b Hb) as [Hb1 Hb2].
  pose proof (Z.log2_nonneg a) as Hla. pose proof (Z.log2_nonneg b) as Hlb.
  set (la := Z.log2 a) in *. set (lb := Z.log2 b) in *.
  destruct (Z.leb_spec (b * 2 ^ Z.max 0 (la - lb)) (a * 2 ^ Z.max 0 (- (la - lb))))
    as [Hle|Hgt]; [exact Hle|].
  destruct (Z_le_gt_dec 1 (la - lb)) as [Hd|Hd].
  - replace (Z.max 0 (la - lb - 1)) with (la - lb - 1) by lia.
    replace (Z.max 0 (- (la - lb - 1))) with 0 by lia.
    rewrite Z.pow_0_r, Z.mul_1_r.
    assert (Hp : 2 ^ la = 2 ^ Z.succ lb * 2 ^ (la - lb - 1)).
    { rewrite <- Z.pow_add_r by lia. f_equal. lia. }
    assert (0 < 2 ^ (la - lb - 1)) by (apply Z.pow_pos_nonneg; lia).
    nia.
  - replace (Z.max 0 (la - lb - 1)) with 0 by lia.
    replace (Z.max 0 (- (la - lb - 1))) with (1 - (la - lb)) by lia.
    rewrite Z.pow_0_r, Z.mul_1_r.
    assert (Hp : 2 ^ la * 2 ^ (1 - (la - lb)) = 2 ^ Z.succ lb).
    { rewrite <- Z.pow_add_r by lia. f_equal. lia. }
    assert (0 < 2 ^ (1 - (la - lb))) by (apply Z.pow_pos_nonneg; lia).
    nia.
Qed.

(** The ceiling of a quotient rounded on a grid of step [1 / P] is the
    exact ceiling as soon as [P] is at least the divisor. *)
Lemma ceil_of_rounded a b P :
  0 <= a -> 0 < b -> b <= P ->
  - ((- round_half_even (a * P) b) / P) = (a + b - 1) / b.
Proof.
  intros Ha Hb HP.
  pose proof (Z.div_mod a b ltac:(lia)) as Hab.
  pose proof (Z.mod_pos_bound a b Hb) as Hr.
  set (k := a / b) in *. set (r := a mod b) in *.
  assert (Hceil : (a + b - 1) / b = if r =? 0 then k else k + 1).
  { destruct (Z.eqb_spec r 0) as [Hr0|Hr0].
    - symmetry. apply (Z.div_unique_pos _ _ _ (b - 1)); lia.
    - symmetry. apply (Z.div_unique_pos _ _ _ (r - 1)); lia. }
  rewrite Hceil.
  pose proof (round_half_even_bounds (a * P) b Hb) as HM.
  destruct (Z.eqb_spec r 0) as [Hr0|Hr0].
  - assert (HaP : a * P = b * (k * P)) by nia.
    rewrite round_half_even_exact; [|exact Hb|].
    + rewrite HaP, Z.mul_comm, Z.div_mul by lia.
      replace (- (k * P)) with ((- k) * P) by lia. rewrite Z.div_mul by lia. lia.
    + rewrite HaP, Z.mul_comm. apply Z.mod_mul. lia.
  - set (M := round_half_even (a * P) b) in *.
    assert (Hq1 : k * P + 1 <= a * P / b).
    { apply Z.div_le_lower_bound; [lia|]. nia. }
    assert (Hq2 : a * P / b <= (k + 1) * P - 1).
    { assert (a * P / b < (k + 1) * P); [|lia].
      apply Z.div_lt_upper_bound; [lia|]. nia. }
    assert (HM' : k * P + 1 <= M <= (k + 1) * P) by lia.
    assert (Hdiv : (- M) / P = - (k + 1)).
    { symmetry. apply (Z.div_unique_pos _ _ _ ((k + 1) * P - M)); lia. }
    rewrite Hdiv. lia.
Qed.

(** In the range of page counts, and far beyond, [math.ceil(a / b)] is
    the exact ceiling. *)
Theorem ceil_div_exact a b :
  0 <= a <= 2 ^ 52 -> 0 < b <= 2 ^ 1074 ->
  ceil_div a b = Ok ((a + b - 1) / b).
Proof.
  intros Ha Hb. unfold ceil_div, true_div.
  destruct (Z.eqb_spec b 0) as [|_]; [lia|].
  destruct (Z.eqb_spec a 0) as [->|Ha0].
  - cbn. f_equal. symmetry. apply Z.div_small. lia.
  - rewrite (Z.abs_eq a), (Z.abs_eq b) by lia.
    rewrite (Z.sgn_pos a), (Z.sgn_pos b) by lia.
    pose proof (quotient_log2_lower a b ltac:(lia) ltac:(lia)) as HL.
    unfold round_quotient.
    set (L := quotient_log2 a b) in *.
    assert (HL52 : L <= 52).
    { destruct (Z_le_gt_dec L 52) as [|Hgt]; [assumption|exfalso].
      replace (Z.max 0 L) with L in HL by lia.
      replace (Z.max 0 (- L)) with 0 in HL by lia.
      rewrite Z.pow_0_r in HL.
      assert (2 ^ 53 <= 2 ^ L) by (apply Z.pow_le_mono_r; lia).
      assert (2 ^ 53 = 2 * 2 ^ 52) by reflexivity. nia. }
    set (e := Z.max (L - 52) (-1074)).
    assert (He : -1074 <= e <= 0) by lia.
    replace (Z.max 0 e) with 0 by lia.
    replace (Z.max 0 (- e)) with (- e) by lia.
    rewrite Z.pow_0_r, Z.mul_1_r.
    assert (HP : b <= 2 ^ (- e)).
    { destruct (Z_le_gt_dec (L - 52) (-1074)) as [Hlow|Hhigh].
      - replace e with (-1074) by lia. exact (proj2 Hb).
      - replace e with (L - 52) by lia.
        destruct (Z_le_gt_dec 0 L) as [HL0|HL0].
        + replace (Z.max 0 L) with L in HL by lia.
          replace (Z.max 0 (- L)) with 0 in HL by lia.
          rewrite Z.pow_0_r in HL.
          assert (Hp : 2 ^ 52 = 2 ^ L * 2 ^ (- (L - 52))).
          { rewrite <- Z.pow_add_r by lia. f_equal. lia. }
          assert (0 < 2 ^ L) by (apply Z.pow_pos_nonneg; lia).
          nia.
        + replace (Z.max 0 L) with 0 in HL by lia.
          replace (Z.max 0 (- L)) with (- L) in HL by lia.
          rewrite Z.pow_0_r in HL.
          assert (Hp : 2 ^ (- (L - 52)) = 2 ^ 52 * 2 ^ (- L)).
          { rewrite <- Z.pow_add_r by lia. f_equal. lia. }
          assert (0 < 2 ^ (- L)) by (apply Z.pow_pos_nonneg; lia).
          nia. }
    pose proof (round_half_even_bounds (a * 2 ^ (- e)) b ltac:(lia)) as HM.
    pose proof (ceil_of_rounded a b (2 ^ (- e)) ltac:(lia) ltac:(lia) HP) as Hceil.
    set (M := round_half_even (a * 2 ^ (- e)) b) in *.
    assert (Hov : overflows (Float M e) = false).
    { unfold overflows. cbn [expo mant].
      destruct (Z.ltb_spec e 0) as [|He0]; [reflexivity|].
      assert (e = 0) as -> by lia.
      rewrite Z.pow_0_r, Z.mul_1_r in *.
      apply Z.leb_gt.
      assert (a / b <= a) by (apply Z.div_le_upper_bound; nia).
      assert (2 ^ 53 <= 2 ^ 1024) by (apply Z.pow_le_mono_r; lia).
      assert (2 ^ 53 = 2 * 2 ^ 52) by reflexivity. lia. }
    rewrite Hov. unfold ceil. cbn [expo mant].
    replace (1 * 1 * M) with M by lia.
    destruct (Z.ltb_spec e 0) as [|He0]; [rewrite Hceil; reflexivity|].
    assert (e = 0) as -> by lia. rewrite Z.pow_0_r in *.
    rewrite Z.div_1_r in Hceil. f_equal. lia.
Qed.

End PyNumFacts.

(** * Facts about [split_pdf] *)

Section SplitterFacts.
Context `{Env}.
Import FS Kinds FSFacts.

Lemma split_pdf_prepare input output_dir opts w :
  split_pdf input output_dir opts w =
  match prepare input output_dir opts w with
  | (w0, Ok (src, parts)) =>
      for_chunks (chunk_body input output_dir opts src) (range parts) [] w0
  | (w0, Raise e) => (w0, Raise e)
  end.
Proof.
  unfold split_pdf, prepare, chunk_body, bind, raise, lift, ret.
  destruct (mkdir _ w) as [w1 [[]|e]]; [|reflexivity].
  destruct (max_pages opts <=? 0); [reflexivity|].
  destruct (fitz_open _ w1) as [w2 [src|e]]; [|reflexivity].
  destruct (check_password src (password opts) w2) as [w3 [[]|e]]; [|reflexivity].
  destruct (PyNum.ceil_div _ _); reflexivity.
Qed.

(** One turn of the loop. *)
Lemma write_chunk_step input output_dir opts src idx w :
  chunk_body input output_dir opts src idx w =
  match chunk_path input output_dir opts (page_count src) idx with
  | Raise e => (w, Raise e)
  | Ok p =>
      if (exists_ (fs w) p && negb (overwrite opts))%bool then
        (w, Raise (FileExistsError ("Output exists: " +:+ Path.to_string p
                                    +:+ ". Use overwrite=True to replace.")))
      else
        match write_target (fs w) p with
        | Some q =>
            (World (<[q := File (Pdf (chunk_doc opts src idx))]> (fs w))
                   (calls w ++ [EvSave p (chunk_doc opts src idx)]), Ok p)
        | None => (w, Raise (FitzError CannotSave p))
        end
  end.
Proof.
  unfold chunk_body, write_chunk, chunk_path, chunk_doc, bind, lift, raise, ret,
    path_exists, save.
  destruct (str_format _ _ _ _ _ _); [|reflexivity]. cbn [fs].
  destruct (exists_ (fs w) _ && negb (overwrite opts))%bool; [reflexivity|].
  destruct (write_target (fs w) _); reflexivity.
Qed.

Lemma for_chunks_app body l1 l2 outs w :
  for_chunks body (l1 ++ l2) outs w =
  match for_chunks body l1 outs w with
  | (w1, Ok outs1) => for_chunks body l2 outs1 w1
  | (w1, Raise e) => (w1, Raise e)
  end.
Proof.
  revert outs w. induction l1 as [|i l1 IH]; intros outs w; [reflexivity|].
  cbn [for_chunks app]. unfold bind.
  destruct (body i w) as [w1 [p|e]]; [apply IH | reflexivity].
Qed.

Lemma map_of_nat_seq (s n : nat) :
  List.map Z.of_nat (List.seq s n)
  = List.map (fun j => Z.of_nat s + j) (List.map Z.of_nat (List.seq 0 n)).
Proof.
  revert s. induction n as [|n IH]; intros s; [reflexivity|].
  cbn [List.seq List.map]. f_equal; [lia|].
  rewrite (IH (S s)), (IH 1%nat), !List.map_map.
  apply List.map_ext. intros a. lia.
Qed.

Lemma range_split (parts k : Z) :
  0 <= k < parts ->
  range parts = (range k ++ k :: List.map (fun j => k + 1 + j) (range (parts - k - 1)))%list.
Proof.
  intros Hk. unfold range.
  replace (Z.to_nat parts) with (Z.to_nat k + S (Z.to_nat (parts - k - 1)))%nat by lia.
  rewrite List.seq_app, List.map_app. f_equal. cbn [List.seq List.map].
  f_equal; [lia|]. rewrite map_of_nat_seq. apply List.map_ext. intros a. lia.
Qed.

(** [prepare] once the directory is there, the argument is valid and
    the source opens. *)
Lemma prepare_opened input output_dir opts w m0 src :
  mkdir_parents (fs w) (output_dir_of (mkPath cwd input) output_dir) = Ok m0 ->
  0 < max_pages opts ->
  stat m0 (mkPath cwd input) = Some (File (Pdf src)) ->
  prepare input output_dir opts w =
  match check_password src (password opts) (World m0 (calls w)) with
  | (w1, Ok _) =>
      match PyNum.ceil_div (page_count src) (max_pages opts) with
      | Ok parts => (w1, Ok (src, parts))
      | Raise e => (w1, Raise e)
      end
  | (w1, Raise e) => (w1, Raise e)
  end.
Proof.
  intros Hmk Hpos Hst. unfold prepare, bind, mkdir, fitz_open, lift, ret.
  rewrite Hmk. destruct (Z.leb_spec (max_pages opts) 0) as [|_]; [lia|].
  cbn [fs]. rewrite Hst.
  destruct (check_password src (password opts) _) as [w1 [[]|e]]; [|reflexivity].
  destruct (PyNum.ceil_div _ _); reflexivity.
Qed.

Lemma prepare_nonpositive input output_dir opts w m0 :
  max_pages opts <= 0 ->
  mkdir_parents (fs w) (output_dir_of (mkPath cwd input) output_dir) = Ok m0 ->
  prepare input output_dir opts w
  = (World m0 (calls w), Raise (ValueError "max_pages must be > 0")).
Proof.
  intros Hle Hmk. unfold prepare, bind, mkdir, raise. rewrite Hmk.
  destruct (Z.leb_spec (max_pages opts) 0) as [_|]; [reflexivity|lia].
Qed.

(** The loop on two file systems that differ in the content of one
    file, for two option records that differ in the password and two
    sources with the same pages and metadata. *)
Lemma for_chunks_agree r input output_dir mp pat pw1 pw2 keep ow pages md e1 e2 :
  forall idxs outs w w2,
  agree_off r (fs w) (fs w2) ->
  saves (calls w) = saves (calls w2) ->
  let run1 := for_chunks (chunk_body input output_dir (Options mp pat pw1 keep ow)
                            (Document pages md e1)) idxs outs w in
  let run2 := for_chunks (chunk_body input output_dir (Options mp pat pw2 keep ow)
                            (Document pages md e2)) idxs outs w2 in
  snd run1 = snd run2
  /\ agree_off r (fs (fst run1)) (fs (fst run2))
  /\ saves (calls (fst run1)) = saves (calls (fst run2)).
Proof.
  induction idxs as [|idx idxs IH]; intros outs w w2 Ha Hs; [simpl; auto|].
  cbn zeta. cbn [for_chunks]. unfold bind. rewrite !write_chunk_step.
  change (chunk_path input output_dir (Options mp pat pw2 keep ow)
            (page_count (Document pages md e2)) idx)
    with (chunk_path input output_dir (Options mp pat pw1 keep ow)
            (page_count (Document pages md e1)) idx).
  change (chunk_doc (Options mp pat pw2 keep ow) (Document pages md e2) idx)
    with (chunk_doc (Options mp pat pw1 keep ow) (Document pages md e1) idx).
  destruct (chunk_path _ _ _ _ idx) as [p|e]; [|simpl; auto].
  pose proof (agree_off_same_kinds _ _ _ Ha) as Hk.
  rewrite <- (exists_same_kinds _ _ p Hk).
  rewrite <- (write_target_same_kinds _ _ p Hk).
  cbn [overwrite].
  destruct (exists_ (fs w) p && negb ow)%bool; [simpl; auto|].
  destruct (write_target (fs w) p) as [q|] eqn:Hq; [|simpl; auto].
  apply IH; cbn [fs calls].
  - apply agree_off_insert; [|exact Ha].
    apply write_target_Some in Hq as (-> & Hne & _). exact Hne.
  - unfold saves in *. rewrite !List.flat_map_app, Hs. reflexivity.
Qed.

(** *** Runs of the loop *)

(** What a plan says of each chunk: its path, which is where the file
    lands, and its document. *)
Lemma plan_steps input output_dir opts src idxs :
  forall m steps,
  plan input output_dir opts src m idxs = Some steps ->
  Forall2 (fun idx s =>
             chunk_path input output_dir opts (page_count src) idx = Ok (step_path s)
             /\ fst (step_write s) = step_path s
             /\ step_path s <> []
             /\ snd s = chunk_doc opts src idx) idxs steps.
Proof.
  induction idxs as [|idx idxs IH]; intros m steps; cbn [plan].
  - intros [= <-]. constructor.
  - unfold chunk_plan.
    destruct (chunk_path _ _ _ _ idx) as [p|e] eqn:Hp; [|discriminate].
    destruct (write_target m p) as [q|] eqn:Hq; [|discriminate].
    destruct (plan _ _ _ _ _ idxs) as [l|] eqn:Hl; [|discriminate].
    intros [= <-]. apply write_target_Some in Hq as (-> & Hne & _).
    constructor; [|eapply IH; exact Hl]. cbn. auto.
Qed.

Lemma plan_nonroot input output_dir opts src m idxs steps :
  plan input output_dir opts src m idxs = Some steps ->
  Forall (fun qd => fst qd <> []) (List.map step_write steps).
Proof.
  intros Hplan. apply plan_steps in Hplan.
  induction Hplan as [|idx s idxs steps (_ & Hq & Hne & _) _ IH]; [constructor|].
  cbn [List.map]. constructor; [|exact IH]. rewrite Hq. exact Hne.
Qed.

(** Any run of the loop, whether it returns or raises: it has written
    the first [k] chunks of its plan and nothing else; without
    [overwrite] it has left alone whatever [exists()] saw. *)
Lemma for_chunks_run input output_dir opts src idxs :
  forall outs w,
  let run := for_chunks (chunk_body input output_dir opts src) idxs outs w in
  exists k steps,
    (k <= length idxs)%nat
    /\ plan input output_dir opts src (fs w) (List.firstn k idxs) = Some steps
    /\ fs (fst run) = apply_writes (List.map step_write steps) (fs w)
    /\ calls (fst run) = calls w ++ List.map step_event steps
    /\ (overwrite opts = false -> keeps (fs w) (fs (fst run)))
    /\ match snd run with
       | Ok outs' => k = length idxs /\ outs' = outs ++ List.map step_path steps
       | Raise _ => (k < length idxs)%nat
       end.
Proof.
  induction idxs as [|idx idxs IH]; intros outs w run.
  - exists 0%nat, []. subst run. cbn. rewrite !app_nil_r.
    repeat split; auto using keeps_refl.
  - assert (Hstop : forall e, run = (w, Raise e) ->
              exists k steps,
                (k <= length (idx :: idxs))%nat
                /\ plan input output_dir opts src (fs w) (List.firstn k (idx :: idxs))
                   = Some steps
                /\ fs (fst run) = apply_writes (List.map step_write steps) (fs w)
                /\ calls (fst run) = calls w ++ List.map step_event steps
                /\ (overwrite opts = false -> keeps (fs w) (fs (fst run)))
                /\ match snd run with
                   | Ok outs' => k = length (idx :: idxs)
                                 /\ outs' = outs ++ List.map step_path steps
                   | Raise _ => (k < length (idx :: idxs))%nat
                   end).
    { intros e ->. exists 0%nat, []. cbn. rewrite app_nil_r.
      repeat split; auto using keeps_refl; lia. }
    subst run. cbn [for_chunks]. unfold bind. rewrite write_chunk_step.
    cbn [for_chunks] in Hstop. unfold bind in Hstop. rewrite write_chunk_step in Hstop.
    destruct (chunk_path _ _ _ _ idx) as [p|e] eqn:Hp; [|eapply Hstop; reflexivity].
    destruct (exists_ (fs w) p && negb (overwrite opts))%bool eqn:Hex;
      [eapply Hstop; reflexivity|].
    destruct (write_target (fs w) p) as [q|] eqn:Hq; [|eapply Hstop; reflexivity].
    clear Hstop.
    pose proof (write_target_Some _ _ _ Hq) as (Hqp & Hroot & Hdir).
    set (w1 := World (<[q := File (Pdf (chunk_doc opts src idx))]> (fs w))
                     (calls w ++ [EvSave p (chunk_doc opts src idx)])).
    destruct (IH (outs ++ [p]) w1) as (k & steps & Hk & Hplan & Hfs & Hcalls & Hkeep & Hres').
    exists (S k), ((p, q, chunk_doc opts src idx) :: steps).
    split; [cbn; lia|]. split; [|split; [|split; [|split]]].
    + cbn [List.firstn plan]. unfold chunk_plan. rewrite Hp, Hq.
      cbn [fs w1] in Hplan. rewrite Hplan. reflexivity.
    + rewrite Hfs. reflexivity.
    + rewrite Hcalls. cbn. rewrite <- app_assoc. reflexivity.
    + intros Hov. rewrite Hov, andb_true_r in Hex.
      eapply keeps_trans; [|apply Hkeep, Hov]. cbn [fs w1]. subst q.
      apply keeps_insert; assumption.
    + destruct (snd (for_chunks _ idxs (outs ++ [p]) w1)) as [outs'|e].
      * destruct Hres' as [-> ->]. split; [reflexivity|].
        cbn. rewrite <- app_assoc. reflexivity.
      * cbn. lia.
Qed.

(** A run of the loop that returns has written the chunks of its plan. *)
Lemma for_chunks_Ok input output_dir opts src idxs outs w w' outs' :
  for_chunks (chunk_body input output_dir opts src) idxs outs w = (w', Ok outs') ->
  exists steps,
    plan input output_dir opts src (fs w) idxs = Some steps
    /\ outs' = outs ++ List.map step_path steps
    /\ fs w' = apply_writes (List.map step_write steps) (fs w)
    /\ calls w' = calls w ++ List.map step_event steps
    /\ (overwrite opts = false -> keeps (fs w) (fs w')).
Proof.
  intros Hrun.
  destruct (for_chunks_run input output_dir opts src idxs outs w)
    as (k & steps & _ & Hplan & Hfs & Hcalls & Hkeep & Hres).
  cbv zeta in Hfs, Hcalls, Hkeep, Hres. rewrite Hrun in Hfs, Hcalls, Hkeep, Hres.
  cbn [fst snd] in *. destruct Hres as [-> ->].
  rewrite List.firstn_all in Hplan. exists steps. auto.
Qed.

(** Without [overwrite], the directories the chunks were written into
    are still directories when the loop returns. *)
Lemma for_chunks_parents input output_dir opts src idxs :
  overwrite opts = false ->
  forall outs w w' outs' steps,
  for_chunks (chunk_body input output_dir opts src) idxs outs w = (w', Ok outs') ->
  plan input output_dir opts src (fs w) idxs = Some steps ->
  Forall (fun s => is_dir (fs w') (Path.parent (step_path s)) = true) steps.
Proof.
  intros Hov. induction idxs as [|idx idxs IH]; intros outs w w' outs' steps.
  - cbn. intros _ [= <-]. constructor.
  - cbn [for_chunks plan]. unfold bind, chunk_plan. rewrite write_chunk_step.
    destruct (chunk_path _ _ _ _ idx) as [p|e] eqn:Hp; [|discriminate].
    destruct (exists_ (fs w) p && negb (overwrite opts))%bool eqn:Hex; [discriminate|].
    destruct (write_target (fs w) p) as [q|] eqn:Hq; [|discriminate].
    intros Hrun. destruct (plan _ _ _ _ _ idxs) as [l|] eqn:Hl; [|discriminate].
    intros [= <-].
    pose proof (write_target_Some _ _ _ Hq) as (-> & Hroot & Hdir).
    rewrite Hov, andb_true_r in Hex.
    pose proof (for_chunks_Ok _ _ _ _ _ _ _ _ _ Hrun) as (_ & _ & _ & _ & _ & Hkeep).
    cbn [fs] in Hkeep. specialize (Hkeep Hov).
    constructor.
    + cbn [step_path fst]. eapply keeps_is_dir; [exact Hkeep|].
      eapply keeps_is_dir; [apply keeps_insert; eassumption|exact Hdir].
    + eapply IH; [exact Hrun|exact Hl].
Qed.

(** Conversely, the chunks of a plan all get written when nothing is in
    their way: [overwrite] is set, or the places are free and distinct. *)
Lemma for_chunks_plan input output_dir opts src idxs :
  forall outs w steps,
  plan input output_dir opts src (fs w) idxs = Some steps ->
  (overwrite opts = true
   \/ (NoDup (List.map (fun s => fst (step_write s)) steps)
       /\ Forall (fun s => node_at (fs w) (fst (step_write s)) = None) steps)) ->
  for_chunks (chunk_body input output_dir opts src) idxs outs w
  = (World (apply_writes (List.map step_write steps) (fs w))
           (calls w ++ List.map step_event steps),
     Ok (outs ++ List.map step_path steps)).
Proof.
  induction idxs as [|idx idxs IH]; intros outs w steps; cbn [plan].
  - intros [= <-] _. cbn. rewrite !app_nil_r. destruct w; reflexivity.
  - unfold chunk_plan.
    destruct (chunk_path _ _ _ _ idx) as [p|e] eqn:Hp; [|discriminate].
    destruct (write_target (fs w) p) as [q|] eqn:Hq; [|discriminate].
    destruct (plan _ _ _ _ _ idxs) as [l|] eqn:Hl; [|discriminate].
    intros [= <-] Hfresh.
    pose proof (write_target_Some _ _ _ Hq) as (Hqp & Hroot & Hdir). subst q.
    cbn [for_chunks]. unfold bind. rewrite write_chunk_step, Hp, Hq.
    assert (Hex : (exists_ (fs w) p && negb (overwrite opts))%bool = false).
    { destruct Hfresh as [->|[_ Hnone]]; [apply andb_false_r|].
      inversion Hnone as [|? ? Hqn _]; subst. cbn in Hqn.
      rewrite (not_exists_of_none _ _ Hqn). reflexivity. }
    rewrite Hex.
    rewrite (IH _ _ l).
    + cbn. rewrite <- !app_assoc. reflexivity.
    + cbn [fs]. exact Hl.
    + destruct Hfresh as [Hov|[Hnd Hnone]]; [left; exact Hov|right].
      cbn in Hnd. apply NoDup_cons in Hnd as [Hnotin Hnd].
      split; [exact Hnd|].
      inversion Hnone as [|? ? _ Hrest]; subst.
      rewrite List.Forall_forall in Hrest |- *. intros s Hin. cbn [fs].
      rewrite node_at_insert by exact Hroot.
      destruct (decide (fst (step_write s) = p)) as [Heq|]; [|apply Hrest, Hin].
      exfalso. apply Hnotin. rewrite <- Heq.
      apply list_elem_of_In, List.in_map_iff. exists s. auto.
Qed.

Lemma lookup_apply_writes ws :
  forall (m : gmap path node) x,
  apply_writes ws m !! x
  = match last_write x ws with
    | Some d => Some (File (Pdf d))
    | None => m !! x
    end.
Proof.
  induction ws as [|[q d] ws IH]; intros m x; [reflexivity|].
  cbn [apply_writes List.fold_left last_write fst snd].
  fold (apply_writes ws (<[q := File (Pdf d)]> m)). rewrite IH.
  destruct (last_write x ws); [reflexivity|].
  destruct (decide (x = q)) as [->|Hne].
  - apply lookup_insert_eq.
  - apply lookup_insert_ne. congruence.
Qed.

Lemma node_at_apply_writes (ws : list (path * document)) (m : gmap path node)
    (x : path) :
  Forall (fun qd => fst qd <> []) ws ->
  node_at (apply_writes ws m) x
  = match last_write x ws with
    | Some d => Some (File (Pdf d))
    | None => node_at m x
    end.
Proof.
  intros Hall. destruct x as [|a x].
  - cbn [node_at]. destruct (last_write [] ws) as [d|] eqn:Hl; [|reflexivity].
    exfalso. induction ws as [|[q d'] ws IH]; [discriminate|].
    inversion Hall as [|? ? Hq Hrest]; subst. cbn [last_write] in Hl.
    destruct (last_write [] ws); [apply IH; auto|].
    destruct (decide ([] = q)) as [<-|]; [apply Hq; reflexivity|discriminate].
  - cbn [node_at]. apply lookup_apply_writes.
Qed.


Lemma last_write_of_in (x : path) (ws : list (path * document)) (d : document) :
  In (x, d) ws -> exists d', last_write x ws = Some d'.
Proof.
  induction ws as [|[q d0] ws IH]; [intros []|]. cbn [last_write].
  intros [[= -> ->]|Hin].
  - destruct (last_write x ws); [eauto|]. rewrite decide_True by reflexivity. eauto.
  - destruct (IH Hin) as (d' & ->). eauto.
Qed.

(** Writing the same files a second time changes nothing. *)
Lemma apply_writes_replay (ws : list (path * document)) (m : gmap path node) :
  apply_writes ws (apply_writes ws m) = apply_writes ws m.
Proof.
  apply map_eq. intros x. rewrite !lookup_apply_writes.
  destruct (last_write x ws); reflexivity.
Qed.

Lemma saves_step_events steps :
  saves (List.map step_event steps)
  = List.map (fun s => (step_path s, snd s)) steps.
Proof.
  induction steps as [|[[p q] d] steps IH]; [reflexivity|].
  cbn. f_equal. exact IH.
Qed.

Lemma saves_app evs1 evs2 : saves (evs1 ++ evs2) = saves evs1 ++ saves evs2.
Proof. unfold saves. apply List.flat_map_app. Qed.

Lemma check_password_Ok src pw w w' u :
  check_password src pw w = (w', Ok u) ->
  fs w' = fs w
  /\ forall v, exists new,
       saves new = []
       /\ check_password src pw v = (World (fs v) (calls v ++ new), Ok tt).
Proof.
  unfold check_password. destruct (is_encrypted src).
  - destruct pw as [[|c s]|]; try discriminate.
    unfold bind, doc_authenticate, ret, raise.
    destruct (authenticate src (String c s)); [|discriminate].
    intros [= <- _]. split; [reflexivity|]. intros v.
    exists [EvAuthenticate (String c s)]. split; reflexivity.
  - unfold ret. intros [= <- _]. split; [reflexivity|]. intros v.
    exists []. rewrite app_nil_r. destruct v; split; reflexivity.
Qed.

Lemma prepare_Ok input output_dir opts w w0 src parts :
  prepare input output_dir opts w = (w0, Ok (src, parts)) ->
  exists m0,
    mkdir_parents (fs w) (output_dir_of (mkPath cwd input) output_dir) = Ok m0
    /\ 0 < max_pages opts
    /\ stat m0 (mkPath cwd input) = Some (File (Pdf src))
    /\ check_password src (password opts) (World m0 (calls w)) = (w0, Ok tt)
    /\ PyNum.ceil_div (page_count src) (max_pages opts) = Ok parts.
Proof.
  unfold prepare, bind, mkdir, raise, fitz_open, lift, ret.
  destruct (mkdir_parents (fs w) _) as [m0|e]; [|discriminate].
  destruct (Z.leb_spec (max_pages opts) 0) as [|Hpos]; [discriminate|]. cbn [fs].
  destruct (stat m0 _) as [[|[d|]|]|] eqn:Hst; try discriminate.
  destruct (check_password d (password opts) _) as [w1 [[]|e]] eqn:Hcp; [|discriminate].
  destruct (PyNum.ceil_div _ _) as [n|e] eqn:Hceil; [|discriminate].
  intros [= <- <- <-]. exists m0. auto.
Qed.

End SplitterFacts.

(** * The page ranges of the chunks *)

Section PartitionFacts.
Context `{Env}.
Import FS Kinds FSFacts.

Lemma firstn_plus {A} (a b : nat) (l : list A) :
  List.firstn (a + b) l = List.firstn a l ++ List.firstn b (List.skipn a l).
Proof.
  revert l. induction a as [|a IH]; intros l; [reflexivity|].
  destruct l as [|x l]; [cbn; rewrite List.firstn_nil; reflexivity|].
  cbn. f_equal. apply IH.
Qed.

(** Chunk [i] of a list cut every [n] elements. *)
Lemma page_range_chunk (l : list page) (mp : Z) (i : nat) :
  0 < mp ->
  page_range (Z.of_nat i * mp)
             (Z.min (Z.of_nat i * mp + mp) (Z.of_nat (length l)) - 1) l
  = List.firstn (Z.to_nat mp) (List.skipn (i * Z.to_nat mp) l).
Proof.
  intros Hmp. unfold page_range.
  replace (Z.to_nat (Z.of_nat i * mp)) with (i * Z.to_nat mp)%nat by nia.
  set (rest := List.skipn (i * Z.to_nat mp) l).
  assert (Hlen : length rest = (length l - i * Z.to_nat mp)%nat)
    by apply List.length_skipn.
  destruct (Z_le_gt_dec (Z.of_nat i * mp + mp) (Z.of_nat (length l))) as [Hle|Hgt].
  - f_equal. lia.
  - rewrite Z.min_r by lia.
    rewrite (List.firstn_all2 (n := Z.to_nat mp)) by nia.
    apply List.firstn_all2. nia.
Qed.

Lemma concat_chunks (l : list page) (mp : Z) (n : nat) :
  0 < mp ->
  List.concat
    (List.map (fun idx => page_range (idx * mp)
                            (Z.min (idx * mp + mp) (Z.of_nat (length l)) - 1) l)
              (range (Z.of_nat n)))
  = List.firstn (n * Z.to_nat mp) l.
Proof.
  intros Hmp. unfold range. rewrite Nat2Z.id.
  induction n as [|n IH]; [reflexivity|].
  rewrite List.seq_S, !List.map_app, List.concat_app, IH. cbn [List.map List.concat].
  rewrite app_nil_r, page_range_chunk by exact Hmp.
  replace (S n * Z.to_nat mp)%nat with (n * Z.to_nat mp + Z.to_nat mp)%nat by lia.
  symmetry. apply firstn_plus.
Qed.

Lemma ceiling_bounds (t mp : Z) :
  0 <= t -> 0 < mp ->
  0 <= (t + mp - 1) / mp
  /\ t <= (t + mp - 1) / mp * mp
  /\ (0 < (t + mp - 1) / mp -> ((t + mp - 1) / mp - 1) * mp < t).
Proof.
  intros Ht Hmp.
  pose proof (Z.div_mod (t + mp - 1) mp ltac:(lia)) as Hdm.
  pose proof (Z.mod_pos_bound (t + mp - 1) mp Hmp) as Hr.
  assert (0 <= (t + mp - 1) / mp) by (apply Z.div_pos; lia).
  nia.
Qed.

Lemma doc_pages_chunk_doc opts src idx :
  doc_pages (chunk_doc opts src idx)
  = page_range (idx * max_pages opts)
      (Z.min (idx * max_pages opts + max_pages opts) (page_count src) - 1)
      (doc_pages src).
Proof.
  unfold chunk_doc, build_part, set_metadata.
  destruct (keep_metadata opts); [|reflexivity].
  destruct (metadata_accepted (doc_metadata src)); reflexivity.
Qed.

Lemma plan_docs input output_dir opts src m idxs steps :
  plan input output_dir opts src m idxs = Some steps ->
  List.map snd steps = List.map (chunk_doc opts src) idxs.
Proof.
  intros Hplan. apply plan_steps in Hplan.
  induction Hplan as [|idx s idxs steps (_ & _ & _ & Hd) _ IH]; [reflexivity|].
  cbn [List.map]. rewrite Hd, IH. reflexivity.
Qed.

(** X2.  The partition, for page counts up to [2^52] and chunk sizes up to
    [2^1074]: when the source is readable without a password and every
    chunk has a place to go, [split_pdf] writes [ceil(T / max_pages)]
    chunks; put end to end their pages are the pages of the source;
    each has [max_pages] pages but the last, which has the rest. *)
Theorem split_pdf_partition
    input output_dir mp pat pw keep ow w m0 src steps :
  mkdir_parents (fs w) (output_dir_of (mkPath cwd input) output_dir) = Ok m0 ->
  0 < mp <= 2 ^ 1074 ->
  stat m0 (mkPath cwd input) = Some (File (Pdf src)) ->
  is_encrypted src = false ->
  page_count src <= 2 ^ 52 ->
  plan input output_dir (Options mp pat pw keep ow) src m0
       (range ((page_count src + mp - 1) / mp)) = Some steps ->
  (ow = true
   \/ (NoDup (List.map (fun s => fst (step_write s)) steps)
       /\ Forall (fun s => node_at m0 (fst (step_write s)) = None) steps)) ->
  split_pdf input output_dir (Options mp pat pw keep ow) w
    = (World (apply_writes (List.map step_write steps) m0)
             (calls w ++ List.map step_event steps),
       Ok (List.map step_path steps))
  /\ Z.of_nat (length steps) = (page_count src + mp - 1) / mp
  /\ List.concat (List.map (fun s => doc_pages (snd s)) steps) = doc_pages src
  /\ forall i s, steps !! i = Some s ->
       Z.of_nat (length (doc_pages (snd s)))
       = if Z.of_nat i + 1 <? (page_count src + mp - 1) / mp then mp
         else page_count src - mp * ((page_count src + mp - 1) / mp - 1).
Proof.
  intros Hmk Hmp Hst Henc Hcount Hplan Hfresh.
  pose proof (Nat2Z.is_nonneg (length (doc_pages src))) as Ht.
  fold (page_count src) in Ht.
  destruct (ceiling_bounds (page_count src) mp Ht ltac:(lia)) as (Hp0 & Hp1 & Hp2).
  set (parts := (page_count src + mp - 1) / mp) in *.
  pose proof (plan_docs _ _ _ _ _ _ _ Hplan) as Hdocs.
  assert (Hlen : Z.of_nat (length steps) = parts).
  { rewrite <- (List.length_map snd), Hdocs, List.length_map. unfold range.
    rewrite List.length_map, List.length_seq. lia. }
  split; [|split; [exact Hlen|split]].
  - rewrite split_pdf_prepare.
    rewrite (prepare_opened _ _ _ w m0 src) by (cbn [max_pages]; (assumption || lia)).
    unfold check_password. rewrite Henc. unfold ret. cbn [max_pages].
    rewrite PyNumFacts.ceil_div_exact by lia. fold parts.
    rewrite (for_chunks_plan _ _ _ _ _ [] _ steps); [reflexivity|exact Hplan|].
    cbn [overwrite fs]. exact Hfresh.
  - rewrite <- (List.map_map snd doc_pages), Hdocs, List.map_map.
    erewrite List.map_ext; [|intros idx; apply doc_pages_chunk_doc].
    cbn [max_pages]. fold (page_count src). unfold page_count at 1.
    replace parts with (Z.of_nat (Z.to_nat parts)) by lia.
    unfold page_count. rewrite concat_chunks by lia.
    apply List.firstn_all2. unfold page_count in *. nia.
  - intros i s Hs.
    assert (Hi : (i < length steps)%nat) by (eapply lookup_lt_Some; exact Hs).
    assert (Hsd : snd s = chunk_doc (Options mp pat pw keep ow) src (Z.of_nat i)).
    { assert (Hl : List.map snd steps !! i = Some (snd s)).
      { change (List.map snd steps) with (snd <$> steps).
        rewrite list_lookup_fmap, Hs. reflexivity. }
      rewrite Hdocs in Hl. unfold range in Hl.
      change (List.map (chunk_doc (Options mp pat pw keep ow) src)
                (List.map Z.of_nat (seq 0 (Z.to_nat parts))))
        with (chunk_doc (Options mp pat pw keep ow) src <$>
                (Z.of_nat <$> seq 0 (Z.to_nat parts))) in Hl.
      rewrite !list_lookup_fmap, lookup_seq_lt in Hl by lia.
      cbn in Hl. congruence. }
    rewrite Hsd, doc_pages_chunk_doc. cbn [max_pages].
    unfold page_count at 1 2. rewrite page_range_chunk by lia.
    rewrite List.length_firstn, List.length_skipn.
    unfold page_count in *.
    set (n := length (doc_pages src)) in *.
    assert (Him : Z.of_nat (i * Z.to_nat mp) = Z.of_nat i * mp) by nia.
    set (k := (i * Z.to_nat mp)%nat) in *.
    destruct (Z.ltb_spec (Z.of_nat i + 1) parts) as [Hlt|Hge].
    + specialize (Hp2 ltac:(lia)).
      assert ((Z.of_nat i + 1) * mp <= Z.of_nat n) by nia.
      rewrite Nat.min_l by lia. lia.
    + specialize (Hp2 ltac:(lia)).
      assert (Z.of_nat i = parts - 1) by lia.
      assert (Z.of_nat n - Z.of_nat k <= mp) by nia.
      assert (Z.of_nat k < Z.of_nat n) by nia.
      rewrite Nat.min_r by lia. nia.
Qed.

End PartitionFacts.

(** * Facts about [find_pdfs] *)

Section DiscovererFacts.
Context `{Env}.
Import FS.

Lemma unique_resolved_spec m found :
  forall seen,
  NoDup (List.map (realpath m) (unique_resolved m found seen))
  /\ (forall f, In f (unique_resolved m found seen) ->
                In f found /\ realpath m f ∉ seen).
Proof.
  induction found as [|f found IH]; intros seen; cbn [unique_resolved].
  - split; [constructor|intros f []].
  - destruct (decide (realpath m f ∈ seen)) as [Hin|Hout].
    + destruct (IH seen) as [Hnd Hsub]. split; [exact Hnd|].
      intros g Hg. destruct (Hsub g Hg). split; [right|]; assumption.
    + destruct (IH ({[realpath m f]} ∪ seen)) as [Hnd Hsub]. split.
      * cbn. apply NoDup_cons. split; [|exact Hnd].
        intros Hdup. apply list_elem_of_In, List.in_map_iff in Hdup as (g & Hg & Hgin).
        destruct (Hsub g Hgin) as [_ Hnot]. apply Hnot. rewrite Hg.
        apply elem_of_union. left. apply elem_of_singleton. reflexivity.
      * intros g [<-|Hg]; [split; [left; reflexivity|exact Hout]|].
        destruct (Hsub g Hg) as [Hgf Hnot]. split; [right; exact Hgf|].
        intros Hc. apply Hnot, elem_of_union. right. exact Hc.
Qed.

Lemma found_at_is_file m recursive pattern p f :
  In f (found_at m recursive pattern p) -> is_file m f = true.
Proof.
  unfold found_at.
  destruct (is_file m p && String.eqb (Str.lower (Path.suffix p)) ".pdf")%bool eqn:Hp.
  - intros [<-|[]]. apply andb_true_iff in Hp as [Hp _]. exact Hp.
  - destruct (is_dir m p); [|intros []].
    intros Hin. apply List.filter_In in Hin as [_ Hf]. exact Hf.
Qed.

(** X4.  What [find_pdfs] returns: regular files, no two of them with the
    same resolved path. *)
Theorem find_pdfs_unique_files m paths recursive pattern :
  NoDup (List.map (realpath m) (find_pdfs m paths recursive pattern))
  /\ Forall (fun f => is_file m f = true) (find_pdfs m paths recursive pattern).
Proof.
  unfold find_pdfs.
  destruct (unique_resolved_spec m
              (List.concat (List.map (fun p => found_at m recursive pattern (mkPath cwd p))
                              paths)) ∅) as [Hnd Hsub].
  split; [exact Hnd|]. apply List.Forall_forall. intros f Hf.
  destruct (Hsub f Hf) as [Hin _].
  apply List.in_concat in Hin as (l & Hl & Hfl).
  apply List.in_map_iff in Hl as (p & <- & _).
  eapply found_at_is_file. exact Hfl.
Qed.

End DiscovererFacts.

(** * The claims about argument validation and authentication *)

Section ValidationClaims.
Context `{Env}.
Import FS Kinds FSFacts.

(** C8.  A call with [max_pages <= 0] always ends with an exception and
    saves nothing.  The exception is [ValueError "max_pages must be > 0"]
    (the InvalidArgument of the specification) when the output directory
    could be made, the one step that comes before the check: then the
    directories made are the only change and every regular file is as
    it was.  When the directory cannot be made the exception is the one
    of [mkdir], and nothing has changed. *)
Theorem split_pdf_rejects_nonpositive_max_pages input output_dir opts w :
  max_pages opts <= 0 ->
  match mkdir_parents (fs w) (output_dir_of (mkPath cwd input) output_dir) with
  | Ok m0 =>
      split_pdf input output_dir opts w
      = (World m0 (calls w), Raise (ValueError "max_pages must be > 0"))
      /\ (forall p c, node_at m0 p = Some (File c) <-> node_at (fs w) p = Some (File c))
  | Raise e => split_pdf input output_dir opts w = (w, Raise e)
  end.
Proof.
  intros Hle. rewrite split_pdf_prepare.
  destruct (mkdir_parents (fs w) (output_dir_of (mkPath cwd input) output_dir))
    as [m0|e0] eqn:Hmk.
  - rewrite (prepare_nonpositive _ _ _ _ _ Hle Hmk). split; [reflexivity|].
    intros p c. apply extends_lookup_file.
    apply mkdir_parents_Ok in Hmk as [He _]. exact He.
  - unfold prepare, bind, mkdir. rewrite Hmk. reflexivity.
Qed.

(** C9.  With [max_pages <= 0] the output directory and its ancestors
    are directories when the [ValueError] is raised: [mkdir] has run
    before the argument is looked at. *)
Theorem split_pdf_makes_directory_before_validation
    input output_dir opts w m0 :
  wf (fs w) = true ->
  max_pages opts <= 0 ->
  mkdir_parents (fs w) (output_dir_of (mkPath cwd input) output_dir) = Ok m0 ->
  split_pdf input output_dir opts w
    = (World m0 (calls w), Raise (ValueError "max_pages must be > 0"))
  /\ forall q, q `prefix_of` output_dir_of (mkPath cwd input) output_dir ->
               is_dir m0 q = true.
Proof.
  intros Hwf Hle Hmk.
  rewrite split_pdf_prepare, (prepare_nonpositive _ _ _ _ _ Hle Hmk).
  split; [reflexivity|].
  apply tree_prefix_dirs.
  - eapply mkdir_parents_tree; [apply wf_tree, Hwf | exact Hmk].
  - apply mkdir_parents_Ok in Hmk as [_ Hd]. exact Hd.
Qed.

(** C10.  On an encrypted source the empty password behaves as no
    password: both calls end in the same state with the missing-password
    [ValueError], and no call to [authenticate] is recorded. *)
Theorem split_pdf_empty_password_is_no_password
    input output_dir mp pat keep ow w m0 src :
  mkdir_parents (fs w) (output_dir_of (mkPath cwd input) output_dir) = Ok m0 ->
  0 < mp ->
  stat m0 (mkPath cwd input) = Some (File (Pdf src)) ->
  is_encrypted src = true ->
  split_pdf input output_dir (Options mp pat (Some "") keep ow) w
    = split_pdf input output_dir (Options mp pat None keep ow) w
  /\ split_pdf input output_dir (Options mp pat (Some "") keep ow) w
    = (World m0 (calls w),
       Raise (ValueError "PDF is encrypted: please provide a password."))
  /\ auth_attempts (calls (fst (split_pdf input output_dir
                                  (Options mp pat (Some "") keep ow) w)))
     = auth_attempts (calls w).
Proof.
  intros Hmk Hpos Hst Henc.
  assert (Hrun : forall pw, pw = None \/ pw = Some "" ->
            split_pdf input output_dir (Options mp pat pw keep ow) w
            = (World m0 (calls w),
               Raise (ValueError "PDF is encrypted: please provide a password."))).
  { intros pw Hpw. rewrite split_pdf_prepare.
    rewrite (prepare_opened _ _ _ _ m0 src) by assumption.
    unfold check_password. rewrite Henc. cbn [password].
    destruct Hpw as [->| ->]; reflexivity. }
  rewrite (Hrun (Some "")), (Hrun None) by auto. auto.
Qed.

(** C4.  On an encrypted source (the directory made, [max_pages]
    positive, the source readable): without a password, and with the
    empty one, the call fails with the missing-password [ValueError];
    with a password that [authenticate] refuses it fails with the
    wrong-password [ValueError] (both are the AuthenticationError of the
    specification); with a password that [authenticate] accepts the call
    returns what it returns on the same file system holding the same
    document unencrypted, saves the same documents at the same paths,
    and leaves the same file system but for the source file itself. *)
Theorem split_pdf_encrypted_source
    input output_dir mp pat keep ow w m0 r src :
  mkdir_parents (fs w) (output_dir_of (mkPath cwd input) output_dir) = Ok m0 ->
  0 < mp ->
  resolve (fs w) (mkPath cwd input) = Some r ->
  node_at (fs w) r = Some (File (Pdf src)) ->
  is_encrypted src = true ->
  (forall pw, pw = None \/ pw = Some "" ->
     split_pdf input output_dir (Options mp pat pw keep ow) w
     = (World m0 (calls w),
        Raise (ValueError "PDF is encrypted: please provide a password.")))
  /\ (forall s, s <> "" -> authenticate src s = false ->
     split_pdf input output_dir (Options mp pat (Some s) keep ow) w
     = (World m0 (calls w ++ [EvAuthenticate s]),
        Raise (ValueError "Wrong password for encrypted PDF.")))
  /\ (forall s pw2, s <> "" -> authenticate src s = true ->
     let plain := Document (doc_pages src) (doc_metadata src) false in
     let w2 := World (<[r := File (Pdf plain)]> (fs w)) (calls w) in
     let run1 := split_pdf input output_dir (Options mp pat (Some s) keep ow) w in
     let run2 := split_pdf input output_dir (Options mp pat pw2 keep ow) w2 in
     snd run1 = snd run2
     /\ saves (calls (fst run1)) = saves (calls (fst run2))
     /\ agree_off r (fs (fst run1)) (fs (fst run2))).
Proof.
  intros Hmk Hpos Hr Hn Henc.
  pose proof (mkdir_parents_Ok _ _ _ Hmk) as [He _].
  pose proof (stat_extends _ _ _ _ _ He Hr Hn) as Hst.
  split; [|split].
  - intros pw Hpw. rewrite split_pdf_prepare.
    rewrite (prepare_opened _ _ _ _ m0 src) by assumption.
    unfold check_password. rewrite Henc. cbn [password].
    destruct Hpw as [->| ->]; reflexivity.
  - intros s Hs Hauth. rewrite split_pdf_prepare.
    rewrite (prepare_opened _ _ _ _ m0 src) by assumption.
    unfold check_password, bind, doc_authenticate, raise. rewrite Henc. cbn [password].
    destruct s as [|c s]; [congruence|]. rewrite Hauth. reflexivity.
  - intros s pw2 Hs Hauth plain w2 run1 run2.
    assert (Hroot : r <> []) by (intros ->; discriminate).
    assert (Ha : agree_off r (fs w) (fs w2)).
    { intros x. cbn [fs w2]. rewrite node_at_insert by exact Hroot.
      destruct (decide (x = r)) as [->|]; [right|left; reflexivity].
      split; [reflexivity|]. eauto. }
    pose proof (mkdir_parents_agree r _ _
                  (output_dir_of (mkPath cwd input) output_dir) Ha) as Hrel.
    rewrite Hmk in Hrel.
    destruct (mkdir_parents (fs w2) _) as [m0'|] eqn:Hmk2; [|contradiction].
    simpl in Hrel.
    pose proof (mkdir_parents_Ok _ _ _ Hmk2) as [He2 _].
    assert (Hst2 : stat m0' (mkPath cwd input) = Some (File (Pdf plain))).
    { eapply stat_extends; [exact He2 | |].
      - rewrite <- (resolve_compat (fs w) (fs w2)); [exact Hr|].
        apply same_kinds_compat, agree_off_same_kinds with r, Ha.
      - cbn [fs w2]. rewrite node_at_insert by exact Hroot.
        rewrite decide_True; reflexivity. }
    destruct s as [|c s]; [congruence|].
    assert (Hsv : saves (calls w ++ [EvAuthenticate (String c s)]) = saves (calls w)).
    { unfold saves. rewrite List.flat_map_app. simpl. apply app_nil_r. }
    assert (Hrun1 : run1 =
      match PyNum.ceil_div (page_count src) mp with
      | Ok parts =>
          for_chunks (chunk_body input output_dir
                        (Options mp pat (Some (String c s)) keep ow) src)
            (range parts) [] (World m0 (calls w ++ [EvAuthenticate (String c s)]))
      | Raise e => (World m0 (calls w ++ [EvAuthenticate (String c s)]), Raise e)
      end).
    { subst run1. rewrite split_pdf_prepare.
      rewrite (prepare_opened _ _ _ w m0 src) by assumption.
      unfold check_password, bind, doc_authenticate, ret.
      rewrite Henc. cbn [password max_pages fs calls]. rewrite Hauth.
      destruct (PyNum.ceil_div (page_count src) mp); reflexivity. }
    assert (Hrun2 : run2 =
      match PyNum.ceil_div (page_count src) mp with
      | Ok parts =>
          for_chunks (chunk_body input output_dir (Options mp pat pw2 keep ow) plain)
            (range parts) [] (World m0' (calls w))
      | Raise e => (World m0' (calls w), Raise e)
      end).
    { subst run2. rewrite split_pdf_prepare.
      rewrite (prepare_opened _ _ _ w2 m0' plain) by assumption.
      unfold check_password, ret. cbn [is_encrypted plain max_pages calls w2].
      change (page_count plain) with (page_count src).
      destruct (PyNum.ceil_div (page_count src) mp); reflexivity. }
    rewrite Hrun1, Hrun2. clear Hrun1 Hrun2.
    destruct (PyNum.ceil_div (page_count src) mp) as [parts|e].
    + destruct src as [pages md enc]. subst plain. cbn [doc_pages doc_metadata].
      pose proof (for_chunks_agree r input output_dir mp pat (Some (String c s)) pw2
                    keep ow pages md enc false (range parts) []
                    (World m0 (calls w ++ [EvAuthenticate (String c s)]))
                    (World m0' (calls w)) Hrel Hsv) as (H1 & H2 & H3).
      exact (conj H1 (conj H3 H2)).
    + cbn [fst snd fs calls]. auto.
Qed.

End ValidationClaims.

(** * The claims about collisions, metadata and batches *)

Section LoopClaims.
Context `{Env}.
Import FS Kinds FSFacts.

(** C2.  With [overwrite] false, when the first [k] chunks have been
    written and the path of chunk [k] exists, [split_pdf] ends with
    [FileExistsError] (the OutputExists of the specification) in
    exactly the state reached after those [k] chunks: chunk [k] is not
    written, no later chunk is tried, nothing written earlier is
    undone. *)
Theorem split_pdf_collision_aborts
    input output_dir opts w w0 src parts k wk outs p :
  overwrite opts = false ->
  prepare input output_dir opts w = (w0, Ok (src, parts)) ->
  0 <= k < parts ->
  for_chunks (chunk_body input output_dir opts src) (range k) [] w0 = (wk, Ok outs) ->
  chunk_path input output_dir opts (page_count src) k = Ok p ->
  exists_ (fs wk) p = true ->
  split_pdf input output_dir opts w
  = (wk, Raise (FileExistsError ("Output exists: " +:+ Path.to_string p
                                 +:+ ". Use overwrite=True to replace."))).
Proof.
  intros Hov Hprep Hk Hloop Hpath Hex.
  rewrite split_pdf_prepare, Hprep, (range_split parts k Hk), for_chunks_app, Hloop.
  cbn [for_chunks]. unfold bind. rewrite write_chunk_step, Hpath, Hex, Hov.
  reflexivity.
Qed.

Lemma for_chunks_ext body1 body2 idxs outs w :
  (forall idx v, body1 idx v = body2 idx v) ->
  for_chunks body1 idxs outs w = for_chunks body2 idxs outs w.
Proof.
  intros Hext. revert outs w. induction idxs as [|idx idxs IH]; intros outs w;
    [reflexivity|].
  cbn [for_chunks]. unfold bind. rewrite Hext.
  destruct (body2 idx w) as [w1 [p|e]]; [apply IH|reflexivity].
Qed.

(** What a run of the loop adds to the recorded calls: one save per
    chunk reached, of that chunk's document. *)
Lemma for_chunks_calls input output_dir opts src idxs :
  forall outs w,
  exists new,
    calls (fst (for_chunks (chunk_body input output_dir opts src) idxs outs w))
    = calls w ++ new
    /\ auth_attempts new = []
    /\ Forall (fun pd => exists idx, In idx idxs /\ snd pd = chunk_doc opts src idx)
              (saves new).
Proof.
  induction idxs as [|idx idxs IH]; intros outs w.
  - exists []. cbn. rewrite app_nil_r. auto.
  - cbn [for_chunks]. unfold bind. rewrite write_chunk_step.
    destruct (chunk_path _ _ _ _ idx) as [p|e];
      [|exists []; cbn; rewrite app_nil_r; auto].
    destruct (exists_ (fs w) p && negb (overwrite opts))%bool;
      [exists []; cbn; rewrite app_nil_r; auto|].
    destruct (write_target (fs w) p) as [q|];
      [|exists []; cbn; rewrite app_nil_r; auto].
    destruct (IH (outs ++ [p])%list
                (World (<[q := File (Pdf (chunk_doc opts src idx))]> (fs w))
                       (calls w ++ [EvSave p (chunk_doc opts src idx)])))
      as (new & Hc & Ha & Hs).
    exists (EvSave p (chunk_doc opts src idx) :: new). split; [|split].
    + rewrite Hc. cbn [calls]. rewrite <- app_assoc. reflexivity.
    + exact Ha.
    + cbn. constructor.
      * exists idx. cbn. auto.
      * eapply Forall_impl; [exact Hs|]. intros pd (i & Hi & Hd). exists i. cbn. auto.
Qed.

Lemma check_password_calls src pw w :
  exists new,
    calls (fst (check_password src pw w)) = calls w ++ new /\ saves new = [].
Proof.
  unfold check_password. destruct (is_encrypted src);
    [|exists []; cbn; rewrite app_nil_r; auto].
  destruct pw as [[|c s]|]; try (exists []; cbn; rewrite app_nil_r; auto; fail).
  unfold bind, doc_authenticate. exists [EvAuthenticate (String c s)].
  destruct (authenticate src (String c s)); cbn; auto.
Qed.

Lemma prepare_saves input output_dir opts w :
  saves (calls (fst (prepare input output_dir opts w))) = saves (calls w).
Proof.
  unfold prepare, bind, mkdir, raise, fitz_open, lift, ret.
  destruct (mkdir_parents (fs w) _) as [m0|e]; [|reflexivity].
  destruct (max_pages opts <=? 0); [reflexivity|]. cbn [fs].
  destruct (stat m0 _) as [[|[d|]|]|]; try reflexivity.
  destruct (check_password_calls d (password opts) (World m0 (calls w)))
    as (new & Hc & Hs).
  assert (Hgoal : saves (calls (fst (check_password d (password opts)
                                       (World m0 (calls w))))) = saves (calls w)).
  { rewrite Hc. cbn [calls]. unfold saves in *. rewrite List.flat_map_app.
    fold (saves new). unfold saves. rewrite Hs. apply app_nil_r. }
  destruct (check_password d (password opts) (World m0 (calls w))) as [w1 [[]|e]];
    [|exact Hgoal].
  destruct (PyNum.ceil_div _ _); exact Hgoal.
Qed.

(** C7.  With [keep_metadata] true the failure of the metadata copy
    stops nothing.  When [set_metadata] refuses the source's metadata
    the call runs exactly as with [keep_metadata] false (same result,
    same files written, same final state); when it accepts them, every
    document saved carries them.  And whatever [set_metadata] does,
    whenever every chunk has a place to go (the name renders, the file
    can be created, and [overwrite] is set or the places are free and
    distinct) the call returns having written every chunk: one file per
    part, each with the pages of its range, which is there when the
    call ends; its metadata are the source's when they were accepted
    and none otherwise. *)
Theorem split_pdf_metadata_copy_best_effort
    input output_dir mp pat pw ow w w0 src parts :
  prepare input output_dir (Options mp pat pw true ow) w = (w0, Ok (src, parts)) ->
  (metadata_accepted (doc_metadata src) = false ->
     split_pdf input output_dir (Options mp pat pw true ow) w
     = split_pdf input output_dir (Options mp pat pw false ow) w)
  /\ (metadata_accepted (doc_metadata src) = true ->
      exists new,
        saves (calls (fst (split_pdf input output_dir (Options mp pat pw true ow) w)))
        = saves (calls w) ++ new
        /\ Forall (fun pd => doc_metadata (snd pd) = doc_metadata src) new)
  /\ (forall steps,
        plan input output_dir (Options mp pat pw true ow) src (fs w0) (range parts)
        = Some steps ->
        (ow = true
         \/ (NoDup (List.map (fun s => fst (step_write s)) steps)
             /\ Forall (fun s => node_at (fs w0) (fst (step_write s)) = None) steps)) ->
        split_pdf input output_dir (Options mp pat pw true ow) w
        = (World (apply_writes (List.map step_write steps) (fs w0))
                 (calls w0 ++ List.map step_event steps),
           Ok (List.map step_path steps))
        /\ length steps = Z.to_nat parts
        /\ List.map (fun s => doc_pages (snd s)) steps
           = List.map (fun idx => page_range (idx * mp)
                                    (Z.min (idx * mp + mp) (page_count src) - 1)
                                    (doc_pages src))
                      (range parts)
        /\ Forall (fun s =>
                     doc_metadata (snd s)
                     = (if metadata_accepted (doc_metadata src)
                        then doc_metadata src else [])
                     /\ exists d,
                          node_at (apply_writes (List.map step_write steps) (fs w0))
                                  (step_path s)
                          = Some (File (Pdf d)))
                  steps).
Proof.
  intros Hprep. split; [|split].
  - intros Hacc. rewrite !split_pdf_prepare.
    change (prepare input output_dir (Options mp pat pw false ow) w)
      with (prepare input output_dir (Options mp pat pw true ow) w).
    rewrite Hprep. apply for_chunks_ext. intros idx v.
    rewrite !write_chunk_step.
    change (chunk_path input output_dir (Options mp pat pw false ow))
      with (chunk_path input output_dir (Options mp pat pw true ow)).
    assert (Hdoc : chunk_doc (Options mp pat pw true ow) src idx
                   = chunk_doc (Options mp pat pw false ow) src idx).
    { unfold chunk_doc, build_part, set_metadata. cbn [keep_metadata max_pages].
      rewrite Hacc. reflexivity. }
    rewrite Hdoc. reflexivity.
  - intros Hacc. rewrite split_pdf_prepare.
    pose proof (prepare_saves input output_dir (Options mp pat pw true ow) w) as Hps.
    rewrite Hprep in *. cbn [fst] in Hps.
    destruct (for_chunks_calls input output_dir (Options mp pat pw true ow) src
                (range parts) [] w0) as (new & Hc & _ & Hs).
    exists (saves new). split.
    + rewrite Hc. unfold saves in *. rewrite List.flat_map_app, Hps. reflexivity.
    + eapply Forall_impl; [exact Hs|]. intros pd (idx & _ & ->).
      unfold chunk_doc, build_part, set_metadata. cbn [keep_metadata].
      rewrite Hacc. reflexivity.
  - intros steps Hplan Hfresh.
    pose proof (plan_docs _ _ _ _ _ _ _ Hplan) as Hdocs.
    pose proof (plan_nonroot _ _ _ _ _ _ _ Hplan) as Hroot.
    split; [|split; [|split]].
    + rewrite split_pdf_prepare, Hprep.
      apply (for_chunks_plan _ _ _ _ _ [] _ steps Hplan). exact Hfresh.
    + rewrite <- (List.length_map snd), Hdocs, List.length_map. unfold range.
      rewrite List.length_map, List.length_seq. reflexivity.
    + rewrite <- (List.map_map snd doc_pages), Hdocs, List.map_map.
      apply List.map_ext. intros idx. apply doc_pages_chunk_doc.
    + apply List.Forall_forall. intros s Hin. split.
      * assert (Hd : In (snd s) (List.map (chunk_doc (Options mp pat pw true ow) src)
                                   (range parts))).
        { rewrite <- Hdocs. apply List.in_map, Hin. }
        apply List.in_map_iff in Hd as (idx & <- & _).
        unfold chunk_doc, build_part, set_metadata. cbn [keep_metadata].
        destruct (metadata_accepted (doc_metadata src)); reflexivity.
      * rewrite (node_at_apply_writes _ _ _ Hroot).
        apply plan_steps in Hplan.
        assert (Hq : fst (step_write s) = step_path s).
        { clear -Hplan Hin. induction Hplan as [|idx s0 idxs steps (_ & Hq & _) _ IH];
            [destruct Hin|]. destruct Hin as [->|Hin]; [exact Hq|apply IH, Hin]. }
        destruct (last_write_of_in (step_path s) (List.map step_write steps) (snd s))
          as (d & ->).
        { apply List.in_map_iff. exists s. split; [|exact Hin].
          unfold step_write. cbn [fst] in Hq |- *. rewrite <- Hq. reflexivity. }
        eauto.
Qed.

End LoopClaims.

Section BatchClaims.
Context `{Env}.

Lemma split_each_batch_run output_dir opts pdfs :
  forall acc w,
  exists r,
    batch_run output_dir opts pdfs w (fst (split_each output_dir opts pdfs acc w)) r
    /\ snd (split_each output_dir opts pdfs acc w)
       = match r with
         | Ok outs => Ok (acc ++ outs)%list
         | Raise e => Raise e
         end.
Proof.
  induction pdfs as [|pdf rest IH]; intros acc w.
  - exists (Ok []). cbn. rewrite app_nil_r. split; [constructor|reflexivity].
  - cbn [split_each]. unfold bind.
    destruct (split_pdf (PPath pdf) _ opts w) as [w1 [outs|e]] eqn:Hsp.
    + destruct (IH (acc ++ outs)%list w1) as (r & Hrun & Hres).
      exists (match r with Ok outs' => Ok (outs ++ outs')%list | Raise e => Raise e end).
      split.
      * eapply batch_next; eassumption.
      * rewrite Hres. destruct r; [rewrite app_assoc|]; reflexivity.
    + exists (Raise e). split; [|reflexivity]. cbn. apply batch_abort. exact Hsp.
Qed.

(** C5.  The output directory of a discovered file is its parent when
    no common directory is given (or a false one: the empty string),
    and the common directory otherwise; [split_many] splits the
    discovered files one after the other with the same options, each on
    the state the previous one left, concatenates the outputs in
    discovery order, and ends at the first failing file with its
    exception and the state reached then. *)
Theorem split_many_runs_batch inputs output_dir recursive opts w :
  (forall pdf, out_dir_for None pdf = Path.parent pdf)
  /\ (forall pdf, out_dir_for (Some (PStr "")) pdf = Path.parent pdf)
  /\ (forall d pdf, out_dir_for (Some d) pdf
                     = if truthy d then mkPath cwd d else Path.parent pdf)
  /\ batch_run output_dir opts (find_pdfs (fs w) inputs recursive "*.pdf") w
       (fst (split_many inputs output_dir recursive opts w))
       (snd (split_many inputs output_dir recursive opts w)).
Proof.
  split; [reflexivity|]. split; [reflexivity|]. split; [reflexivity|].
  - unfold split_many.
    destruct (split_each_batch_run output_dir opts
                (find_pdfs (fs w) inputs recursive "*.pdf") [] w) as (r & Hrun & Hres).
    rewrite Hres. destruct r; exact Hrun.
Qed.

End BatchClaims.

(** * The claim about running twice *)

Section RerunClaims.
Context `{Env}.
Import FS Kinds FSFacts.

(** What a call that returned has done, and how a second call on the
    state it left starts, when the source file is still the same and
    the output directory is still a directory (which it is when the
    first call ran without [overwrite]). *)
Lemma rerun_setup input output_dir mp pat pw keep ow ow' w w1 outs :
  split_pdf input output_dir (Options mp pat pw keep ow) w = (w1, Ok outs) ->
  stat (fs w1) (mkPath cwd input) = stat (fs w) (mkPath cwd input) ->
  (ow = true -> is_dir (fs w1) (output_dir_of (mkPath cwd input) output_dir) = true) ->
  exists m0 src parts steps auth,
    plan input output_dir (Options mp pat pw keep ow) src m0 (range parts) = Some steps
    /\ outs = List.map step_path steps
    /\ fs w1 = apply_writes (List.map step_write steps) m0
    /\ saves (calls w1)
       = saves (calls w) ++ List.map (fun s => (step_path s, snd s)) steps
    /\ saves auth = []
    /\ prepare input output_dir (Options mp pat pw keep ow') w1
       = (World (fs w1) (calls w1 ++ auth), Ok (src, parts))
    /\ (ow = false ->
        Forall (fun s => is_dir (fs w1) (Path.parent (step_path s)) = true) steps).
Proof.
  intros Hrun Hsrc Hdir1. rewrite split_pdf_prepare in Hrun.
  pose proof (prepare_saves input output_dir (Options mp pat pw keep ow) w) as Hps.
  destruct (prepare input output_dir (Options mp pat pw keep ow) w)
    as [w0 [[src parts]|e]] eqn:Hprep; [|discriminate].
  cbn [fst] in Hps.
  apply prepare_Ok in Hprep as (m0 & Hmk & Hpos & Hst & Hcp & Hceil).
  cbn [max_pages password] in *.
  apply check_password_Ok in Hcp as [Hfs0 Hcp]. cbn [fs] in Hfs0.
  pose proof (for_chunks_Ok _ _ _ _ _ _ _ _ _ Hrun)
    as (steps & Hplan & Houts & Hfs1 & Hcalls1 & Hkeep).
  pose proof (fun Hov => for_chunks_parents _ _ _ _ _ Hov _ _ _ _ _ Hrun Hplan) as Hpar.
  rewrite Hfs0 in Hplan, Hfs1, Hkeep. cbn [overwrite] in Hkeep, Hpar.
  pose proof (mkdir_parents_Ok _ _ _ Hmk) as [He Hdir].
  assert (Hmk2 : mkdir_parents (fs w1) (output_dir_of (mkPath cwd input) output_dir)
                 = Ok (fs w1)).
  { apply mkdir_parents_is_dir. destruct ow; [apply Hdir1; reflexivity|].
    eapply keeps_is_dir; [apply Hkeep; reflexivity|exact Hdir]. }
  assert (Hst2 : stat (fs w1) (mkPath cwd input) = Some (File (Pdf src))).
  { rewrite Hsrc. eapply stat_extends_file_back; eassumption. }
  destruct (Hcp (World (fs w1) (calls w1))) as (auth & Hauth & Hcp2).
  cbn [fs calls] in Hcp2.
  exists m0, src, parts, steps, auth.
  split; [exact Hplan|]. split; [exact Houts|]. split; [exact Hfs1|].
  split; [rewrite Hcalls1, saves_app, saves_step_events, Hps; reflexivity|].
  split; [exact Hauth|]. split; [|exact Hpar].
  rewrite (prepare_opened _ _ _ w1 (fs w1) src) by assumption.
  cbn [password max_pages]. rewrite Hcp2, Hceil. reflexivity.
Qed.

(** Saving again, with [overwrite], the chunks of a plan on a file
    system where each of them is a regular file in a directory. *)
Lemma for_chunks_replay input output_dir mp pat pw keep ow src m1 idxs steps :
  Forall2 (fun idx s =>
             chunk_path input output_dir (Options mp pat pw keep ow) (page_count src) idx
             = Ok (step_path s)
             /\ fst (step_write s) = step_path s
             /\ step_path s <> []
             /\ snd s = chunk_doc (Options mp pat pw keep ow) src idx) idxs steps ->
  Forall (fun s => (exists c, node_at m1 (step_path s) = Some (File c))
                   /\ is_dir m1 (Path.parent (step_path s)) = true) steps ->
  forall outs w',
  same_kinds m1 (fs w') ->
  for_chunks (chunk_body input output_dir (Options mp pat pw keep true) src) idxs outs w'
  = (World (apply_writes (List.map step_write steps) (fs w'))
           (calls w' ++ List.map step_event steps),
     Ok (outs ++ List.map step_path steps)).
Proof.
  intros Hsteps. induction Hsteps as [|idx s idxs steps (Hp & Hq & Hne & Hd) _ IH];
    intros Hall outs w' Hk.
  - cbn. rewrite !app_nil_r. destruct w'; reflexivity.
  - inversion Hall as [|? ? [(c & Hfile) Hdir] Hrest]; subst.
    destruct s as [[p q] d]. cbn [step_path step_write fst snd] in *. subst q.
    cbn [for_chunks]. unfold bind. rewrite write_chunk_step.
    change (chunk_path input output_dir (Options mp pat pw keep true))
      with (chunk_path input output_dir (Options mp pat pw keep ow)).
    change (chunk_doc (Options mp pat pw keep true))
      with (chunk_doc (Options mp pat pw keep ow)).
    rewrite Hp. cbn [overwrite negb]. rewrite andb_false_r.
    assert (Hfile' : exists c', node_at (fs w') p = Some (File c')).
    { specialize (Hk p). unfold kind_at in Hk. rewrite Hfile in Hk.
      destruct (node_at (fs w') p) as [[| |]|]; try discriminate. eauto. }
    destruct Hfile' as (c' & Hfile').
    rewrite write_target_not_dir;
      [|exact Hne|rewrite Hfile'; discriminate
       |rewrite <- (is_dir_same_kinds _ _ _ Hk); exact Hdir].
    rewrite <- Hd.
    rewrite (IH Hrest).
    + cbn. rewrite <- !app_assoc. reflexivity.
    + cbn [fs]. eapply same_kinds_trans; [exact Hk|].
      eapply same_kinds_insert_file; eassumption.
Qed.

(** C6.  After a call that returned and left the source file as it was,
    the same call with [overwrite] true returns the same paths, saves
    the same documents at the same paths in the same order (so the same
    page counts), and leaves the file system as the first call left
    it.  When the first call itself ran with [overwrite] this takes
    that it did not save over a directory it needs: the output
    directory and the directories of its outputs are still
    directories. *)
Theorem split_pdf_rerun_overwrite
    input output_dir mp pat pw keep ow w w1 outs :
  split_pdf input output_dir (Options mp pat pw keep ow) w = (w1, Ok outs) ->
  stat (fs w1) (mkPath cwd input) = stat (fs w) (mkPath cwd input) ->
  (ow = true ->
   is_dir (fs w1) (output_dir_of (mkPath cwd input) output_dir) = true
   /\ Forall (fun p => is_dir (fs w1) (Path.parent p) = true) outs) ->
  exists w2 new,
    split_pdf input output_dir (Options mp pat pw keep true) w1 = (w2, Ok outs)
    /\ saves (calls w1) = saves (calls w) ++ new
    /\ saves (calls w2) = saves (calls w1) ++ new
    /\ fs w2 = fs w1.
Proof.
  intros Hrun Hsrc Hkept.
  destruct (rerun_setup _ _ _ _ _ _ _ true _ _ _ Hrun Hsrc
              (fun Hov => proj1 (Hkept Hov)))
    as (m0 & src & parts & steps & auth
        & Hplan & Houts & Hfs1 & Hsaves & Hauth & Hprep2 & Hpar).
  assert (Hparents : Forall (fun s => is_dir (fs w1) (Path.parent (step_path s)) = true)
                            steps).
  { destruct ow; [|apply Hpar; reflexivity].
    destruct (Hkept eq_refl) as [_ Hp]. subst outs.
    rewrite List.Forall_map in Hp. exact Hp. }
  exists (World (apply_writes (List.map step_write steps) (fs w1))
                ((calls w1 ++ auth) ++ List.map step_event steps)),
         (List.map (fun s => (step_path s, snd s)) steps).
  pose proof (plan_nonroot _ _ _ _ _ _ _ Hplan) as Hroot.
  pose proof (plan_steps _ _ _ _ _ _ _ Hplan) as Hsteps.
  split; [|split; [|split]].
  - rewrite split_pdf_prepare, Hprep2.
    rewrite (for_chunks_replay _ _ _ _ _ _ ow src (fs w1) _ steps Hsteps).
    + cbn [fs calls]. rewrite Houts. reflexivity.
    + apply List.Forall_forall. intros s Hin. split.
      * rewrite Hfs1, (node_at_apply_writes _ _ _ Hroot).
        assert (Hq : fst (step_write s) = step_path s).
        { clear -Hsteps Hin.
          induction Hsteps as [|idx s0 idxs steps (_ & Hq & _) _ IH]; [destruct Hin|].
          destruct Hin as [->|Hin]; [exact Hq|apply IH, Hin]. }
        destruct (last_write_of_in (step_path s) (List.map step_write steps) (snd s))
          as (d & ->); [|eauto].
        apply List.in_map_iff. exists s. split; [|exact Hin].
        unfold step_write. cbn [fst] in Hq |- *. rewrite <- Hq. reflexivity.
      * rewrite List.Forall_forall in Hparents. apply Hparents, Hin.
    + apply same_kinds_refl.
  - exact Hsaves.
  - cbn [calls]. rewrite !saves_app, saves_step_events, Hauth, app_nil_r. reflexivity.
  - cbn [fs]. rewrite Hfs1. apply apply_writes_replay.
Qed.

(** The collision of a second run: after a call without [overwrite]
    that wrote at least one chunk and left the source file as it was,
    the same call again fails with [FileExistsError] on the first
    output, saving nothing and leaving the file system as it is. *)
Theorem split_pdf_twice_without_overwrite
    input output_dir mp pat pw keep w w1 p outs :
  split_pdf input output_dir (Options mp pat pw keep false) w = (w1, Ok (p :: outs)) ->
  stat (fs w1) (mkPath cwd input) = stat (fs w) (mkPath cwd input) ->
  exists w2,
    split_pdf input output_dir (Options mp pat pw keep false) w1
    = (w2, Raise (FileExistsError ("Output exists: " +:+ Path.to_string p
                                   +:+ ". Use overwrite=True to replace.")))
    /\ fs w2 = fs w1
    /\ saves (calls w2) = saves (calls w1).
Proof.
  intros Hrun Hsrc.
  destruct (rerun_setup _ _ _ _ _ _ _ false _ _ _ Hrun Hsrc ltac:(discriminate))
    as (m0 & src & parts & steps & auth
        & Hplan & Houts & Hfs1 & Hsaves & Hauth & Hprep2 & _).
  pose proof (plan_nonroot _ _ _ _ _ _ _ Hplan) as Hroot.
  pose proof (plan_steps _ _ _ _ _ _ _ Hplan) as Hsteps.
  destruct steps as [|[[p0 q0] d0] steps]; [discriminate|].
  assert (Hp : p = p0) by (cbn in Houts; congruence). subst p0. clear Houts.
  assert (Hparts : 0 <= 0 < parts).
  { split; [lia|]. destruct (Z_lt_le_dec 0 parts) as [|Hle]; [assumption|].
    unfold range in Hsteps. replace (Z.to_nat parts) with 0%nat in Hsteps by lia.
    inversion Hsteps. }
  rewrite (range_split parts 0 Hparts) in Hsteps.
  change (range 0) with (@nil Z) in Hsteps. cbn [app] in Hsteps.
  inversion Hsteps as [|? ? ? ? (Hpath & Hq & _ & _) _]; subst.
  cbn [step_path step_write fst snd] in Hpath, Hq. subst q0.
  assert (Hex : exists_ (fs w1) p = true).
  { rewrite Hfs1.
    destruct (last_write_of_in p (List.map step_write ((p, p, d0) :: steps)) d0)
      as (d & Hl); [left; reflexivity|].
    pose proof (node_at_apply_writes _ m0 p Hroot) as Hn. rewrite Hl in Hn.
    eapply exists_of_file, Hn. }
  exists (World (fs w1) (calls w1 ++ auth)).
  split; [|split; [reflexivity|]].
  - rewrite split_pdf_prepare, Hprep2, (range_split parts 0 Hparts).
    change (range 0) with (@nil Z). cbn [app for_chunks]. unfold bind.
    rewrite write_chunk_step, Hpath.
    cbn [fs overwrite]. rewrite Hex. reflexivity.
  - cbn [calls]. rewrite saves_app, Hauth, app_nil_r. reflexivity.
Qed.

End RerunClaims.

(** * Where the code leaves the specification *)

Section Divergences.
Import FS Kinds Example.

(** C1.  With [max_pages = 10**400] the 23 pages of [demo.pdf] call
    for one chunk holding them all; [23 / 10**400] is [0.0] in binary64,
    so [math.ceil] gives no part at all: the call returns the empty
    list, saves nothing and leaves the file system as it was. *)
Theorem split_pdf_huge_max_pages_writes_nothing :
  page_count (demo 23) = 23
  /\ (23 + huge - 1) / huge = 1
  /\ PyNum.ceil_div 23 huge = Ok 0
  /\ @split_pdf posix demo_pdf None (Options huge None None true false) tmp_world
     = (tmp_world, Ok []).
Proof.
  split; [reflexivity|]. split; [vm_compute; reflexivity|].
  split; [vm_compute; reflexivity|].
  reflexivity.
Qed.

(** C3.  On POSIX, discovery in the directory holding [a.pdf], [b.PDF],
    [c.txt] and the link [a2.pdf] to [a.pdf] returns [a.pdf] only:
    [b.PDF] is a regular file with extension [.pdf] up to case, which
    the file branch of [find_pdfs] would take, and the pattern [*.pdf]
    of the directory branch does not match it. *)
Theorem find_pdfs_directory_misses_uppercase_extension :
  is_file docs_fs ["docs"; "b.PDF"] = true
  /\ Str.lower (Path.suffix ["docs"; "b.PDF"]) = ".pdf"
  /\ @find_pdfs posix docs_fs [PPath ["docs"]] true "*.pdf" = [["docs"; "a.pdf"]]
  /\ @find_pdfs posix docs_fs [PPath ["docs"; "b.PDF"]] true "*.pdf"
     = [["docs"; "b.PDF"]].
Proof. vm_compute. repeat split; reflexivity. Qed.

(** C8, the counterexample.  With [max_pages = 0] and an output
    directory below the regular file [demo.pdf], the call fails in
    [mkdir], which comes first, with [NotADirectoryError]: not with the
    [ValueError] of the argument check, which is never reached. *)
Lemma split_pdf_nonpositive_max_pages_counterexample :
  max_pages (Options 0 None None true false) <= 0
  /\ @split_pdf posix demo_pdf (Some Sample.blocked_dir) (Options 0 None None true false)
       tmp_world
     = (tmp_world, Raise (NotADirectoryError "/tmp/demo.pdf/a/b")).
Proof. split; [cbn; lia|reflexivity]. Qed.

(** C6, the counterexample.  With the output directory [/tmp/out.pdf]
    and a pattern that renders that very path, a call with [overwrite]
    saves its chunk over the directory it has just made, and returns;
    the source file is as it was.  The same call again fails in
    [mkdir], for [/tmp/out.pdf] is now a regular file: nothing is
    reproduced. *)
Lemma split_pdf_rerun_overwrite_counterexample :
  @split_pdf posix demo_pdf (Some Sample.clash_dir) Sample.clash_opts tmp_world
  = (Sample.clash_world, Ok [Sample.clash])
  /\ stat (fs Sample.clash_world) ["tmp"; "demo.pdf"]
     = stat (fs tmp_world) ["tmp"; "demo.pdf"]
  /\ @split_pdf posix demo_pdf (Some Sample.clash_dir) Sample.clash_opts
       Sample.clash_world
     = (Sample.clash_world, Raise (FileExistsError "/tmp/out.pdf")).
Proof. split; [reflexivity|]. split; reflexivity. Qed.

End Divergences.

(** * Facts about the string helpers *)

Section StringFacts.

Lemma lower_length s : String.length (Str.lower s) = String.length s.
Proof.
  induction s as [|c s IH]; [reflexivity|].
  cbn [Str.lower String.length]. rewrite IH. reflexivity.
Qed.

Lemma lower_app a b : Str.lower (a +:+ b) = Str.lower a +:+ Str.lower b.
Proof.
  induction a as [|c a IH]; [reflexivity|].
  simpl. rewrite IH. reflexivity.
Qed.

Lemma substring_all s : String.substring 0 (String.length s) s = s.
Proof.
  induction s as [|c s IH]; [reflexivity|].
  cbn [String.substring String.length]. rewrite IH. reflexivity.
Qed.

Lemma substring_skip a b :
  String.substring (String.length a) (String.length b) (a +:+ b) = b.
Proof.
  induction a as [|c a IH]; [apply substring_all|].
  simpl. exact IH.
Qed.

Lemma app_length a b :
  String.length (a +:+ b) = (String.length a + String.length b)%nat.
Proof.
  induction a as [|c a IH]; [reflexivity|].
  simpl. rewrite IH. reflexivity.
Qed.

Lemma endswith_app a b : Str.endswith (a +:+ b) b = true.
Proof.
  unfold Str.endswith. rewrite app_length.
  replace (String.length a + String.length b - String.length b)%nat
    with (String.length a) by lia.
  rewrite substring_skip, String.eqb_refl.
  rewrite andb_true_r. apply Nat.leb_le. lia.
Qed.

(** X1.  [_ensure_pdf_suffix] gives a name that ends in [.pdf] whatever
    the case of the letters, adds nothing but [.pdf] at the end, leaves a
    name that already ends so as it is, and changes nothing when applied
    twice. *)
Theorem ensure_pdf_suffix_ends_in_pdf name :
  Str.endswith (Str.lower (_ensure_pdf_suffix name)) ".pdf" = true
  /\ (_ensure_pdf_suffix name = name \/ _ensure_pdf_suffix name = name +:+ ".pdf")
  /\ (_ensure_pdf_suffix name = name <-> Str.endswith (Str.lower name) ".pdf" = true)
  /\ _ensure_pdf_suffix (_ensure_pdf_suffix name) = _ensure_pdf_suffix name.
Proof.
  assert (Hadd : Str.endswith (Str.lower (name +:+ ".pdf")) ".pdf" = true).
  { rewrite lower_app. apply endswith_app. }
  assert (Hne : name +:+ ".pdf" <> name).
  { intros Heq. apply (f_equal String.length) in Heq. rewrite app_length in Heq.
    cbn in Heq. lia. }
  destruct (Str.endswith (Str.lower name) ".pdf") eqn:Hend.
  - assert (Hsame : _ensure_pdf_suffix name = name)
      by (unfold _ensure_pdf_suffix; rewrite Hend; reflexivity).
    rewrite !Hsame. split; [exact Hend|]. split; [left; reflexivity|].
    split; [tauto|reflexivity].
  - assert (Hext : _ensure_pdf_suffix name = name +:+ ".pdf")
      by (unfold _ensure_pdf_suffix; rewrite Hend; reflexivity).
    rewrite !Hext. split; [exact Hadd|]. split; [right; reflexivity|]. split.
    + split; [intros Heq; contradiction | discriminate].
    + unfold _ensure_pdf_suffix. rewrite Hadd. reflexivity.
Qed.

End StringFacts.

(** * What [split_pdf] leaves as it was *)

Section SplitterMore.
Context `{Env}.
Import FS Kinds FSFacts.

(** Before the loop only [mkdir] changes the file system. *)
Lemma prepare_extends input output_dir opts w :
  extends (fs w) (fs (fst (prepare input output_dir opts w))).
Proof.
  unfold prepare, bind, mkdir, raise, fitz_open, lift, ret.
  destruct (mkdir_parents (fs w) _) as [m0|e] eqn:Hmk; [|apply extends_refl].
  apply mkdir_parents_Ok in Hmk as [He _].
  destruct (max_pages opts <=? 0); [exact He|]. cbn [fs].
  destruct (stat m0 _) as [[|[d|]|]|]; try exact He.
  assert (Hfs : fs (fst (check_password d (password opts) (World m0 (calls w)))) = m0).
  { unfold check_password, bind, doc_authenticate, raise, ret.
    destruct (is_encrypted d); [|reflexivity].
    destruct (password opts) as [[|c s]|]; try reflexivity.
    destruct (authenticate d (String c s)); reflexivity. }
  destruct (check_password d (password opts) (World m0 (calls w))) as [w1 [[]|e]];
    cbn [fst] in *; [|rewrite Hfs; exact He].
  destruct (PyNum.ceil_div _ _); cbn [fst]; rewrite Hfs; exact He.
Qed.




(** X6.  With [overwrite] false nothing that [exists()] sees is
    touched, whatever the outcome: a regular file, a directory, a link
    that leads somewhere is the same entry after the call, and leads
    where it led.  (A link that leads nowhere is not seen by
    [exists()]; a chunk saved at its path takes its place.) *)
Theorem split_pdf_without_overwrite_keeps_entries input output_dir opts w x :
  overwrite opts = false ->
  exists_ (fs w) x = true ->
  node_at (fs (fst (split_pdf input output_dir opts w))) x = node_at (fs w) x
  /\ stat (fs (fst (split_pdf input output_dir opts w))) x = stat (fs w) x.
Proof.
  intros Hov Hx.
  assert (Hkeep : keeps (fs w) (fs (fst (split_pdf input output_dir opts w)))).
  { rewrite split_pdf_prepare.
    pose proof (extends_keeps _ _ (prepare_extends input output_dir opts w)) as Hk0.
    destruct (prepare input output_dir opts w) as [w0 [[src parts]|e]]; cbn [fst] in *;
      [|exact Hk0].
    destruct (for_chunks_run input output_dir opts src (range parts) [] w0)
      as (k & steps & _ & _ & _ & _ & Hkeep & _). cbv zeta in Hkeep.
    eapply keeps_trans; [exact Hk0|apply Hkeep, Hov]. }
  split; [apply Hkeep, Hx|apply keeps_stat; assumption].
Qed.

End SplitterMore.

(** * Edge cases of [split_pdf] *)

Section SplitterEdges.
Context `{Env}.
Import FS Kinds FSFacts.

Lemma range_length n : length (range n) = Z.to_nat n.
Proof. unfold range. rewrite List.length_map, List.length_seq. reflexivity. Qed.

Lemma firstn_range (k : nat) (n : Z) :
  (k <= Z.to_nat n)%nat -> List.firstn k (range n) = range (Z.of_nat k).
Proof.
  intros Hk. unfold range. rewrite List.firstn_map, Nat2Z.id.
  change (List.firstn k (seq 0 (Z.to_nat n))) with (take k (seq 0 (Z.to_nat n))).
  rewrite take_seq, Nat.min_l by exact Hk. reflexivity.
Qed.

(** X7.  Chunks are saved in index order without gaps, whatever the
    outcome: once the source is open, the documents saved by the call
    are those of chunks [0 .. k-1] for some [k]; when the call returns,
    [k] is the number of parts and the returned paths are the paths
    saved, in order; when it raises, [k] is smaller. *)
Theorem split_pdf_saves_chunks_in_order input output_dir opts w w0 src parts :
  prepare input output_dir opts w = (w0, Ok (src, parts)) ->
  exists (k : nat) new,
    (k <= Z.to_nat parts)%nat
    /\ saves (calls (fst (split_pdf input output_dir opts w))) = saves (calls w) ++ new
    /\ List.map snd new = List.map (chunk_doc opts src) (range (Z.of_nat k))
    /\ match snd (split_pdf input output_dir opts w) with
       | Ok outs => k = Z.to_nat parts /\ outs = List.map fst new
       | Raise _ => (k < Z.to_nat parts)%nat
       end.
Proof.
  intros Hprep. rewrite split_pdf_prepare.
  pose proof (prepare_saves input output_dir opts w) as Hps.
  rewrite Hprep in *. cbn [fst] in Hps.
  destruct (for_chunks_run input output_dir opts src (range parts) [] w0)
    as (k & steps & Hk & Hplan & _ & Hcalls & _ & Hres). cbv zeta in Hcalls, Hres.
  rewrite range_length in Hk, Hres.
  exists k, (List.map (fun s => (step_path s, snd s)) steps).
  split; [exact Hk|]. split; [|split].
  - rewrite Hcalls, saves_app, saves_step_events, Hps. reflexivity.
  - rewrite List.map_map. cbn [snd].
    rewrite <- (firstn_range k parts Hk).
    apply (plan_docs _ _ _ _ _ _ _ Hplan).
  - destruct (snd (for_chunks _ (range parts) [] w0)) as [outs|e]; [|exact Hres].
    destruct Hres as [-> ->]. split; [reflexivity|].
    rewrite List.map_map. reflexivity.
Qed.

(** X8.  A readable, unencrypted source with no page gives no output:
    the call returns the empty list and saves nothing. *)
Theorem split_pdf_empty_document input output_dir opts w m0 src :
  mkdir_parents (fs w) (output_dir_of (mkPath cwd input) output_dir) = Ok m0 ->
  0 < max_pages opts ->
  stat m0 (mkPath cwd input) = Some (File (Pdf src)) ->
  is_encrypted src = false ->
  doc_pages src = [] ->
  split_pdf input output_dir opts w = (World m0 (calls w), Ok []).
Proof.
  intros Hmk Hpos Hst Henc Hpages. rewrite split_pdf_prepare.
  rewrite (prepare_opened _ _ _ w m0 src) by assumption.
  unfold check_password, ret. rewrite Henc.
  unfold page_count. rewrite Hpages. cbn [length Z.of_nat].
  unfold PyNum.ceil_div, PyNum.true_div.
  destruct (Z.eqb_spec (max_pages opts) 0) as [|_]; [lia|]. reflexivity.
Qed.

(** X9.  When the source path leads nowhere, or to a directory, the
    call fails with the error of [fitz.open] after the output directory
    has been made and before anything is saved: the directory is there
    when the error is raised, and no save has happened. *)
Theorem split_pdf_unreadable_source input output_dir opts w m0 :
  mkdir_parents (fs w) (output_dir_of (mkPath cwd input) output_dir) = Ok m0 ->
  0 < max_pages opts ->
  stat m0 (mkPath cwd input) = None \/ stat m0 (mkPath cwd input) = Some Dir ->
  split_pdf input output_dir opts w
  = (World m0 (calls w),
     Raise (FitzError (match stat m0 (mkPath cwd input) with
                       | None => NoSuchFile
                       | Some _ => NotAFile
                       end) (mkPath cwd input)))
  /\ is_dir m0 (output_dir_of (mkPath cwd input) output_dir) = true.
Proof.
  intros Hmk Hpos Hno.
  pose proof (mkdir_parents_Ok _ _ _ Hmk) as [_ Hdir].
  split; [|exact Hdir].
  unfold split_pdf, bind, mkdir, fitz_open, raise. rewrite Hmk.
  destruct (Z.leb_spec (max_pages opts) 0) as [|_]; [lia|]. cbn [fs].
  destruct Hno as [-> | ->]; reflexivity.
Qed.

Lemma ceil_div_underflow a b :
  0 < a -> a * 2 ^ 1075 <= b -> PyNum.ceil_div a b = Ok 0.
Proof.
  intros Ha Hb.
  assert (Hp1075 : 2 ^ 1075 = 2 * 2 ^ 1074) by (rewrite <- Z.pow_succ_r by lia; reflexivity).
  assert (Hpos : 0 < 2 ^ 1074) by (apply Z.pow_pos_nonneg; lia).
  assert (Hb0 : 0 < b) by nia.
  unfold PyNum.ceil_div, PyNum.true_div.
  destruct (Z.eqb_spec b 0) as [|_]; [lia|].
  destruct (Z.eqb_spec a 0) as [|_]; [lia|].
  rewrite (Z.abs_eq a), (Z.abs_eq b), (Z.sgn_pos a), (Z.sgn_pos b) by lia.
  pose proof (PyNumFacts.quotient_log2_lower a b Ha Hb0) as HL.
  unfold PyNum.round_quotient.
  set (L := PyNum.quotient_log2 a b) in *.
  assert (HLlow : L <= -1022).
  { destruct (Z_le_gt_dec L (-1022)) as [|Hgt]; [assumption|exfalso].
    destruct (Z_le_gt_dec 0 L) as [HL0|HL0].
    - replace (Z.max 0 L) with L in HL by lia.
      replace (Z.max 0 (- L)) with 0 in HL by lia. rewrite Z.pow_0_r in HL.
      assert (0 < 2 ^ L) by (apply Z.pow_pos_nonneg; lia). nia.
    - replace (Z.max 0 L) with 0 in HL by lia.
      replace (Z.max 0 (- L)) with (- L) in HL by lia. rewrite Z.pow_0_r in HL.
      assert (2 ^ (- L) <= 2 ^ 1074) by (apply Z.pow_le_mono_r; lia).
      nia. }
  replace (Z.max (L - 52) (-1074)) with (-1074) by lia.
  change (Z.max 0 (- -1074)) with 1074. change (Z.max 0 (-1074)) with 0.
  rewrite Z.pow_0_r, Z.mul_1_r.
  assert (HM : PyNum.round_half_even (a * 2 ^ 1074) b = 0).
  { unfold PyNum.round_half_even.
    assert (Hsmall : 0 <= a * 2 ^ 1074 < b) by nia.
    rewrite (Z.div_small _ _ Hsmall), (Z.mod_small _ _ Hsmall).
    destruct (Z.ltb_spec (2 * (a * 2 ^ 1074)) b); [reflexivity|].
    destruct (Z.ltb_spec b (2 * (a * 2 ^ 1074))); [lia|reflexivity]. }
  rewrite HM. reflexivity.
Qed.

(** X3.  When [max_pages] is at least [2^1075] times the page count
    the quotient [total / max_pages] is [0.0]: the call counts no part,
    returns the empty list and saves nothing, although the source has
    pages. *)
Theorem split_pdf_underflow_writes_nothing input output_dir opts w w0 src parts :
  prepare input output_dir opts w = (w0, Ok (src, parts)) ->
  0 < page_count src ->
  page_count src * 2 ^ 1075 <= max_pages opts ->
  parts = 0 /\ split_pdf input output_dir opts w = (w0, Ok []).
Proof.
  intros Hprep Hpages Hbig. rewrite split_pdf_prepare, Hprep.
  apply prepare_Ok in Hprep as (m0 & _ & _ & _ & _ & Hceil).
  rewrite (ceil_div_underflow _ _ Hpages Hbig) in Hceil. injection Hceil as <-.
  split; reflexivity.
Qed.

End SplitterEdges.

(** * More about [find_pdfs] *)

Section DiscovererMore.
Context `{Env}.
Import FS.

Lemma is_file_not_dir m p : is_file m p = true -> is_dir m p = false.
Proof. unfold is_file, is_dir. destruct (stat m p) as [[| |]|]; congruence. Qed.

Lemma is_file_key m f : is_file m f = true -> f <> [] -> In f (List.map fst (map_to_list m)).
Proof.
  intros Hf Hne. unfold is_file, stat, resolve in Hf.
  rewrite FSFacts.resolve_n_unfold in Hf.
  destruct (node_at m f) as [nd|] eqn:Hn.
  - apply List.in_map_iff. exists (f, nd). split; [reflexivity|].
    apply list_elem_of_In, elem_of_map_to_list.
    destruct f; [congruence|exact Hn].
  - rewrite Hn in Hf. discriminate.
Qed.

Lemma strictly_below_not_root p f : Glob.strictly_below p f = true -> f <> [].
Proof. destruct p, f; cbn; congruence. Qed.

(** What one input path contributes. *)
Lemma found_at_In m recursive pattern p f :
  In f (found_at m recursive pattern p) <->
  (f = p /\ is_file m p = true /\ Str.lower (Path.suffix p) = ".pdf")
  \/ (is_dir m p = true /\ is_file m f = true
      /\ (if recursive then Glob.strictly_below p f else Glob.child_of p f) = true
      /\ Glob.matches glob_case_sensitive pattern (Path.name f) = true).
Proof.
  unfold found_at.
  destruct (is_file m p && String.eqb (Str.lower (Path.suffix p)) ".pdf")%bool eqn:Hp.
  - apply andb_true_iff in Hp as [Hfile Hsuf]. apply String.eqb_eq in Hsuf.
    split.
    + intros [<-|[]]. left. auto.
    + intros [(-> & _)|(Hdir & _)]; [left; reflexivity|].
      rewrite (is_file_not_dir _ _ Hfile) in Hdir. discriminate.
  - assert (Hnot : ~ (is_file m p = true /\ Str.lower (Path.suffix p) = ".pdf")).
    { intros [Hfile Hsuf]. rewrite Hfile, Hsuf in Hp. discriminate. }
    destruct (is_dir m p) eqn:Hdir.
    + rewrite List.filter_In. unfold rglob, glob.
      destruct recursive; rewrite List.filter_In, andb_true_iff; split.
      * intros [(Hkey & Hb & Hm) Hf]. right. auto.
      * intros [(_ & Hfile & Hsuf)|(_ & Hf & Hb & Hm)]; [tauto|].
        split; [|exact Hf]. split; [|auto].
        apply is_file_key; [exact Hf|]. eapply strictly_below_not_root, Hb.
      * intros [(Hkey & Hb & Hm) Hf]. right. auto.
      * intros [(_ & Hfile & Hsuf)|(_ & Hf & Hb & Hm)]; [tauto|].
        split; [|exact Hf]. split; [|auto].
        apply is_file_key; [exact Hf|].
        unfold Glob.child_of in Hb. apply andb_true_iff in Hb as [Hb _].
        eapply strictly_below_not_root, Hb.
    + split; [intros []|]. intros [(_ & Hfile & Hsuf)|(Hd & _)]; [tauto|discriminate].
Qed.

Lemma unique_resolved_sublist m found :
  forall seen, unique_resolved m found seen `sublist_of` found.
Proof.
  induction found as [|f found IH]; intros seen; cbn [unique_resolved].
  - constructor.
  - destruct (decide (realpath m f ∈ seen)).
    + apply sublist_cons, IH.
    + apply sublist_skip, IH.
Qed.

Lemma unique_resolved_first m l1 f l2 :
  forall seen,
  realpath m f ∉ seen ->
  ~ In (realpath m f) (List.map (realpath m) l1) ->
  In f (unique_resolved m (l1 ++ f :: l2) seen).
Proof.
  induction l1 as [|g l1 IH]; intros seen Hseen Hl1; cbn [app unique_resolved].
  - rewrite decide_False by exact Hseen. left. reflexivity.
  - cbn in Hl1.
    destruct (decide (realpath m g ∈ seen)).
    + apply IH; [exact Hseen|tauto].
    + right. apply IH; [|tauto].
      intros Hin. apply elem_of_union in Hin as [Hin|Hin]; [|contradiction].
      apply elem_of_singleton in Hin. apply Hl1. left. symmetry. exact Hin.
Qed.

Lemma unique_resolved_complete m found f :
  forall seen,
  In f found ->
  realpath m f ∈ seen
  \/ exists g, In g (unique_resolved m found seen) /\ realpath m g = realpath m f.
Proof.
  induction found as [|h found IH]; intros seen Hin; [destruct Hin|].
  cbn [unique_resolved].
  destruct (decide (realpath m h ∈ seen)) as [Hh|Hh].
  - destruct Hin as [->|Hin]; [left; exact Hh|]. apply IH, Hin.
  - destruct Hin as [->|Hin].
    + right. exists f. split; [left|]; reflexivity.
    + destruct (IH ({[realpath m h]} ∪ seen) Hin) as [Hs|(g & Hg & Heq)].
      * apply elem_of_union in Hs as [Hs|Hs]; [|left; exact Hs].
        apply elem_of_singleton in Hs. right. exists h.
        split; [left; reflexivity|]. symmetry. exact Hs.
      * right. exists g. split; [right; exact Hg|exact Heq].
Qed.

Lemma unique_resolved_app m l1 l2 :
  forall seen,
  exists seen',
    seen ⊆ seen'
    /\ unique_resolved m (l1 ++ l2) seen
       = unique_resolved m l1 seen ++ unique_resolved m l2 seen'.
Proof.
  induction l1 as [|f l1 IH]; intros seen; cbn [app unique_resolved].
  - exists seen. split; [reflexivity|reflexivity].
  - destruct (decide (realpath m f ∈ seen)).
    + apply IH.
    + destruct (IH ({[realpath m f]} ∪ seen)) as (seen' & Hsub & Heq).
      exists seen'. split.
      * intros x Hx. apply Hsub, elem_of_union. right. exact Hx.
      * rewrite Heq. reflexivity.
Qed.

Lemma unique_resolved_mono m found :
  forall seen seen',
  seen ⊆ seen' ->
  unique_resolved m found seen' `sublist_of` unique_resolved m found seen.
Proof.
  induction found as [|f found IH]; intros seen seen' Hsub; cbn [unique_resolved].
  - constructor.
  - destruct (decide (realpath m f ∈ seen)) as [Hin|Hout].
    + rewrite decide_True by (apply Hsub, Hin). apply IH, Hsub.
    + assert (Hsub' : {[realpath m f]} ∪ seen ⊆ {[realpath m f]} ∪ seen').
      { intros x Hx. apply elem_of_union in Hx as [Hx|Hx]; apply elem_of_union;
          [left; exact Hx|right; apply Hsub, Hx]. }
      destruct (decide (realpath m f ∈ seen')).
      * apply sublist_cons. apply IH. intros x Hx.
        apply elem_of_union in Hx as [Hx|Hx]; [|apply Hsub, Hx].
        apply elem_of_singleton in Hx. subst x. assumption.
      * apply sublist_skip. apply IH, Hsub'.
Qed.

End DiscovererMore.


Section DiscovererProperties.
Context `{Env}.
Import FS.

Lemma fnmatch_literal c p n :
  Ascii.eqb c "*" = false -> Ascii.eqb c "?" = false ->
  Glob.fnmatch (String c p) n = true ->
  exists n', n = String c n' /\ Glob.fnmatch p n' = true.
Proof.
  intros Hstar Hany. cbn [Glob.fnmatch]. rewrite Hstar.
  destruct n as [|d n]; [discriminate|]. rewrite Hany, orb_false_l.
  intros Hm. apply andb_true_iff in Hm as [Hc Hm]. apply Ascii.eqb_eq in Hc as <-.
  eauto.
Qed.

Lemma fnmatch_dot_pdf n : Glob.fnmatch ".pdf" n = true -> n = ".pdf".
Proof.
  intros Hm.
  apply fnmatch_literal in Hm as (n1 & -> & Hm); [|reflexivity..].
  apply fnmatch_literal in Hm as (n2 & -> & Hm); [|reflexivity..].
  apply fnmatch_literal in Hm as (n3 & -> & Hm); [|reflexivity..].
  apply fnmatch_literal in Hm as (n4 & -> & Hm); [|reflexivity..].
  cbn [Glob.fnmatch] in Hm. apply String.eqb_eq in Hm as ->. reflexivity.
Qed.

Lemma fnmatch_star_pdf n :
  Glob.fnmatch "*.pdf" n = true -> exists stem, n = stem +:+ ".pdf".
Proof.
  induction n as [|c n IH].
  - cbn. discriminate.
  - change (Glob.fnmatch "*.pdf" (String c n))
      with (Glob.fnmatch ".pdf" (String c n) || Glob.fnmatch "*.pdf" n)%bool.
    intros Hm. apply orb_true_iff in Hm as [Hm|Hm].
    + apply fnmatch_dot_pdf in Hm. exists "". exact Hm.
    + destruct (IH Hm) as (stem & ->). exists (String c stem). reflexivity.
Qed.

Lemma found_in_concat m recursive pattern (paths : list pathlike) f :
  In f (List.concat (List.map (fun p => found_at m recursive pattern (mkPath cwd p)) paths))
  <-> exists p, In p paths /\ In f (found_at m recursive pattern (mkPath cwd p)).
Proof.
  rewrite List.in_concat. split.
  - intros (l & Hl & Hf). apply List.in_map_iff in Hl as (p & <- & Hp). eauto.
  - intros (p & Hp & Hf). eexists. split; [|exact Hf].
    apply List.in_map_iff. eauto.
Qed.

Lemma find_pdfs_In_found m paths recursive pattern f :
  In f (find_pdfs m paths recursive pattern) ->
  exists p, In p paths /\ In f (found_at m recursive pattern (mkPath cwd p)).
Proof.
  unfold find_pdfs. intros Hf.
  destruct (unique_resolved_spec m
              (List.concat (List.map (fun p => found_at m recursive pattern (mkPath cwd p))
                              paths)) ∅) as [_ Hsub].
  apply found_in_concat. apply (Hsub f Hf).
Qed.

Lemma find_pdfs_represents m paths recursive pattern p f :
  In p paths -> In f (found_at m recursive pattern (mkPath cwd p)) ->
  exists g, In g (find_pdfs m paths recursive pattern) /\ realpath m g = realpath m f.
Proof.
  intros Hp Hf. unfold find_pdfs.
  destruct (unique_resolved_complete m
              (List.concat (List.map (fun p => found_at m recursive pattern (mkPath cwd p))
                              paths)) f ∅) as [Hs|Hg].
  - apply found_in_concat. eauto.
  - apply elem_of_empty in Hs. destruct Hs.
  - exact Hg.
Qed.

Lemma strictly_below_prefix p :
  forall k, Glob.strictly_below p k = true -> p `prefix_of` k /\ p <> k.
Proof.
  induction p as [|a p IH]; intros [|b k]; cbn; try discriminate.
  - intros _. split; [apply prefix_nil|discriminate].
  - intros Hb. apply andb_true_iff in Hb as [Hab Hb]. apply String.eqb_eq in Hab as ->.
    destruct (IH k Hb) as [Hpre Hne]. split.
    + apply prefix_cons, Hpre.
    + congruence.
Qed.

Lemma child_is_below p k : Glob.child_of p k = true -> Glob.strictly_below p k = true.
Proof. unfold Glob.child_of. intros Hc. apply andb_true_iff in Hc. tauto. Qed.

(** X10. For a pattern of one component without bracket expression
    (the patterns on which [Path.glob] is name matching), every path
    [find_pdfs] returns is a regular file that was asked for: either one
    of the given paths itself, with a [.pdf] extension in any letter
    case (the glob pattern is not applied to it), or an entry below a
    given directory whose name matches the pattern, directly inside it
    unless the scan is recursive. *)
Theorem find_pdfs_returns_only_requested m paths recursive pattern f :
  Glob.plain pattern = true ->
  In f (find_pdfs m paths recursive pattern) ->
  is_file m f = true
  /\ exists p, In p paths
       /\ ((f = mkPath cwd p /\ Str.lower (Path.suffix f) = ".pdf")
           \/ (is_dir m (mkPath cwd p) = true
               /\ Glob.strictly_below (mkPath cwd p) f = true
               /\ (recursive = false -> length f = S (length (mkPath cwd p)))
               /\ Glob.matches glob_case_sensitive pattern (Path.name f) = true)).
Proof.
  intros _ Hf. apply find_pdfs_In_found in Hf as (p & Hp & Hf).
  split; [eapply found_at_is_file, Hf|].
  exists p. split; [exact Hp|].
  apply found_at_In in Hf as [(-> & _ & Hsuf)|(Hdir & _ & Hb & Hm)].
  - left. auto.
  - right. split; [exact Hdir|]. destruct recursive.
    + split; [exact Hb|]. split; [discriminate|exact Hm].
    + split; [apply child_is_below, Hb|]. split; [|exact Hm].
      intros _. unfold Glob.child_of in Hb. apply andb_true_iff in Hb as [_ Hb].
      apply Nat.eqb_eq in Hb. exact Hb.
Qed.

(** X11. For such a pattern nothing that qualifies is lost: a regular
    file that is a given path with a [.pdf] extension, or that has a
    matching name and lies below a given directory (directly inside it
    when the scan is not recursive) with nothing but directories on the
    way down, no link among them, is represented in the result by a
    path with the same resolved location. *)
Theorem find_pdfs_finds_every_match (m : gmap path node) (paths : list pathlike)
    (recursive : bool) (pattern : string) (p : pathlike) (f : path) :
  Glob.plain pattern = true ->
  In p paths ->
  is_file m f = true ->
  (f = mkPath cwd p /\ Str.lower (Path.suffix f) = ".pdf")
  \/ ((forall q, mkPath cwd p `prefix_of` q -> q `prefix_of` f -> q <> f ->
                 node_at m q = Some Dir)
      /\ (if recursive then Glob.strictly_below (mkPath cwd p) f
          else Glob.child_of (mkPath cwd p) f) = true
      /\ Glob.matches glob_case_sensitive pattern (Path.name f) = true) ->
  exists g, In g (find_pdfs m paths recursive pattern)
            /\ realpath m g = realpath m f.
Proof.
  intros _ Hp Hfile Hcase. apply (find_pdfs_represents _ _ _ _ p); [exact Hp|].
  apply found_at_In. destruct Hcase as [(-> & Hsuf)|(Hdirs & Hb & Hm)].
  - left. auto.
  - right. split; [|auto].
    assert (Hbelow : Glob.strictly_below (mkPath cwd p) f = true)
      by (destruct recursive; [exact Hb|apply child_is_below, Hb]).
    apply strictly_below_prefix in Hbelow as [Hpre Hne].
    apply FSFacts.is_dir_of_node, Hdirs; [reflexivity|exact Hpre|exact Hne].
Qed.

(** X12. The result keeps the order of discovery and, of several paths
    with one resolved location, the first: it is a subsequence of the
    paths found, and a found path none of whose predecessors resolves
    to the same location is returned. *)
Theorem find_pdfs_keeps_first_occurrences m paths recursive pattern :
  let found :=
    List.concat (List.map (fun p => found_at m recursive pattern (mkPath cwd p)) paths) in
  find_pdfs m paths recursive pattern `sublist_of` found
  /\ forall l1 f l2,
       found = l1 ++ f :: l2 ->
       ~ In (realpath m f) (List.map (realpath m) l1) ->
       In f (find_pdfs m paths recursive pattern).
Proof.
  cbv zeta. unfold find_pdfs. split.
  - apply unique_resolved_sublist.
  - intros l1 f l2 -> Hl1. apply unique_resolved_first; [|exact Hl1].
    apply not_elem_of_empty.
Qed.

(** X13. Searching a longer list of paths extends the result: the files
    of the first paths come first, unchanged, followed by a subsequence
    of what the remaining paths would give on their own. *)
Theorem find_pdfs_app m paths1 paths2 recursive pattern :
  exists rest,
    find_pdfs m (paths1 ++ paths2) recursive pattern
    = find_pdfs m paths1 recursive pattern ++ rest
    /\ rest `sublist_of` find_pdfs m paths2 recursive pattern.
Proof.
  unfold find_pdfs. rewrite List.map_app, List.concat_app.
  destruct (unique_resolved_app m
              (List.concat (List.map (fun p => found_at m recursive pattern (mkPath cwd p))
                              paths1))
              (List.concat (List.map (fun p => found_at m recursive pattern (mkPath cwd p))
                              paths2)) ∅) as (seen' & Hsub & ->).
  eexists. split; [reflexivity|].
  apply unique_resolved_mono, Hsub.
Qed.

(** X14. With the default glob [*.pdf], a file picked up from a directory
    scan has a name ending in [.pdf]: literally where the platform
    matches names case-sensitively, after lowering otherwise.  Only a
    path given directly can carry another spelling of the extension. *)
Theorem find_pdfs_default_glob_names m paths recursive f :
  In f (find_pdfs m paths recursive "*.pdf") ->
  (exists p, In p paths /\ f = mkPath cwd p)
  \/ Str.endswith (if glob_case_sensitive then Path.name f else Str.lower (Path.name f))
       ".pdf" = true.
Proof.
  intros Hf. apply find_pdfs_In_found in Hf as (p & Hp & Hf).
  apply found_at_In in Hf as [(-> & _ & _)|(_ & _ & _ & Hm)].
  - left. eauto.
  - right. unfold Glob.matches in Hm. destruct glob_case_sensitive.
    + apply fnmatch_star_pdf in Hm as (stem & ->). apply endswith_app.
    + change (Str.lower "*.pdf") with "*.pdf" in Hm.
      apply fnmatch_star_pdf in Hm as (stem & ->). apply endswith_app.
Qed.

(** X15. A recursive search misses nothing a flat one finds: every file
    returned without [recursive] has a representative with the same
    resolved location in the recursive result. *)
Theorem find_pdfs_recursive_covers_flat m paths pattern f :
  In f (find_pdfs m paths false pattern) ->
  exists g, In g (find_pdfs m paths true pattern) /\ realpath m g = realpath m f.
Proof.
  intros Hf. apply find_pdfs_In_found in Hf as (p & Hp & Hf).
  apply (find_pdfs_represents _ _ _ _ p); [exact Hp|].
  apply found_at_In. apply found_at_In in Hf as [Hd|(Hdir & Hfile & Hb & Hm)].
  - left. exact Hd.
  - right. split; [exact Hdir|]. split; [exact Hfile|].
    split; [apply child_is_below, Hb|exact Hm].
Qed.

End DiscovererProperties.

(** * Batches and the command line *)

Section BatchMore.
Context `{Env}.
Import FS.

Lemma split_pdf_output_dir input (od1 od2 : option pathlike) opts :
  output_dir_of (mkPath cwd input) od1 = output_dir_of (mkPath cwd input) od2 ->
  split_pdf input od1 opts = split_pdf input od2 opts.
Proof. intros Hod. unfold split_pdf. cbv zeta. rewrite Hod. reflexivity. Qed.

Lemma bind_ret {A} (c : M A) w : (let! a := c in ret a) w = c w.
Proof. unfold bind, ret. destruct (c w) as [w' [a|e]]; reflexivity. Qed.

Lemma find_pdfs_one_file m (p : path) recursive pattern :
  is_file m p = true -> Str.lower (Path.suffix p) = ".pdf" ->
  find_pdfs m [PPath p] recursive pattern = [p].
Proof.
  intros Hfile Hsuf. unfold find_pdfs, found_at. cbn [List.map List.concat mkPath].
  assert (Hc : (is_file m p && String.eqb (Str.lower (Path.suffix p)) ".pdf")%bool = true)
    by (rewrite Hfile, Hsuf; reflexivity).
  rewrite Hc. cbn [app unique_resolved].
  rewrite decide_False by apply not_elem_of_empty. reflexivity.
Qed.

(** X16. A batch of one file is a single split.  For a regular file
    with a [.pdf] extension given directly, [split_many] does what
    [split_pdf] does on it, with one difference in the arguments: an
    empty string as output directory means the directory of the source
    to [split_many], where [split_pdf] would take it as a path. *)
Theorem split_many_single_file (p : path) (output_dir : option pathlike) recursive opts w :
  is_file (fs w) p = true ->
  Str.lower (Path.suffix p) = ".pdf" ->
  split_many [PPath p] output_dir recursive opts w
  = split_pdf (PPath p)
      (match output_dir with
       | Some d => if truthy d then Some d else None
       | None => None
       end) opts w.
Proof.
  intros Hfile Hsuf. unfold split_many.
  rewrite (find_pdfs_one_file _ _ _ _ Hfile Hsuf).
  cbn [split_each app].
  rewrite (split_pdf_output_dir (PPath p) _
             (match output_dir with
              | Some d => if truthy d then Some d else None
              | None => None
              end)).
  - apply (bind_ret (split_pdf (PPath p) _ opts) w).
  - unfold out_dir_for, output_dir_of. cbn [mkPath].
    destruct output_dir as [d|]; [|reflexivity].
    destruct (truthy d); reflexivity.
Qed.

Lemma batch_loop_split_each (out : option path) opts pdfs :
  forall produced w,
  Cli.batch_loop out opts pdfs produced w
  = split_each (option_map PPath out) opts pdfs produced w.
Proof.
  induction pdfs as [|pdf pdfs IH]; intros produced w; [reflexivity|].
  cbn [Cli.batch_loop split_each]. unfold bind.
  assert (Hdir : match out with Some o => o | None => Path.parent pdf end
                 = out_dir_for (option_map PPath out) pdf).
  { destruct out; reflexivity. }
  rewrite Hdir.
  destruct (split_pdf (PPath pdf) _ opts w) as [w' [outs|e]]; [apply IH|reflexivity].
Qed.

(** X17. The [batch] command with the default glob is [split_many]
    behind an argument check: given at least one path and a chunk size
    of at least 1, it leaves the world [split_many] leaves, exits with
    status 0 after echoing the paths [split_many] returns, and ends
    with the exception [split_many] raises. *)
Theorem cli_batch_is_split_many (paths : list string) recursive max_pages
    (out : option string) pattern overwrite password no_metadata w :
  paths <> [] ->
  1 <= max_pages ->
  Cli.batch paths recursive "*.pdf" max_pages out pattern overwrite password no_metadata w
  = match split_many (List.map (fun s => PPath (Path.of_string cwd s)) paths)
            (option_map (fun o => PPath (Path.of_string cwd o)) out) recursive
            (Options max_pages pattern password (negb no_metadata) overwrite) w with
    | (w', Ok outputs) => (w', Exit 0 outputs)
    | (w', Raise e) => (w', Crash e)
    end.
Proof.
  intros Hpaths Hmp. unfold Cli.batch, split_many.
  destruct paths as [|s paths]; [congruence|].
  destruct (Z.ltb_spec max_pages 1) as [|_]; [lia|].
  destruct (find_pdfs (fs w) _ recursive "*.pdf") as [|pdf pdfs]; [reflexivity|].
  rewrite batch_loop_split_each.
  destruct out; reflexivity.
Qed.

Lemma split_pdf_returned_are_saved input output_dir opts w w' outs :
  split_pdf input output_dir opts w = (w', Ok outs) ->
  exists new, saves (calls w') = saves (calls w) ++ new /\ outs = List.map fst new.
Proof.
  rewrite split_pdf_prepare.
  pose proof (prepare_saves input output_dir opts w) as Hps.
  destruct (prepare input output_dir opts w) as [w0 [[src parts]|e]]; [|discriminate].
  cbn [fst] in Hps.
  destruct (for_chunks_run input output_dir opts src (range parts) [] w0)
    as (k & steps & _ & _ & _ & Hcalls & _ & Hres). cbv zeta in Hcalls, Hres.
  intros Hrun. rewrite Hrun in Hcalls, Hres. cbn [fst snd] in Hcalls, Hres.
  destruct Hres as [_ ->].
  exists (List.map (fun s => (step_path s, snd s)) steps). split.
  - rewrite Hcalls, saves_app, saves_step_events, Hps. reflexivity.
  - rewrite List.map_map. reflexivity.
Qed.

(** X18. The outcomes of the [split] command.  Status 2 means an
    argument was refused (the input path leads nowhere or the chunk
    size is below 1) and nothing was touched.  Status 0 means the
    echoed paths are exactly the files this run saved, in the order it
    saved them.  An uncaught exception was raised by [split_pdf], on
    an input path that exists and a chunk size of at least 1. *)
Theorem cli_split_outcomes (input_pdf : string) (max_pages : Z) (out : option string)
    (pattern password : option string) (overwrite no_metadata : bool) (w : world) :
  let input := Path.of_string cwd input_pdf in
  match Cli.split input_pdf max_pages out pattern password overwrite no_metadata w with
  | (w', Exit code echoed) =>
      (code = 2 /\ echoed = [] /\ w' = w
       /\ (exists_ (fs w) input = false \/ max_pages < 1))
      \/ (code = 0 /\ exists_ (fs w) input = true /\ 1 <= max_pages
          /\ exists new, saves (calls w') = saves (calls w) ++ new
                         /\ echoed = List.map fst new)
  | (w', Crash e) =>
      exists_ (fs w) input = true /\ 1 <= max_pages
      /\ split_pdf (PPath input) (option_map (fun o => PPath (Path.of_string cwd o)) out)
           (Options max_pages pattern password (negb no_metadata) overwrite) w
         = (w', Raise e)
  end.
Proof.
  cbv zeta. unfold Cli.split.
  destruct (exists_ (fs w) (Path.of_string cwd input_pdf)) eqn:Hex; cbn [negb orb].
  - destruct (Z.ltb_spec max_pages 1) as [Hlt|Hge].
    + left. auto.
    + destruct (split_pdf _ _ _ w) as [w' [outs|e]] eqn:Hrun.
      * right. split; [reflexivity|]. split; [reflexivity|]. split; [exact Hge|].
        eapply split_pdf_returned_are_saved, Hrun.
      * auto.
  - left. auto.
Qed.

End BatchMore.

(** * The names of the output files *)

Section OutputNames.
Context `{Env}.
Import FS Kinds FSFacts.

Lemma append_cons x a b : String x a +:+ b = String x (a +:+ b).
Proof. reflexivity. Qed.

Lemma append_assoc a b c : (a +:+ b) +:+ c = a +:+ (b +:+ c).
Proof.
  induction a as [|x a IH]; [reflexivity|]. rewrite !append_cons, IH. reflexivity.
Qed.

Lemma append_empty a : a +:+ "" = a.
Proof.
  induction a as [|x a IH]; [reflexivity|]. rewrite append_cons, IH. reflexivity.
Qed.

Lemma rev_app_append a b : String.rev_app a b = String.rev_app a "" +:+ b.
Proof.
  revert b. induction a as [|x a IH]; intros b; [reflexivity|].
  cbn [String.rev_app]. rewrite (IH (String x b)), (IH (String x "")), append_assoc.
  reflexivity.
Qed.

Lemma split_slash_free t :
  forall cur, slash_free t -> Str.split_slash_aux cur t = [String.rev cur +:+ t].
Proof.
  induction t as [|c t IH]; intros cur Hfree; cbn [Str.split_slash_aux].
  - rewrite append_empty. reflexivity.
  - destruct (Ascii.eqb_spec c "/") as [->|_].
    + exfalso. apply (Hfree "/"%char); [left|]; reflexivity.
    + rewrite IH by (intros x Hx; apply Hfree; right; exact Hx).
      unfold String.rev. cbn [String.rev_app].
      rewrite (rev_app_append cur (String c "")), append_assoc. reflexivity.
Qed.

Lemma split_slash_tail pre t :
  slash_free t ->
  forall cur, exists init u, Str.split_slash_aux cur (pre +:+ t) = init ++ [u +:+ t].
Proof.
  intros Hfree. induction pre as [|c pre IH]; intros cur.
  - exists [], (String.rev cur). apply split_slash_free, Hfree.
  - rewrite append_cons. cbn [Str.split_slash_aux]. destruct (Ascii.eqb c "/").
    + destruct (IH "") as (init & u & ->). exists (String.rev cur :: init), u. reflexivity.
    + apply IH.
Qed.

Lemma name_of_join base pre t :
  slash_free t -> (2 <= String.length t)%nat ->
  exists u, Path.name (Path.join base (pre +:+ t)) = u +:+ t.
Proof.
  intros Hfree Hlen. unfold Path.name, Path.join, Path.components, Str.split_slash.
  destruct (split_slash_tail pre t Hfree "") as (init & u & ->).
  exists u. rewrite List.filter_app. cbn [List.filter].
  assert (Hkeep : negb (String.eqb (u +:+ t) "" || String.eqb (u +:+ t) ".")%bool = true).
  { destruct (String.eqb_spec (u +:+ t) "") as [He|_].
    - apply (f_equal String.length) in He. rewrite app_length in He. cbn in He. lia.
    - destruct (String.eqb_spec (u +:+ t) ".") as [He|_]; [|reflexivity].
      apply (f_equal String.length) in He. rewrite app_length in He. cbn in He. lia. }
  rewrite Hkeep.
  destruct (Path.is_absolute _); [|rewrite List.app_assoc]; apply List.last_last.
Qed.

Lemma lower_split s :
  forall a b, Str.lower s = a +:+ b ->
  exists a0 b0, s = a0 +:+ b0 /\ Str.lower a0 = a /\ Str.lower b0 = b.
Proof.
  induction s as [|c s IH]; intros a b Heq.
  - destruct a; [|discriminate]. exists "", "". change ("" +:+ b) with b in Heq.
    subst b. auto.
  - destruct a as [|x a].
    + exists "", (String c s). auto.
    + cbn [Str.lower] in Heq. rewrite append_cons in Heq. injection Heq as Hx Hrest.
      destruct (IH a b Hrest) as (a0 & b0 & -> & Ha & Hb).
      exists (String c a0), b0. split; [reflexivity|]. split; [|exact Hb].
      cbn [Str.lower]. rewrite Hx, Ha. reflexivity.
Qed.

Lemma substring_split s :
  forall i, (i <= String.length s)%nat ->
  s = String.substring 0 i s +:+ String.substring i (String.length s - i) s.
Proof.
  induction s as [|c s IH]; intros i Hi.
  - destruct i; [reflexivity|cbn in Hi; lia].
  - destruct i as [|i].
    + cbn [String.substring String.length Nat.sub]. rewrite substring_all. reflexivity.
    + cbn [String.length] in Hi. cbn [String.substring String.length Nat.sub].
      rewrite append_cons. f_equal. apply IH. lia.
Qed.

Lemma endswith_inv s suf : Str.endswith s suf = true -> exists pre, s = pre +:+ suf.
Proof.
  unfold Str.endswith. intros Hend. apply andb_true_iff in Hend as [Hle Heq].
  apply Nat.leb_le in Hle. apply String.eqb_eq in Heq.
  exists (String.substring 0 (String.length s - String.length suf) s).
  pose proof (substring_split s (String.length s - String.length suf)) as Hs.
  replace (String.length s - (String.length s - String.length suf))%nat
    with (String.length suf) in Hs by lia.
  rewrite Heq in Hs. apply Hs. lia.
Qed.

Lemma dot_pdf_slash_free t : Str.lower t = ".pdf" -> slash_free t.
Proof.
  intros Hlow c Hc Heq. subst c.
  destruct t as [|c1 [|c2 [|c3 [|c4 [|c5 t]]]]]; try discriminate.
  cbn [Str.lower] in Hlow. injection Hlow as H1 H2 H3 H4.
  cbn in Hc. destruct Hc as [Hc|[Hc|[Hc|[Hc|[]]]]]; subst;
    [vm_compute in H1|vm_compute in H2|vm_compute in H3|vm_compute in H4]; discriminate.
Qed.

Lemma name_keeps_pdf base s :
  Str.endswith (Str.lower s) ".pdf" = true ->
  Str.endswith (Str.lower (Path.name (Path.join base s))) ".pdf" = true.
Proof.
  intros Hend. apply endswith_inv in Hend as (pre & Hlow).
  apply lower_split in Hlow as (a0 & t & -> & _ & Ht).
  destruct (name_of_join base a0 t) as (u & ->).
  - apply dot_pdf_slash_free, Ht.
  - rewrite <- (lower_length t), Ht. cbn. lia.
  - rewrite lower_app, Ht. apply endswith_app.
Qed.

Lemma ensure_pdf_suffix_lower name :
  Str.endswith (Str.lower (_ensure_pdf_suffix name)) ".pdf" = true.
Proof.
  unfold _ensure_pdf_suffix.
  destruct (Str.endswith (Str.lower name) ".pdf") eqn:Hend; [exact Hend|].
  rewrite lower_app. apply endswith_app.
Qed.

Lemma plan_paths input output_dir opts src m idxs steps :
  plan input output_dir opts src m idxs = Some steps ->
  Forall (fun s => exists idx,
            chunk_path input output_dir opts (page_count src) idx = Ok (step_path s))
         steps.
Proof.
  intros Hplan. apply plan_steps in Hplan.
  induction Hplan as [|idx s idxs steps (Hp & _) _ IH]; constructor; eauto.
Qed.

(** X19. Whatever the pattern renders, every file the call saves has a
    name that ends in [.pdf] up to the case of the letters: the name is
    the last component of the path built from the output directory and
    the rendered name, which may itself hold directories. *)
Theorem split_pdf_saved_names_end_in_pdf input output_dir opts w :
  exists new,
    saves (calls (fst (split_pdf input output_dir opts w))) = saves (calls w) ++ new
    /\ Forall (fun s => Str.endswith (Str.lower (Path.name (fst s))) ".pdf" = true) new.
Proof.
  rewrite split_pdf_prepare.
  pose proof (prepare_saves input output_dir opts w) as Hps.
  destruct (prepare input output_dir opts w) as [w0 [[src parts]|e]]; cbn [fst] in *.
  - destruct (for_chunks_run input output_dir opts src (range parts) [] w0)
      as (k & steps & _ & Hplan & _ & Hcalls & _). cbv zeta in Hcalls.
    exists (List.map (fun s => (step_path s, snd s)) steps). split.
    + rewrite Hcalls, saves_app, saves_step_events, Hps. reflexivity.
    + apply plan_paths in Hplan. apply List.Forall_map.
      eapply List.Forall_impl; [|exact Hplan].
      intros s (idx & Hpath). cbn [fst]. unfold chunk_path in Hpath.
      destruct (str_format _ _ _ _ _ _) as [out_name|e]; [|discriminate].
      injection Hpath as <-. apply name_keeps_pdf, ensure_pdf_suffix_lower.
  - exists []. rewrite app_nil_r. split; [exact Hps|constructor].
Qed.

End OutputNames.

(** * Passwords and the documents saved *)

Section SavedDocuments.
Context `{Env}.
Import FS Kinds FSFacts.

Lemma build_part_plain src start0 end0 keep :
  is_encrypted (build_part src start0 end0 keep) = false
  /\ (keep = false -> doc_metadata (build_part src start0 end0 keep) = []).
Proof.
  unfold build_part, set_metadata, insert_pdf, new_document. cbn [is_encrypted doc_metadata].
  destruct keep.
  - split; [|discriminate]. destruct (metadata_accepted (doc_metadata src)); reflexivity.
  - split; reflexivity.
Qed.

(** X20. A password given for a source that is not encrypted is never
    tried and changes nothing: the call runs as it does without one.
    The same holds when the source path leads to no PDF at all. *)
Theorem split_pdf_password_unused_when_unencrypted
    input output_dir mp pat pw keep ow w :
  (forall src, stat (fs w) (mkPath cwd input) = Some (File (Pdf src)) ->
               is_encrypted src = false) ->
  split_pdf input output_dir (Options mp pat pw keep ow) w
  = split_pdf input output_dir (Options mp pat None keep ow) w
  /\ auth_attempts (calls (fst (split_pdf input output_dir (Options mp pat pw keep ow) w)))
     = auth_attempts (calls w).
Proof.
  intros Hplain.
  assert (Hsame : split_pdf input output_dir (Options mp pat pw keep ow) w
                  = split_pdf input output_dir (Options mp pat None keep ow) w).
  { unfold split_pdf, bind, mkdir, fitz_open, raise. cbn [max_pages password].
    destruct (mkdir_parents (fs w) _) as [m0|e] eqn:Hmk; [|reflexivity].
    apply mkdir_parents_Ok in Hmk as [He _].
    destruct (mp <=? 0); [reflexivity|]. cbn [fs].
    destruct (stat m0 (mkPath cwd input)) as [[|[d|]|]|] eqn:Hst; try reflexivity.
    apply (stat_extends_file_back _ _ _ _ He) in Hst. apply Hplain in Hst.
    unfold check_password. rewrite Hst. reflexivity. }
  split; [exact Hsame|]. rewrite Hsame. rewrite split_pdf_prepare.
  destruct (prepare input output_dir (Options mp pat None keep ow) w)
    as [w0 [[src parts]|e]] eqn:Hprep.
  - assert (Hw0 : auth_attempts (calls w0) = auth_attempts (calls w)).
    { revert Hprep. unfold prepare, bind, mkdir, fitz_open, raise, lift, ret.
      cbn [max_pages password].
      destruct (mkdir_parents (fs w) _) as [m0|e]; [|discriminate].
      destruct (mp <=? 0); [discriminate|]. cbn [fs].
      destruct (stat m0 (mkPath cwd input)) as [[|[d|]|]|]; try discriminate.
      unfold check_password. destruct (is_encrypted d); [discriminate|].
      destruct (PyNum.ceil_div _ _); [|discriminate].
      intros [= <- _ _]. reflexivity. }
    destruct (for_chunks_run input output_dir (Options mp pat None keep ow) src
                (range parts) [] w0) as (k & steps & _ & _ & _ & Hcalls & _).
    cbv zeta in Hcalls. rewrite Hcalls. unfold auth_attempts in *.
    rewrite List.flat_map_app, Hw0.
    assert (Hnone : List.flat_map
                      (fun ev => match ev with
                                 | EvAuthenticate pw0 => [pw0]
                                 | EvSave _ _ => []
                                 end) (List.map step_event steps) = []).
    { clear. induction steps as [|s steps IH]; [reflexivity|exact IH]. }
    rewrite Hnone. apply app_nil_r.
  - cbn [fst]. revert Hprep. unfold prepare, bind, mkdir, fitz_open, raise, lift, ret.
    cbn [max_pages password].
    destruct (mkdir_parents (fs w) _) as [m0|e0]; [|intros [= <- _]; reflexivity].
    destruct (mp <=? 0); [intros [= <- _]; reflexivity|]. cbn [fs].
    destruct (stat m0 (mkPath cwd input)) as [[|[d|]|]|];
      try (intros [= <- _]; reflexivity).
    unfold check_password. destruct (is_encrypted d); [intros [= <- _]; reflexivity|].
    destruct (PyNum.ceil_div _ _); intros [= <- _]; reflexivity.
Qed.

(** X21. The documents saved are new ones: none is encrypted, whatever
    the source, and with [keep_metadata] off none carries metadata. *)
Theorem split_pdf_saves_plain_documents input output_dir opts w :
  exists new,
    saves (calls (fst (split_pdf input output_dir opts w))) = saves (calls w) ++ new
    /\ Forall (fun s => is_encrypted (snd s) = false
                        /\ (keep_metadata opts = false -> doc_metadata (snd s) = []))
              new.
Proof.
  rewrite split_pdf_prepare.
  pose proof (prepare_saves input output_dir opts w) as Hps.
  destruct (prepare input output_dir opts w) as [w0 [[src parts]|e]]; cbn [fst] in *.
  - destruct (for_chunks_run input output_dir opts src (range parts) [] w0)
      as (k & steps & _ & Hplan & _ & Hcalls & _). cbv zeta in Hcalls.
    exists (List.map (fun s => (step_path s, snd s)) steps). split.
    + rewrite Hcalls, saves_app, saves_step_events, Hps. reflexivity.
    + apply plan_docs in Hplan. apply List.Forall_map. apply List.Forall_forall.
      intros s Hs. cbn [snd].
      assert (Hin : In (snd s) (List.map (chunk_doc opts src) (List.firstn k (range parts)))).
      { rewrite <- Hplan. apply List.in_map, Hs. }
      apply List.in_map_iff in Hin as (idx & <- & _).
      apply build_part_plain.
  - exists []. rewrite app_nil_r. split; [exact Hps|constructor].
Qed.

End SavedDocuments.

(** * The statements at concrete inputs *)

Section Witnesses.
Import FS Kinds Example.

Lemma split_pdf_rejects_nonpositive_max_pages_witness :
  @split_pdf Example.posix demo_pdf None (Options 0 None None true false)
    Example.tmp_world
  = (World Example.tmp_fs [], Raise (ValueError "max_pages must be > 0"))
  /\ (forall p c, node_at Example.tmp_fs p = Some (File c)
                  <-> node_at (fs Example.tmp_world) p = Some (File c)).
Proof.
  apply (@split_pdf_rejects_nonpositive_max_pages Example.posix demo_pdf None
           (Options 0 None None true false) Example.tmp_world).
  cbn. lia.
Defined.

(** The directories [/out], [/out/a] and [/out/a/b] are not there
    before the call and are there when it fails. *)
Lemma split_pdf_makes_directory_before_validation_witness :
  is_dir Example.tmp_fs ["out"] = false
  /\ @split_pdf Example.posix demo_pdf (Some (PStr "/out/a/b"))
       (Options (-3) None None true false) Example.tmp_world
     = (World out_fs [], Raise (ValueError "max_pages must be > 0"))
  /\ forall q, q `prefix_of` ["out"; "a"; "b"] -> is_dir out_fs q = true.
Proof.
  split; [reflexivity|].
  apply (@split_pdf_makes_directory_before_validation Example.posix demo_pdf
           (Some (PStr "/out/a/b")) (Options (-3) None None true false)
           Example.tmp_world out_fs).
  - vm_compute. reflexivity.
  - cbn. lia.
  - reflexivity.
Defined.

(** Here [authenticate] would accept the empty password, had it been
    asked. *)
Lemma split_pdf_empty_password_is_no_password_witness :
  @authenticate Example.lenient Example.locked "" = true
  /\ @split_pdf Example.lenient locked_pdf None (Options 10 None (Some "") true false)
       Example.locked_world
     = @split_pdf Example.lenient locked_pdf None (Options 10 None None true false)
         Example.locked_world
  /\ @split_pdf Example.lenient locked_pdf None (Options 10 None (Some "") true false)
       Example.locked_world
     = (World Example.locked_fs [],
        Raise (ValueError "PDF is encrypted: please provide a password."))
  /\ auth_attempts
       (calls (fst (@split_pdf Example.lenient locked_pdf None
                      (Options 10 None (Some "") true false) Example.locked_world)))
     = auth_attempts [].
Proof.
  split; [reflexivity|].
  apply (@split_pdf_empty_password_is_no_password Example.lenient locked_pdf None
           10 None true false Example.locked_world Example.locked_fs Example.locked).
  - reflexivity.
  - lia.
  - reflexivity.
  - reflexivity.
Defined.

Lemma split_pdf_encrypted_source_witness :
  @split_pdf Example.posix locked_pdf None (Options 2 None None true false)
    Example.locked_world
  = (World Example.locked_fs [],
     Raise (ValueError "PDF is encrypted: please provide a password."))
  /\ @split_pdf Example.posix locked_pdf None (Options 2 None (Some "guess") true false)
       Example.locked_world
     = (World Example.locked_fs [EvAuthenticate "guess"],
        Raise (ValueError "Wrong password for encrypted PDF."))
  /\ snd (@split_pdf Example.posix locked_pdf None
            (Options 2 None (Some "secret") true false) Example.locked_world)
     = snd (@split_pdf Example.posix locked_pdf None (Options 2 None None true false)
              (World (<[["tmp"; "locked.pdf"] :=
                          File (Pdf (Document (Example.pages 5) Example.demo_md false))]>
                        Example.locked_fs) [])).
Proof.
  destruct (@split_pdf_encrypted_source Example.posix locked_pdf None 2 None true false
              Example.locked_world Example.locked_fs ["tmp"; "locked.pdf"] Example.locked)
    as (Hnone & Hwrong & Hright).
  - reflexivity.
  - lia.
  - reflexivity.
  - reflexivity.
  - reflexivity.
  - split; [|split].
    + apply Hnone. left. reflexivity.
    + apply Hwrong; [discriminate|reflexivity].
    + apply (Hright "secret" None); [discriminate|reflexivity].
Defined.

(** The second output exists: the first chunk is written, the call
    fails, and the state is the one after the first chunk. *)
Lemma split_pdf_collision_aborts_witness :
  @split_pdf Example.posix demo_pdf None Example.opts10 Example.taken_world
  = (World (<[part_01 := File (Pdf Example.part1)]> Example.taken_fs)
           [EvSave part_01 Example.part1],
     Raise (FileExistsError
              "Output exists: /tmp/demo_part_02.pdf. Use overwrite=True to replace.")).
Proof.
  apply (@split_pdf_collision_aborts Example.posix demo_pdf None Example.opts10
           Example.taken_world Example.taken_world (Example.demo 23) 3 1
           (World (<[part_01 := File (Pdf Example.part1)]> Example.taken_fs)
                  [EvSave part_01 Example.part1])
           [part_01] part_02).
  - reflexivity.
  - reflexivity.
  - lia.
  - reflexivity.
  - reflexivity.
  - reflexivity.
Defined.

(** [odd.pdf] has metadata that [set_metadata] refuses: its two
    chunks are written all the same, without metadata.  [demo.pdf] has
    metadata it accepts. *)
Lemma split_pdf_metadata_copy_best_effort_witness :
  (@metadata_accepted Example.posix (doc_metadata Example.odd) = false
   /\ @split_pdf Example.posix odd_pdf None (Options 2 None None true false)
        Example.odd_world
      = @split_pdf Example.posix odd_pdf None (Options 2 None None false false)
          Example.odd_world
   /\ @split_pdf Example.posix odd_pdf None (Options 2 None None true false)
        Example.odd_world
      = (World (apply_writes (List.map step_write Sample.odd_steps) Example.odd_fs)
               (List.map step_event Sample.odd_steps),
         Ok (List.map step_path Sample.odd_steps))
   /\ Forall (fun s =>
                exists d,
                  node_at (apply_writes (List.map step_write Sample.odd_steps)
                             Example.odd_fs) (step_path s)
                  = Some (File (Pdf d))) Sample.odd_steps)
  /\ (@metadata_accepted Example.posix (doc_metadata (Example.demo 23)) = true
      /\ exists new,
           saves (calls (fst (@split_pdf Example.posix demo_pdf None
                                (Options 10 None None true false) Example.tmp_world)))
           = saves (calls Example.tmp_world) ++ new
           /\ Forall (fun pd => doc_metadata (snd pd) = doc_metadata (Example.demo 23))
                     new).
Proof.
  split; (split; [reflexivity|]).
  - destruct (@split_pdf_metadata_copy_best_effort Example.posix odd_pdf None 2 None None
                false Example.odd_world Example.odd_world Example.odd 2 eq_refl)
      as (Hsame & _ & Hall).
    split; [apply Hsame; reflexivity|].
    destruct (Hall Sample.odd_steps) as (Hrun & _ & _ & Hthere).
    + reflexivity.
    + right. split.
      * apply (bool_decide_unpack _). vm_compute. exact I.
      * repeat constructor.
    + split; [exact Hrun|].
      eapply Forall_impl; [exact Hthere|]. intros s [_ Hs]. exact Hs.
  - apply (@split_pdf_metadata_copy_best_effort Example.posix demo_pdf None 10 None None
             false Example.tmp_world Example.tmp_world (Example.demo 23) 3).
    + reflexivity.
    + reflexivity.
Defined.

(** The first call runs with [overwrite] too; [/tmp] is still a
    directory after it. *)
Lemma split_pdf_rerun_overwrite_witness :
  exists w2 new,
    @split_pdf Example.posix demo_pdf None (Options 10 None None true true) split_world
    = (w2, Ok [part_01; part_02; part_03])
    /\ saves (calls split_world) = saves (calls Example.tmp_world) ++ new
    /\ saves (calls w2) = saves (calls split_world) ++ new
    /\ fs w2 = fs split_world.
Proof.
  apply (@split_pdf_rerun_overwrite Example.posix demo_pdf None 10 None None true true
           Example.tmp_world split_world [part_01; part_02; part_03]).
  - reflexivity.
  - reflexivity.
  - intros _. split; [reflexivity|]. repeat constructor.
Defined.

End Witnesses.

(** * The further properties at concrete inputs *)

Section MoreWitnesses.
Import FS Kinds Example Sample.

(** The 23 pages of [demo.pdf] in chunks of 10. *)
Lemma split_pdf_partition_witness :
  @split_pdf posix demo_pdf None opts10 tmp_world
  = (World (apply_writes (List.map step_write demo_steps) tmp_fs)
           (calls tmp_world ++ List.map step_event demo_steps),
     Ok (List.map step_path demo_steps))
  /\ Z.of_nat (length demo_steps) = (page_count (demo 23) + 10 - 1) / 10
  /\ List.concat (List.map (fun s => doc_pages (snd s)) demo_steps) = doc_pages (demo 23)
  /\ forall i s, demo_steps !! i = Some s ->
       Z.of_nat (length (doc_pages (snd s)))
       = if Z.of_nat i + 1 <? (page_count (demo 23) + 10 - 1) / 10 then 10
         else page_count (demo 23) - 10 * ((page_count (demo 23) + 10 - 1) / 10 - 1).
Proof.
  apply (@split_pdf_partition posix demo_pdf None 10 None None true false
           tmp_world tmp_fs (demo 23) demo_steps).
  - reflexivity.
  - split; [lia|]. apply Z.pow_le_mono_r with (a := 2) (b := 4) (c := 1074); lia.
  - reflexivity.
  - reflexivity.
  - change (23 <= 2 ^ 52). apply Z.pow_le_mono_r with (a := 2) (b := 5) (c := 52); lia.
  - reflexivity.
  - right. split.
    + apply (bool_decide_unpack _). vm_compute. exact I.
    + repeat constructor.
Defined.

(** [demo.pdf] with [max_pages = 10**400]. *)
Lemma split_pdf_underflow_writes_nothing_witness :
  @prepare posix demo_pdf None (Options huge None None true false) tmp_world
  = (tmp_world, Ok (demo 23, 0))
  /\ @split_pdf posix demo_pdf None (Options huge None None true false) tmp_world
     = (tmp_world, Ok []).
Proof.
  assert (Hprep : @prepare posix demo_pdf None (Options huge None None true false) tmp_world
                  = (tmp_world, Ok (demo 23, 0))) by reflexivity.
  split; [exact Hprep|].
  apply (@split_pdf_underflow_writes_nothing posix demo_pdf None
           (Options huge None None true false) tmp_world tmp_world (demo 23) 0).
  - exact Hprep.
  - reflexivity.
  - apply Z.leb_le. vm_compute. reflexivity.
Defined.

(** The file already standing where the second chunk would go. *)
Lemma split_pdf_without_overwrite_keeps_entries_witness :
  node_at (fs (fst (@split_pdf posix demo_pdf None opts10 taken_world))) part_02
  = node_at (fs taken_world) part_02
  /\ stat (fs (fst (@split_pdf posix demo_pdf None opts10 taken_world))) part_02
     = stat (fs taken_world) part_02.
Proof.
  apply (@split_pdf_without_overwrite_keeps_entries posix demo_pdf None opts10
           taken_world part_02).
  - reflexivity.
  - reflexivity.
Defined.

Lemma split_pdf_saves_chunks_in_order_witness :
  exists (k : nat) new,
    (k <= Z.to_nat 3)%nat
    /\ saves (calls (fst (@split_pdf posix demo_pdf None opts10 taken_world)))
       = saves (calls taken_world) ++ new
    /\ List.map snd new
       = List.map (@chunk_doc posix opts10 (demo 23)) (range (Z.of_nat k))
    /\ match snd (@split_pdf posix demo_pdf None opts10 taken_world) with
       | Ok outs => k = Z.to_nat 3 /\ outs = List.map fst new
       | Raise _ => (k < Z.to_nat 3)%nat
       end.
Proof.
  apply (@split_pdf_saves_chunks_in_order posix demo_pdf None opts10 taken_world
           taken_world (demo 23) 3).
  reflexivity.
Defined.

Lemma split_pdf_empty_document_witness :
  @split_pdf posix blank_pdf None opts10 (World blank_fs [])
  = (World blank_fs [], Ok []).
Proof.
  apply (@split_pdf_empty_document posix blank_pdf None opts10 (World blank_fs [])
           blank_fs (demo 0)).
  - reflexivity.
  - cbn. lia.
  - reflexivity.
  - reflexivity.
  - reflexivity.
Defined.

(** Nothing at [/tmp/gone.pdf]. *)
Lemma split_pdf_unreadable_source_witness :
  @split_pdf posix (PPath ["tmp"; "gone.pdf"]) (Some (PStr "/out")) opts10
    (World notes_fs [])
  = (World (<[["out"] := Dir]> notes_fs) [],
     Raise (FitzError
              (match stat (<[["out"] := Dir]> notes_fs) ["tmp"; "gone.pdf"] with
               | None => NoSuchFile
               | Some _ => NotAFile
               end) ["tmp"; "gone.pdf"]))
  /\ is_dir (<[["out"] := Dir]> notes_fs) ["out"] = true.
Proof.
  apply (@split_pdf_unreadable_source posix (PPath ["tmp"; "gone.pdf"])
           (Some (PStr "/out")) opts10 (World notes_fs []) (<[["out"] := Dir]> notes_fs)).
  - reflexivity.
  - cbn. lia.
  - left. reflexivity.
Defined.

Lemma find_pdfs_returns_only_requested_witness :
  is_file docs_fs ["docs"; "a.pdf"] = true
  /\ exists p, In p [PPath ["docs"]]
       /\ ((["docs"; "a.pdf"] = mkPath (@cwd posix) p
            /\ Str.lower (Path.suffix ["docs"; "a.pdf"]) = ".pdf")
           \/ (is_dir docs_fs (mkPath (@cwd posix) p) = true
               /\ Glob.strictly_below (mkPath (@cwd posix) p) ["docs"; "a.pdf"] = true
               /\ (false = false
                   -> length ["docs"; "a.pdf"] = S (length (mkPath (@cwd posix) p)))
               /\ Glob.matches (@glob_case_sensitive posix) "?.pdf"
                    (Path.name ["docs"; "a.pdf"]) = true)).
Proof.
  apply (@find_pdfs_returns_only_requested posix docs_fs [PPath ["docs"]] false "?.pdf"
           ["docs"; "a.pdf"]).
  - reflexivity.
  - vm_compute. left. reflexivity.
Defined.

(** The link [a2.pdf] is found too and is represented by [a.pdf], to
    which it resolves. *)
Lemma find_pdfs_finds_every_match_witness :
  exists g, In g (@find_pdfs posix docs_fs [PPath ["docs"]] false "*.pdf")
            /\ realpath docs_fs g = realpath docs_fs ["docs"; "a2.pdf"].
Proof.
  apply (@find_pdfs_finds_every_match posix docs_fs [PPath ["docs"]] false "*.pdf"
           (PPath ["docs"]) ["docs"; "a2.pdf"]).
  - reflexivity.
  - left. reflexivity.
  - reflexivity.
  - right. split; [|vm_compute; auto].
    intros q [k1 Hk1] [k2 Hk2] Hne. cbn [mkPath] in Hk1. subst q.
    destruct k1 as [|a k1]; [reflexivity|exfalso].
    destruct k1 as [|b k1]; cbn in Hk2.
    + destruct k2 as [|c k2]; [|destruct k2; discriminate].
      apply Hne. cbn. injection Hk2 as <-. reflexivity.
    + destruct k2; destruct k1; discriminate.
Defined.

Lemma find_pdfs_default_glob_names_witness :
  (exists p, In p [PPath ["docs"]] /\ ["docs"; "a.pdf"] = mkPath (@cwd posix) p)
  \/ Str.endswith (if @glob_case_sensitive posix then Path.name ["docs"; "a.pdf"]
                   else Str.lower (Path.name ["docs"; "a.pdf"])) ".pdf" = true.
Proof.
  apply (@find_pdfs_default_glob_names posix docs_fs [PPath ["docs"]] true
           ["docs"; "a.pdf"]).
  vm_compute. left. reflexivity.
Defined.

Lemma find_pdfs_recursive_covers_flat_witness :
  exists g, In g (@find_pdfs posix docs_fs [PPath ["docs"]] true "*.pdf")
            /\ realpath docs_fs g = realpath docs_fs ["docs"; "a.pdf"].
Proof.
  apply (@find_pdfs_recursive_covers_flat posix docs_fs [PPath ["docs"]] "*.pdf"
           ["docs"; "a.pdf"]).
  vm_compute. left. reflexivity.
Defined.

(** An empty string as output directory: [split_many] writes next to
    the source. *)
Lemma split_many_single_file_witness :
  @split_many posix [PPath ["tmp"; "demo.pdf"]] (Some (PStr "")) true opts10 tmp_world
  = @split_pdf posix (PPath ["tmp"; "demo.pdf"]) None opts10 tmp_world.
Proof.
  apply (@split_many_single_file posix ["tmp"; "demo.pdf"] (Some (PStr "")) true opts10
           tmp_world).
  - reflexivity.
  - reflexivity.
Defined.

Lemma cli_batch_is_split_many_witness :
  @Cli.batch posix ["/tmp"] true "*.pdf" 10 None None false None false tmp_world
  = match @split_many posix
            (List.map (fun s => PPath (Path.of_string (@cwd posix) s)) ["/tmp"])
            (option_map (fun o => PPath (Path.of_string (@cwd posix) o)) None) true
            (Options 10 None None (negb false) false) tmp_world with
    | (w', Ok outputs) => (w', Exit 0 outputs)
    | (w', Raise e) => (w', Crash e)
    end.
Proof.
  apply (@cli_batch_is_split_many posix ["/tmp"] true 10 None None false None false
           tmp_world).
  - discriminate.
  - lia.
Defined.

(** A password offered for the unencrypted [demo.pdf]. *)
Lemma split_pdf_password_unused_when_unencrypted_witness :
  @split_pdf posix demo_pdf None (Options 10 None (Some "guess") true false) tmp_world
  = @split_pdf posix demo_pdf None (Options 10 None None true false) tmp_world
  /\ auth_attempts
       (calls (fst (@split_pdf posix demo_pdf None
                      (Options 10 None (Some "guess") true false) tmp_world)))
     = auth_attempts (calls tmp_world).
Proof.
  apply (@split_pdf_password_unused_when_unencrypted posix demo_pdf None 10 None
           (Some "guess") true false tmp_world).
  intros src Hsrc. vm_compute in Hsrc. injection Hsrc as <-. reflexivity.
Defined.

End MoreWitnesses.

(** * The model on examples *)

Section Examples.
Import FS Kinds Example.

Example suffix_upper : Path.suffix ["d"; "b.PDF"] = ".PDF".
Proof. reflexivity. Qed.

Example stem_demo : Path.stem ["tmp"; "demo.pdf"] = "demo".
Proof. reflexivity. Qed.

Example suffix_hidden : Path.suffix ["home"; ".bashrc"] = "".
Proof. reflexivity. Qed.

Example join_rel : Path.join ["out"] "sub/x.pdf" = ["out"; "sub"; "x.pdf"].
Proof. reflexivity. Qed.

Example join_abs : Path.join ["out"] "/tmp/x.pdf" = ["tmp"; "x.pdf"].
Proof. reflexivity. Qed.

Example suffix_kept : _ensure_pdf_suffix "part.PDF" = "part.PDF".
Proof. reflexivity. Qed.

Example suffix_added : _ensure_pdf_suffix "part" = "part.pdf".
Proof. reflexivity. Qed.

Example ceil_23_10 : PyNum.ceil_div 23 10 = Ok 3.
Proof. reflexivity. Qed.

Example ceil_10_10 : PyNum.ceil_div 10 10 = Ok 1.
Proof. reflexivity. Qed.

Example ceil_7_2 : PyNum.ceil_div 7 2 = Ok 4.
Proof. reflexivity. Qed.

Example ceil_1_3 : PyNum.ceil_div 1 3 = Ok 1.
Proof. reflexivity. Qed.

(** Beyond [2^53] the quotient is rounded before [math.ceil] sees it. *)
Example ceil_big : PyNum.ceil_div (2 ^ 53 + 1) 1 = Ok (2 ^ 53).
Proof. vm_compute. reflexivity. Qed.

(** The smallest subnormal is [2^-1074]; half of it rounds to zero. *)
Example ceil_min_subnormal : PyNum.ceil_div 1 (2 ^ 1074) = Ok 1.
Proof. vm_compute. reflexivity. Qed.

Example ceil_half_min_subnormal : PyNum.ceil_div 1 (2 ^ 1075) = Ok 0.
Proof. vm_compute. reflexivity. Qed.

Example div_overflow :
  PyNum.true_div (2 ^ 1024) 1
  = Raise (OverflowError "integer division result too large for a float").
Proof. vm_compute. reflexivity. Qed.

Example format_default :
  py_format default_pattern "demo" 3 2 21 23 = Ok "demo_part_03.pdf".
Proof. vm_compute. reflexivity. Qed.

Example format_fields :
  py_format "{stem}-{i0}-{start:03d}-{end}" "demo" 3 2 21 23 = Ok "demo-2-021-23".
Proof. vm_compute. reflexivity. Qed.

Example format_unknown_field :
  py_format "{stem}-{page}" "demo" 3 2 21 23 = Raise (KeyError "page").
Proof. vm_compute. reflexivity. Qed.

(** [test_split_basic]: three outputs, with 10, 10 and 3 pages. *)
Example test_split_basic :
  snd (@split_pdf posix demo_pdf None opts10 tmp_world)
  = Ok [part_01; part_02; part_03]
  /\ List.map (fun pd => length (doc_pages (snd pd))) (saves (calls split_world))
     = [10; 10; 3]%nat.
Proof. vm_compute. split; reflexivity. Qed.

(** Ten pages in chunks of ten: one output with the ten pages. *)
Example split_ten_pages :
  let w := World (<[["tmp"; "demo.pdf"] := File (Pdf (demo 10))]> tmp_fs) [] in
  snd (@split_pdf posix demo_pdf None opts10 w) = Ok [part_01]
  /\ List.map (fun pd => doc_pages (snd pd))
       (saves (calls (fst (@split_pdf posix demo_pdf None opts10 w))))
     = [pages 10].
Proof. vm_compute. split; reflexivity. Qed.

(** A second run without [overwrite] stops at the first output. *)
Example split_twice :
  @split_pdf posix demo_pdf None opts10 split_world
  = (split_world,
     Raise (FileExistsError
              "Output exists: /tmp/demo_part_01.pdf. Use overwrite=True to replace.")).
Proof. reflexivity. Qed.

(** [save] puts a new file in place of what stands at the path: a link
    that leads nowhere is replaced even without [overwrite], for
    [exists()] does not see it. *)
Example split_over_dangling_link :
  FS.exists_ Sample.dangling_fs part_01 = false
  /\ FS.node_at (fs (fst (@split_pdf posix demo_pdf None opts10
                            (World Sample.dangling_fs [])))) part_01
     = Some (File (Pdf part1))
  /\ FS.node_at (fs (fst (@split_pdf posix demo_pdf None opts10
                            (World Sample.dangling_fs [])))) ["tmp"; "gone.pdf"]
     = None.
Proof. split; [reflexivity|]. split; reflexivity. Qed.

(** With [overwrite], a link to the source at the path of the first
    chunk is replaced by the chunk; the source is not written to. *)
Example split_over_link_to_source :
  let w := World (<[part_01 := Symlink ["tmp"; "demo.pdf"]]> tmp_fs) [] in
  let after := fs (fst (@split_pdf posix demo_pdf None
                          (Options 10 None None true true) w)) in
  FS.node_at after part_01 = Some (File (Pdf part1))
  /\ FS.node_at after ["tmp"; "demo.pdf"] = Some (File (Pdf (demo 23))).
Proof. split; reflexivity. Qed.

(** A directory with an entry cannot be saved over. *)
Example split_over_directory :
  let w := World (<[part_01 ++ ["x"] := File (Raw "x")]> (<[part_01 := Dir]> tmp_fs)) [] in
  @split_pdf posix demo_pdf None (Options 10 None None true true) w
  = (w, Raise (FitzError CannotSave part_01)).
Proof. reflexivity. Qed.

(** The discovery example elsewhere: with the case rule of Windows the
    directory gives both files; given one by one, the four paths give
    both files on POSIX too. *)
Example find_pdfs_windows :
  @find_pdfs windows docs_fs [PPath ["docs"]] true "*.pdf"
  = [["docs"; "a.pdf"]; ["docs"; "b.PDF"]].
Proof. vm_compute. reflexivity. Qed.

Example find_pdfs_files :
  @find_pdfs posix docs_fs
     [PPath ["docs"; "a.pdf"]; PPath ["docs"; "b.PDF"]; PPath ["docs"; "c.txt"];
      PPath ["docs"; "a2.pdf"]] true "*.pdf"
  = [["docs"; "a.pdf"]; ["docs"; "b.PDF"]].
Proof. vm_compute. reflexivity. Qed.

End Examples.
